(** * Modular-Video-Editor: timeline store, placement resolver, filter-graph compiler

    A shallow embedding of
      - [services/timelineStore.tsx]  (reducer, [findNextFreeSlot]),
      - [components/Timeline/ClipItem.tsx]  ([handleMouseMove]: move and trim),
      - [services/ffmpegService.ts]  ([FFmpegService.exportVideo]),
    together with the properties of the timeline composition engine.

    JavaScript numbers are modelled as exact rationals ([Q]): the
    comparisons, [Math.max]/[Math.min] and the additions of the source are
    the ones on [Q]; infinities and rounding are outside the model, and
    [NaN] appears only where the reducer computes with an absent field
    ([JsNumber]).  Property reads go through the prototype chain
    ([JsObj.lookup]): a key that an object does not have may still name a
    member of [Object.prototype]. *)

From Stdlib Require Import List String Ascii Bool ZArith NArith QArith Qround Lqa Lia.
From Stdlib Require Import DecimalString Permutation.
Import ListNotations.

Open Scope Q_scope.

(* ------------------------------------------------------------------ *)
(** ** Numbers *)

(** [a < b] on numbers, as a boolean. *)
Definition Qltb (a b : Q) : bool :=
  match a ?= b with Lt => true | _ => false end.

(** [a <= b] on numbers, as a boolean. *)
Definition Qleb (a b : Q) : bool := negb (Qltb b a).

(** [a === b] on numbers. *)
Definition Qeqb (a b : Q) : bool := Qeq_bool a b.

(** [Math.max(a, b)] and [Math.min(a, b)]. *)
Definition Math_max (a b : Q) : Q := if Qltb a b then b else a.
Definition Math_min (a b : Q) : Q := if Qltb b a then b else a.

(** [Math.floor(a)]. *)
Definition Math_floor (a : Q) : Z := Qfloor a.

(* ------------------------------------------------------------------ *)
(** ** Arrays *)

Section ArraySort.
Context {A : Type}.

(** [insertSorted cmp x l]: [x] came before every element of [l] in the
    array; it stays in front of the elements it does not compare greater
    than. *)
Fixpoint insertSorted (cmp : A -> A -> Q) (x : A) (l : list A) : list A :=
  match l with
  | [] => [x]
  | y :: l' => if Qleb (cmp x y) 0 then x :: l else y :: insertSorted cmp x l'
  end.

(** [arr.sort(cmp)]: the stable sort of ECMAScript 2019, for a comparator
    [cmp a b] that is negative when [a] goes first. *)
Fixpoint Array_sort (cmp : A -> A -> Q) (l : list A) : list A :=
  match l with
  | [] => []
  | x :: l' => insertSorted cmp x (Array_sort cmp l')
  end.
End ArraySort.

(** Ascending keys, every element against all the later ones. *)
Inductive ascending {A : Type} (key : A -> Q) : list A -> Prop :=
| ascending_nil : ascending key []
| ascending_cons x l :
    (forall y, In y l -> key x <= key y) -> ascending key l ->
    ascending key (x :: l).

(* ------------------------------------------------------------------ *)
(** ** Plain objects used as string-keyed records ([Record<string, V>])

    An object is the list of its own properties in the order of their
    creation.  Enumeration ([Object.values], spread) follows
    OrdinaryOwnPropertyKeys: first the keys that are array indices, in
    ascending numeric order, then the other string keys in creation
    order. *)

Module JsObj.

(** What every object literal of the program inherits from
    [Object.prototype]: its functions, each with the [name] it carries,
    and [__proto__], which reads as [Object.prototype] itself.  None of
    them has a [duration], a [url] or a [type] property, and only the
    functions have a [name]; all of them are truthy, and none has an
    enumerable property of its own. *)
Inductive ProtoMember :=
| protoFunction (name : string)
| protoObject.

Definition protoFunctions : list string :=
  [ "toString"; "toLocaleString"; "valueOf"; "hasOwnProperty";
    "isPrototypeOf"; "propertyIsEnumerable"; "__defineGetter__";
    "__defineSetter__"; "__lookupGetter__"; "__lookupSetter__" ]%string.

Definition protoMember (k : string) : option ProtoMember :=
  if String.eqb k "constructor" then Some (protoFunction "Object")
  else if String.eqb k "__proto__" then Some protoObject
  else if existsb (String.eqb k) protoFunctions then Some (protoFunction k)
  else None.

Section Obj.
Context {V : Type}.

Definition t := list (string * V).

Definition empty : t := [].

(** The own property [k] of [o]: [o[k]] when [Object.hasOwn(o, k)]. *)
Fixpoint get (k : string) (o : t) : option V :=
  match o with
  | [] => None
  | (k', v) :: o' => if String.eqb k' k then Some v else get k o'
  end.

(** What [o[k]] reads: an own property, else a member of
    [Object.prototype], else [undefined]. *)
Inductive Lookup :=
| own (v : V)
| inherited (m : ProtoMember)
| undefined.

(** [o[k]] *)
Definition lookup (k : string) (o : t) : Lookup :=
  match get k o with
  | Some v => own v
  | None =>
      match protoMember k with
      | Some m => inherited m
      | None => undefined
      end
  end.

(** [o[k] = v] as a computed key of an object literal: an existing
    property keeps its place, a new one is created last. *)
Fixpoint set (k : string) (v : V) (o : t) : t :=
  match o with
  | [] => [(k, v)]
  | (k', v') :: o' =>
      if String.eqb k' k then (k, v) :: o' else (k', v') :: set k v o'
  end.

(** [delete o[k]] *)
Definition delete (k : string) (o : t) : t :=
  filter (fun kv => negb (String.eqb (fst kv) k)) o.

Definition isDigit (c : ascii) : bool :=
  let n := nat_of_ascii c in (48 <=? n)%nat && (n <=? 57)%nat.

Fixpoint parseDigits (acc : N) (s : string) : option N :=
  match s with
  | EmptyString => Some acc
  | String c s' =>
      if isDigit c
      then parseDigits (acc * 10 + N.of_nat (nat_of_ascii c - 48))%N s'
      else None
  end.

(** An array index is a canonical numeric string of an integer in
    [0, 2^32 - 2]. *)
Definition arrayIndex (k : string) : option N :=
  match k with
  | EmptyString => None
  | _ =>
      match parseDigits 0%N k with
      | Some n =>
          if String.eqb (NilZero.string_of_uint (N.to_uint n)) k
             && (n <? 4294967295)%N
          then Some n else None
      | None => None
      end
  end.

Definition isIndexKey (k : string) : bool :=
  match arrayIndex k with Some _ => true | None => false end.

Definition indexOf (k : string) : N :=
  match arrayIndex k with Some n => n | None => 0%N end.

Fixpoint insertByIndex (kv : string * V) (l : t) : t :=
  match l with
  | [] => [kv]
  | kv' :: l' =>
      if (indexOf (fst kv) <=? indexOf (fst kv'))%N
      then kv :: l else kv' :: insertByIndex kv l'
  end.

Fixpoint sortByIndex (l : t) : t :=
  match l with
  | [] => []
  | kv :: l' => insertByIndex kv (sortByIndex l')
  end.

(** The own properties in enumeration order. *)
Definition entries (o : t) : t :=
  sortByIndex (filter (fun kv => isIndexKey (fst kv)) o)
  ++ filter (fun kv => negb (isIndexKey (fst kv))) o.

(** [Object.values(o)] *)
Definition values (o : t) : list V := map snd (entries o).

(** [{ ...o }]: the copy receives the properties in enumeration order. *)
Definition spread (o : t) : t := entries o.

(** [{ ...o, [k]: v }] *)
Definition spreadSet (o : t) (k : string) (v : V) : t := set k v (spread o).
End Obj.
Arguments t : clear implicits.
Arguments Lookup : clear implicits.
End JsObj.

(* ------------------------------------------------------------------ *)
(** ** Data model ([types.ts]) *)

Inductive ClipType := VIDEO | AUDIO | IMAGE | TEXT.

Definition ClipType_eqb (a b : ClipType) : bool :=
  match a, b with
  | VIDEO, VIDEO | AUDIO, AUDIO | IMAGE, IMAGE | TEXT, TEXT => true
  | _, _ => false
  end.

Inductive AssetType := asset_video | asset_audio | asset_image.

Module MediaAsset.
(** The [file] handle and the optional [thumbnail] carry no data the
    engine reads; they are left out. *)
Record t := mk {
  id : string;
  url : string;
  type : AssetType;
  duration : Q;
  name : string
}.
End MediaAsset.

Module Transform.
Record t := mk {
  x : Q;
  y : Q;
  scale : Q;
  rotation : Q;
  opacity : Q
}.
End Transform.

Inductive Align := align_left | align_center | align_right.

Module TextData.
Record t := mk {
  content : string;
  fontSize : Q;
  fontFamily : string;
  color : string;
  backgroundColor : string;
  align : Align
}.
End TextData.

Inductive TransitionType := fade | slide | zoom_transition.

Module Transition.
Record t := mk {
  inDuration : Q;
  outDuration : Q;
  type : TransitionType
}.
End Transition.

Module Clip.
Record t := mk {
  id : string;
  assetId : option string;
  trackId : Q;
  type : ClipType;
  timelineStart : Q;
  inPoint : Q;
  duration : Q;
  transform : Transform.t;
  zIndex : Q;
  label : option string;
  textData : option TextData.t;
  transition : option Transition.t;
  volume : option Q
}.

(** [timelineStart + duration] *)
Definition finish (c : t) : Q := timelineStart c + duration c.
End Clip.

(** [Partial<Clip>]: every key present or absent. *)
Module ClipChanges.
Record t := mk {
  id : option string;
  assetId : option (option string);
  trackId : option Q;
  type : option ClipType;
  timelineStart : option Q;
  inPoint : option Q;
  duration : option Q;
  transform : option Transform.t;
  zIndex : option Q;
  label : option (option string);
  textData : option (option TextData.t);
  transition : option (option Transition.t);
  volume : option (option Q)
}.

Definition none : t :=
  mk None None None None None None None None None None None None None.

Definition over {A} (old : A) (new : option A) : A :=
  match new with Some a => a | None => old end.

(** [{ ...clip, ...changes }] *)
Definition apply (c : Clip.t) (ch : t) : Clip.t :=
  Clip.mk
    (over (Clip.id c) (id ch))
    (over (Clip.assetId c) (assetId ch))
    (over (Clip.trackId c) (trackId ch))
    (over (Clip.type c) (type ch))
    (over (Clip.timelineStart c) (timelineStart ch))
    (over (Clip.inPoint c) (inPoint ch))
    (over (Clip.duration c) (duration ch))
    (over (Clip.transform c) (transform ch))
    (over (Clip.zIndex c) (zIndex ch))
    (over (Clip.label c) (label ch))
    (over (Clip.textData c) (textData ch))
    (over (Clip.transition c) (transition ch))
    (over (Clip.volume c) (volume ch)).
End ClipChanges.

Inductive TrackType := track_video | track_audio | track_overlay.

Module Track.
Record t := mk {
  id : Q;
  type : TrackType;
  name : string;
  isMuted : bool;
  isHidden : bool
}.
End Track.

(** [Partial<Track>] *)
Module TrackChanges.
Record t := mk {
  id : option Q;
  type : option TrackType;
  name : option string;
  isMuted : option bool;
  isHidden : option bool
}.

(** [{ ...t, ...changes }] *)
Definition apply (tr : Track.t) (ch : t) : Track.t :=
  Track.mk
    (ClipChanges.over (Track.id tr) (id ch))
    (ClipChanges.over (Track.type tr) (type ch))
    (ClipChanges.over (Track.name tr) (name ch))
    (ClipChanges.over (Track.isMuted tr) (isMuted ch))
    (ClipChanges.over (Track.isHidden tr) (isHidden ch)).
End TrackChanges.

Module CanvasSize.
Record t := mk {
  width : Q;
  height : Q;
  name : string
}.
End CanvasSize.

Module TimelineState.
Record t := mk {
  assets : JsObj.t MediaAsset.t;
  tracks : list Track.t;
  clips : JsObj.t Clip.t;
  duration : Q;
  currentTime : Q;
  isPlaying : bool;
  selectedClipId : option string;
  zoom : Q;
  canvasSize : CanvasSize.t
}.
End TimelineState.

Definition DEFAULT_TRANSFORM : Transform.t := Transform.mk 0 0 1 0 1.

Definition DEFAULT_TEXT_DATA : TextData.t :=
  TextData.mk "Double Click to Edit" 40 "Inter" "#ffffff" "transparent"
    align_center.

Module EditorProps.
Record t := mk {
  initialCanvasSize : option CanvasSize.t;
  initialClips : option (list string)
}.
End EditorProps.

(* ------------------------------------------------------------------ *)
(** ** Timeline store ([services/timelineStore.tsx]) *)

(** The payload of [ADD_CLIP_SMART]. *)
Module SmartPayload.
Record t := mk {
  assetId : option string;
  trackId : Q;
  duration : Q;
  type : ClipType;
  name : string;
  textData : option TextData.t
}.
End SmartPayload.

(** [ADD_CLIP_SMART] carries [rnd], the string drawn by
    [Math.random().toString(36).substring(7)] while the action is reduced. *)
Inductive Action :=
| ADD_ASSET (payload : MediaAsset.t)
| ADD_CLIP (payload : Clip.t)
| ADD_CLIP_SMART (payload : SmartPayload.t) (rnd : string)
| UPDATE_CLIP (id : string) (changes : ClipChanges.t)
| REMOVE_CLIP (payload : string)
| SET_PLAYHEAD (payload : Q)
| TOGGLE_PLAYBACK
| SELECT_CLIP (payload : option string)
| SET_ZOOM (payload : Q)
| UPDATE_TRACK (id : Q) (changes : TrackChanges.t)
| SET_CANVAS_SIZE (payload : CanvasSize.t).

(** [createInitialState]; [DEFAULT_DURATION] comes from [constants.ts]. *)
Definition createInitialState (DEFAULT_DURATION : Q)
    (props : option EditorProps.t) : TimelineState.t :=
  TimelineState.mk
    JsObj.empty
    [ Track.mk 3 track_overlay "Text/FX" false false;
      Track.mk 2 track_video "Layer 3" false false;
      Track.mk 1 track_video "Layer 2" false false;
      Track.mk 0 track_video "Layer 1" false false;
      Track.mk (-1) track_audio "Audio 1" false false ]
    JsObj.empty
    DEFAULT_DURATION
    0
    false
    None
    50
    (match props with
     | Some p =>
         match EditorProps.initialCanvasSize p with
         | Some cs => cs
         | None => CanvasSize.mk 1920 1080 "1080p"
         end
     | None => CanvasSize.mk 1920 1080 "1080p"
     end).

(** The clips of one track in ascending [timelineStart] order. *)
Definition trackClips (clips : JsObj.t Clip.t) (trackId : Q) : list Clip.t :=
  Array_sort (fun a b => Clip.timelineStart a - Clip.timelineStart b)
    (filter (fun c => Qeqb (Clip.trackId c) trackId) (JsObj.values clips)).

(** One turn of the loop of [findNextFreeSlot]. *)
Definition slotStep (duration : Q) (proposedStart : Q) (clip : Clip.t) : Q :=
  let clipEnd := Clip.timelineStart clip + Clip.duration clip in
  let newEnd := proposedStart + duration in
  if Qltb (Clip.timelineStart clip) newEnd && Qltb proposedStart clipEnd
  then clipEnd
  else proposedStart.

Definition findNextFreeSlot (clips : JsObj.t Clip.t) (trackId : Q)
    (duration : Q) (preferredStart : Q) : Q :=
  fold_left (slotStep duration) (trackClips clips trackId) preferredStart.

(** [timelineReducer] on the commands that leave a state every clip of
    which has all its fields: every command but an [UPDATE_CLIP] whose id
    is no key of [state.clips] and yet the name of a member of
    [Object.prototype]; [reduce] below adds that case. *)
Definition timelineReducer (state : TimelineState.t) (action : Action)
    : TimelineState.t :=
  let '(TimelineState.mk assets tracks clips duration currentTime isPlaying
          selectedClipId zoom canvasSize) := state in
  match action with
  | ADD_ASSET payload =>
      TimelineState.mk
        (JsObj.spreadSet assets (MediaAsset.id payload) payload)
        tracks clips duration currentTime isPlaying selectedClipId zoom
        canvasSize
  | ADD_CLIP payload =>
      TimelineState.mk assets tracks
        (JsObj.spreadSet clips (Clip.id payload) payload)
        (Math_max duration
           (Clip.timelineStart payload + Clip.duration payload + 5))
        currentTime isPlaying
        (Some (Clip.id payload))
        zoom canvasSize
  | ADD_CLIP_SMART payload rnd =>
      let '(SmartPayload.mk assetId trackId duration' type name textData) :=
        payload in
      let timelineStart :=
        findNextFreeSlot clips trackId duration' currentTime in
      let clipId := rnd in
      let newClip :=
        Clip.mk clipId assetId trackId type timelineStart 0 duration'
          DEFAULT_TRANSFORM trackId (Some name)
          (if ClipType_eqb type TEXT then textData else None)
          (Some (Transition.mk 0 0 fade))
          (Some 1) in
      TimelineState.mk assets tracks
        (JsObj.spreadSet clips clipId newClip)
        (Math_max duration (timelineStart + duration' + 5))
        currentTime isPlaying
        (Some clipId)
        zoom canvasSize
  | UPDATE_CLIP id changes =>
      match JsObj.get id clips with
      | None => state
      | Some clip =>
          let updatedClip := ClipChanges.apply clip changes in
          TimelineState.mk assets tracks
            (JsObj.spreadSet clips id updatedClip)
            (Math_max duration
               (Clip.timelineStart updatedClip + Clip.duration updatedClip
                + 5))
            currentTime isPlaying selectedClipId zoom canvasSize
      end
  | REMOVE_CLIP payload =>
      let newClips := JsObj.delete payload (JsObj.spread clips) in
      TimelineState.mk assets tracks newClips duration currentTime isPlaying
        None zoom canvasSize
  | SET_PLAYHEAD payload =>
      TimelineState.mk assets tracks clips duration (Math_max 0 payload)
        isPlaying selectedClipId zoom canvasSize
  | TOGGLE_PLAYBACK =>
      TimelineState.mk assets tracks clips duration currentTime
        (negb isPlaying) selectedClipId zoom canvasSize
  | SELECT_CLIP payload =>
      TimelineState.mk assets tracks clips duration currentTime isPlaying
        payload zoom canvasSize
  | SET_ZOOM payload =>
      TimelineState.mk assets tracks clips duration currentTime isPlaying
        selectedClipId (Math_max 10 (Math_min 200 payload)) canvasSize
  | UPDATE_TRACK id changes =>
      TimelineState.mk assets
        (map (fun t => if Qeqb (Track.id t) id
                       then TrackChanges.apply t changes else t) tracks)
        clips duration currentTime isPlaying selectedClipId zoom canvasSize
  | SET_CANVAS_SIZE payload =>
      TimelineState.mk assets tracks clips duration currentTime isPlaying
        selectedClipId zoom payload
  end.

(** JavaScript numbers beyond the rationals, as far as the reducer meets
    them: [NaN], which arithmetic on [undefined] yields. *)
Module JsNumber.
Inductive t :=
| number (q : Q)
| NaN.

(** [ToNumber] of a field that may be [undefined]. *)
Definition ofField (field : option Q) : t :=
  match field with
  | Some q => number q
  | None => NaN
  end.

(** [a + b] *)
Definition add (a b : t) : t :=
  match a, b with
  | number x, number y => number (x + y)
  | _, _ => NaN
  end.

(** [Math.max(a, b)] *)
Definition max (a b : t) : t :=
  match a, b with
  | number x, number y => number (Math_max x y)
  | _, _ => NaN
  end.

(** [a >= b] *)
Definition geb (a b : t) : bool :=
  match a, b with
  | number x, number y => Qleb y x
  | _, _ => false
  end.
End JsNumber.

(** What the reducer returns.  [stray s id fields duration] is the state
    [s] with, in addition, under the key [id] of [clips], an object that
    has the fields of [fields] and no other, and with [duration] for its
    [duration]: a state that [TimelineState.t] cannot hold. *)
Inductive Reduced :=
| sound (s : TimelineState.t)
| stray (s : TimelineState.t) (id : string) (fields : ClipChanges.t)
    (duration : JsNumber.t).

(** [timelineReducer], on every command.  [state.clips[id]] reads through
    the prototype chain: for an id that is no key of [state.clips] but the
    name of a member of [Object.prototype], [clip] is that member, the
    guard [if (!clip) return state] does not fire, [{ ...clip, ...changes }]
    has the fields of [changes] only, and [updatedClip.timelineStart +
    updatedClip.duration + 5] is [NaN] unless [changes] holds both. *)
Definition reduce (state : TimelineState.t) (action : Action) : Reduced :=
  match action with
  | UPDATE_CLIP id changes =>
      match JsObj.lookup id (TimelineState.clips state) with
      | JsObj.inherited _ =>
          let updatedClip := changes in
          stray state id updatedClip
            (JsNumber.max
               (JsNumber.number (TimelineState.duration state))
               (JsNumber.add
                  (JsNumber.add
                     (JsNumber.ofField
                        (ClipChanges.timelineStart updatedClip))
                     (JsNumber.ofField (ClipChanges.duration updatedClip)))
                  (JsNumber.number 5)))
      | _ => sound (timelineReducer state action)
      end
  | _ => sound (timelineReducer state action)
  end.

(** [state.duration] of what the reducer returns. *)
Definition durationOf (r : Reduced) : JsNumber.t :=
  match r with
  | sound s => JsNumber.number (TimelineState.duration s)
  | stray _ _ _ duration => duration
  end.

(** The states the store can be in: the initial one and what the reducer
    makes of them. *)
Inductive reachable (DEFAULT_DURATION : Q) (props : option EditorProps.t)
    : TimelineState.t -> Prop :=
| reachable_init :
    reachable DEFAULT_DURATION props
      (createInitialState DEFAULT_DURATION props)
| reachable_step s a :
    reachable DEFAULT_DURATION props s ->
    reachable DEFAULT_DURATION props (timelineReducer s a).

(** The state after a sequence of actions, in issuance order. *)
Definition runActions (s : TimelineState.t) (acts : list Action)
    : TimelineState.t :=
  fold_left timelineReducer acts s.

(* ------------------------------------------------------------------ *)
(** ** Placement resolver ([components/Timeline/ClipItem.tsx]) *)

Inductive DragMode := MOVE | TRIM_START | TRIM_END.

(** [initialValuesRef.current], taken from the clip on mouse down. *)
Module InitialValues.
Record t := mk {
  start : Q;
  duration : Q;
  inPoint : Q;
  trackId : Q
}.

Definition ofClip (c : Clip.t) : t :=
  mk (Clip.timelineStart c) (Clip.duration c) (Clip.inPoint c)
     (Clip.trackId c).
End InitialValues.

Module MouseEvent.
Record t := mk {
  clientX : Q;
  clientY : Q
}.
End MouseEvent.

(** What the closure of [handleMouseMove] holds besides the state and the
    clip: the two refs, the start abscissa and the top of the timeline
    rectangle when there is one. *)
Module Drag.
Record t := mk {
  dragMode : option DragMode;
  startX : Q;
  initialValues : InitialValues.t;
  timelineRectTop : option Q
}.
End Drag.

(** [if (s)] on an optional string: [undefined] and the empty string are
    falsy. *)
Definition truthy (s : option string) : bool :=
  match s with
  | Some s' => negb (String.eqb s' EmptyString)
  | None => false
  end.

(** "Determine Max Duration (if asset based)".  [None] is [undefined]:
    the [duration] of a member of [Object.prototype] that
    [state.assets[clip.assetId]] found. *)
Definition maxDurationOf (state : TimelineState.t) (clip : Clip.t)
    (duration : Q) : option Q :=
  if truthy (Clip.assetId clip) then
    match Clip.assetId clip with
    | Some assetId =>
        match JsObj.lookup assetId (TimelineState.assets state) with
        | JsObj.own asset => Some (MediaAsset.duration asset)
        | JsObj.inherited _ => None
        | JsObj.undefined => Some duration
        end
    | None => Some duration
    end
  else Some 3600.

(** The row under the pointer, when it is a track. *)
Definition targetTrackId (TRACK_HEIGHT RULER_HEIGHT : Q)
    (state : TimelineState.t) (timelineRectTop : option Q) (clientY : Q)
    (trackId : Q) : Q :=
  match timelineRectTop with
  | Some top =>
      let relativeY := clientY - top - RULER_HEIGHT in
      let targetTrackIndex := Math_floor (relativeY / TRACK_HEIGHT) in
      if ((0 <=? targetTrackIndex)
          && (targetTrackIndex
              <? Z.of_nat (List.length (TimelineState.tracks state))))%Z
      then
        match nth_error (TimelineState.tracks state)
                (Z.to_nat targetTrackIndex) with
        | Some t => Track.id t
        | None => trackId
        end
      else trackId
  | None => trackId
  end.

(** The other clips of a track, in ascending [timelineStart] order. *)
Definition otherClipsSorted (state : TimelineState.t) (clip : Clip.t)
    (trackId : Q) : list Clip.t :=
  Array_sort (fun a b => Clip.timelineStart a - Clip.timelineStart b)
    (filter (fun c => Qeqb (Clip.trackId c) trackId
                      && negb (String.eqb (Clip.id c) (Clip.id clip)))
       (JsObj.values (TimelineState.clips state))).

(** The other clips of the clip's own track, in enumeration order. *)
Definition otherClips (state : TimelineState.t) (clip : Clip.t)
    : list Clip.t :=
  filter (fun c => Qeqb (Clip.trackId c) (Clip.trackId clip)
                   && negb (String.eqb (Clip.id c) (Clip.id clip)))
    (JsObj.values (TimelineState.clips state)).

(** One turn of the clamping loop of the [MOVE] branch. *)
Definition moveStep (start duration proposedStart proposedEnd : Q)
    (validStart : Q) (other : Clip.t) : Q :=
  let otherEnd := Clip.timelineStart other + Clip.duration other in
  let isOverlapping :=
    Qltb proposedStart otherEnd
    && Qltb (Clip.timelineStart other) proposedEnd in
  if isOverlapping then
    if Qltb start (Clip.timelineStart other)
    then Math_min validStart (Clip.timelineStart other - duration)
    else Math_max validStart otherEnd
  else validStart.

(** The [MOVE] branch. *)
Definition moveChanges (state : TimelineState.t) (clip : Clip.t)
    (init : InitialValues.t) (deltaSec : Q) (newTrackId : Q)
    : ClipChanges.t :=
  let start := InitialValues.start init in
  let duration := InitialValues.duration init in
  let proposedStart := Math_max 0 (start + deltaSec) in
  let proposedEnd := proposedStart + duration in
  let otherClips := otherClipsSorted state clip newTrackId in
  let validStart :=
    fold_left (moveStep start duration proposedStart proposedEnd)
      otherClips proposedStart in
  {| ClipChanges.id := None; ClipChanges.assetId := None;
     ClipChanges.trackId := Some newTrackId; ClipChanges.type := None;
     ClipChanges.timelineStart := Some validStart;
     ClipChanges.inPoint := None; ClipChanges.duration := None;
     ClipChanges.transform := None; ClipChanges.zIndex := Some newTrackId;
     ClipChanges.label := None; ClipChanges.textData := None;
     ClipChanges.transition := None; ClipChanges.volume := None |}.

(** The clip [TRIM_START] takes for the preceding one. *)
Definition prevClipOf (state : TimelineState.t) (clip : Clip.t)
    (start : Q) : option Clip.t :=
  hd_error
    (Array_sort (fun a b => Clip.timelineStart b - Clip.timelineStart a)
       (filter (fun c => Qleb (Clip.timelineStart c + Clip.duration c)
                           start)
          (otherClips state clip))).

(** The [TRIM_START] branch. *)
Definition trimStartChanges (state : TimelineState.t) (clip : Clip.t)
    (init : InitialValues.t) (deltaSec : Q) : ClipChanges.t :=
  let start := InitialValues.start init in
  let duration := InitialValues.duration init in
  let inPoint := InitialValues.inPoint init in
  let proposedInPoint := inPoint + deltaSec in
  let proposedDuration := duration - deltaSec in
  let '(proposedInPoint, proposedDuration) :=
    if Qltb proposedInPoint 0
    then (0, duration + inPoint)
    else (proposedInPoint, proposedDuration) in
  let '(proposedInPoint, proposedDuration) :=
    if Qltb proposedDuration 0.1
    then (inPoint + (duration - 0.1), 0.1)
    else (proposedInPoint, proposedDuration) in
  let proposedStart := start + (proposedInPoint - inPoint) in
  let prevClip := prevClipOf state clip start in
  let '(proposedStart, proposedInPoint, proposedDuration) :=
    match prevClip with
    | Some prevClip =>
        let prevEnd :=
          Clip.timelineStart prevClip + Clip.duration prevClip in
        if Qltb proposedStart prevEnd then
          let diff := prevEnd - proposedStart in
          (prevEnd, proposedInPoint + diff, proposedDuration - diff)
        else (proposedStart, proposedInPoint, proposedDuration)
    | None => (proposedStart, proposedInPoint, proposedDuration)
    end in
  let '(proposedStart, proposedInPoint, proposedDuration) :=
    if Qltb proposedStart 0 then
      let diff := 0 - proposedStart in
      (0, proposedInPoint + diff, proposedDuration - diff)
    else (proposedStart, proposedInPoint, proposedDuration) in
  {| ClipChanges.id := None; ClipChanges.assetId := None;
     ClipChanges.trackId := None; ClipChanges.type := None;
     ClipChanges.timelineStart := Some proposedStart;
     ClipChanges.inPoint := Some proposedInPoint;
     ClipChanges.duration := Some proposedDuration;
     ClipChanges.transform := None; ClipChanges.zIndex := None;
     ClipChanges.label := None; ClipChanges.textData := None;
     ClipChanges.transition := None; ClipChanges.volume := None |}.

(** The clip [TRIM_END] takes for the following one. *)
Definition nextClipOf (state : TimelineState.t) (clip : Clip.t)
    (start duration : Q) : option Clip.t :=
  hd_error
    (Array_sort (fun a b => Clip.timelineStart a - Clip.timelineStart b)
       (filter (fun c => Qleb (start + duration) (Clip.timelineStart c))
          (otherClips state clip))).

(** The [TRIM_END] branch. *)
Definition trimEndChanges (state : TimelineState.t) (clip : Clip.t)
    (init : InitialValues.t) (deltaSec : Q) : ClipChanges.t :=
  let start := InitialValues.start init in
  let duration := InitialValues.duration init in
  let inPoint := InitialValues.inPoint init in
  let maxDuration := maxDurationOf state clip duration in
  let proposedDuration := duration + deltaSec in
  let proposedDuration :=
    match maxDuration with
    | Some maxDuration =>
        if Qltb maxDuration (inPoint + proposedDuration)
        then maxDuration - inPoint
        else proposedDuration
    | None => proposedDuration   (* [x > undefined] is false *)
    end in
  let proposedDuration :=
    if Qltb proposedDuration 0.1 then 0.1 else proposedDuration in
  let proposedDuration :=
    match nextClipOf state clip start duration with
    | Some nextClip =>
        if Qltb (Clip.timelineStart nextClip) (start + proposedDuration)
        then Clip.timelineStart nextClip - start
        else proposedDuration
    | None => proposedDuration
    end in
  {| ClipChanges.id := None; ClipChanges.assetId := None;
     ClipChanges.trackId := None; ClipChanges.type := None;
     ClipChanges.timelineStart := None;
     ClipChanges.inPoint := None;
     ClipChanges.duration := Some proposedDuration;
     ClipChanges.transform := None; ClipChanges.zIndex := None;
     ClipChanges.label := None; ClipChanges.textData := None;
     ClipChanges.transition := None; ClipChanges.volume := None |}.

(** [handleMouseMove]: the action it dispatches, if any.  [TRACK_HEIGHT]
    and [RULER_HEIGHT] come from [constants.ts]. *)
Definition handleMouseMove (TRACK_HEIGHT RULER_HEIGHT : Q)
    (state : TimelineState.t) (clip : Clip.t) (drag : Drag.t)
    (e : MouseEvent.t) : option Action :=
  match Drag.dragMode drag with
  | None => None
  | Some mode =>
      let deltaX := MouseEvent.clientX e - Drag.startX drag in
      let deltaSec := deltaX / TimelineState.zoom state in
      let init := Drag.initialValues drag in
      let changes :=
        match mode with
        | MOVE =>
            moveChanges state clip init deltaSec
              (targetTrackId TRACK_HEIGHT RULER_HEIGHT state
                 (Drag.timelineRectTop drag) (MouseEvent.clientY e)
                 (InitialValues.trackId init))
        | TRIM_START => trimStartChanges state clip init deltaSec
        | TRIM_END => trimEndChanges state clip init deltaSec
        end in
      Some (UPDATE_CLIP (Clip.id clip) changes)
  end.

(** [handleMouseDown] followed by one [handleMouseMove]: the edit a drag in
    [mode] by [deltaX] pixels makes of [clip]. *)
Definition dragEdit (TRACK_HEIGHT RULER_HEIGHT : Q)
    (state : TimelineState.t) (clip : Clip.t) (mode : DragMode)
    (timelineRectTop : option Q) (startX : Q) (e : MouseEvent.t)
    : option Action :=
  handleMouseMove TRACK_HEIGHT RULER_HEIGHT state clip
    (Drag.mk (Some mode) startX (InitialValues.ofClip clip) timelineRectTop)
    e.

(* ------------------------------------------------------------------ *)
(** ** Strings *)

(** A template literal: the concatenation of its pieces. *)
Definition cat (pieces : list string) : string :=
  String.concat EmptyString pieces.

(** [s.replace(/c/g, rep)] for a pattern that is a class of characters. *)
Fixpoint replaceChars (p : ascii -> bool) (rep : string) (s : string)
    : string :=
  match s with
  | EmptyString => EmptyString
  | String c s' =>
      if p c then String.append rep (replaceChars p rep s')
      else String c (replaceChars p rep s')
  end.

Fixpoint dropChars (n : nat) (s : string) : string :=
  match n, s with
  | O, _ => s
  | S n', String _ s' => dropChars n' s'
  | S _, EmptyString => EmptyString
  end.

(** [s.replace(pat, rep)] for a string pattern: the first occurrence only
    (the replacements of the source hold no [$] pattern). *)
Fixpoint replaceFirst (pat rep : string) (s : string) : string :=
  if String.prefix pat s
  then String.append rep (dropChars (String.length pat) s)
  else
    match s with
    | EmptyString => EmptyString
    | String c s' => String c (replaceFirst pat rep s')
    end.

Definition isAlnumOrDot (c : ascii) : bool :=
  let n := nat_of_ascii c in
  ((97 <=? n) && (n <=? 122) || (65 <=? n) && (n <=? 90)
   || (48 <=? n) && (n <=? 57) || (n =? 46))%nat.

Definition isChar (n : nat) (c : ascii) : bool :=
  (nat_of_ascii c =? n)%nat.

(** [new Set(l)]: the first occurrence of every element, in order. *)
Fixpoint newSet (seen : list string) (l : list string) : list string :=
  match l with
  | [] => []
  | x :: l' =>
      if existsb (String.eqb x) seen then newSet seen l'
      else x :: newSet (x :: seen) l'
  end.

(** [Map<string, number>] *)
Module JsMap.
Definition t := list (string * nat).

Fixpoint get (k : string) (m : t) : option nat :=
  match m with
  | [] => None
  | (k', v) :: m' => if String.eqb k' k then Some v else get k m'
  end.

Fixpoint set (k : string) (v : nat) (m : t) : t :=
  match m with
  | [] => [(k, v)]
  | (k', v') :: m' =>
      if String.eqb k' k then (k, v) :: m' else (k', v') :: set k v m'
  end.
End JsMap.

(** [arr[arr.length - 1] = f(arr[arr.length - 1])] *)
Fixpoint mapLast {A} (f : A -> A) (l : list A) : list A :=
  match l with
  | [] => []
  | [x] => [f x]
  | x :: l' => x :: mapLast f l'
  end.

(** [arr.push(x)] *)
Definition push {A} (l : list A) (x : A) : list A := l ++ [x].

(* ------------------------------------------------------------------ *)
(** ** Filter-graph compiler ([services/ffmpegService.ts], [exportVideo]) *)

(** The clips in the order the compiler folds them onto the canvas. *)
Definition activeClips (state : TimelineState.t) : list Clip.t :=
  Array_sort (fun a b => Clip.zIndex a - Clip.zIndex b)
    (JsObj.values (TimelineState.clips state)).

(** [activeClips.map(c => c.assetId).filter(Boolean)] *)
Fixpoint truthyAssetIds (cs : list Clip.t) : list string :=
  match cs with
  | [] => []
  | c :: cs' =>
      match Clip.assetId c with
      | Some a =>
          if truthy (Some a) then a :: truthyAssetIds cs'
          else truthyAssetIds cs'
      | None => truthyAssetIds cs'
      end
  end.

Definition uniqueAssets (state : TimelineState.t) : list string :=
  newSet [] (truthyAssetIds (activeClips state)).

(** What the graph construction carries from clip to clip. *)
Module Graph.
Record t := mk {
  filterChain : list string;
  lastVideoLabel : string;
  audioMixLabels : list string
}.
End Graph.

(** What the asset loop carries from asset to asset. *)
Module Inputs.
Record t := mk {
  inputArgs : list string;
  assetInputMap : JsMap.t;
  inputIndex : nat;
  written : list (string * string)
}.
End Inputs.

(** The properties of an asset that [exportVideo] reads; [None] is
    [undefined]. *)
Module Found.
Record t := mk {
  name : option string;
  url : option string;
  isImage : bool
}.
End Found.

(** How a turn of the [forEach] callback leaves a stage: by [return], or on
    to the next stage. *)
Inductive Flow :=
| Return (g : Graph.t)
| Continue (g : Graph.t).

Section Compiler.

(** The conversion of a number inside a template literal
    (Number::toString of the runtime). *)
Variable numToString : Q -> string.

Definition natToString (n : nat) : string :=
  numToString (inject_Z (Z.of_nat n)).

(** [asset_${assetId}_${asset.name.replace(/[^a-zA-Z0-9.]/g, '_')}] *)
Definition assetFilenameOf (assetId name : string) : string :=
  cat [ "asset_"; assetId; "_";
        replaceChars (fun c => negb (isAlnumOrDot c)) "_" name ]%string.

Definition assetFilename (assetId : string) (asset : MediaAsset.t)
    : string :=
  assetFilenameOf assetId (MediaAsset.name asset).

(** What the compiler reads of [state.assets[assetId]], if that is
    truthy: [asset.name], [asset.url] and [asset.type === 'image'].  A
    member of [Object.prototype] has no [url] and no [type], and a
    [name] only when it is a function. *)
Definition findAsset (state : TimelineState.t) (assetId : string)
    : option Found.t :=
  match JsObj.lookup assetId (TimelineState.assets state) with
  | JsObj.own asset =>
      Some (Found.mk (Some (MediaAsset.name asset))
              (Some (MediaAsset.url asset))
              (match MediaAsset.type asset with
               | asset_image => true
               | _ => false
               end))
  | JsObj.inherited (JsObj.protoFunction name) =>
      Some (Found.mk (Some name) None false)
  | JsObj.inherited JsObj.protoObject => Some (Found.mk None None false)
  | JsObj.undefined => None
  end.

(** "VIDEO / IMAGE PROCESSING".  The source also computes [targetW] and
    [targetH] here and uses neither. *)
Definition visualStage (state : TimelineState.t) (aim : JsMap.t)
    (g : Graph.t) (clip : Clip.t) (idx : nat) : Flow :=
  let timelineStart := Clip.timelineStart clip in
  let inPoint := Clip.inPoint clip in
  let duration := Clip.duration clip in
  let transform := Clip.transform clip in
  let clipLabel := cat ["clip"; natToString idx]%string in
  if ClipType_eqb (Clip.type clip) VIDEO
     || ClipType_eqb (Clip.type clip) IMAGE then
    match Clip.assetId clip with
    | None => Return g
    | Some assetId =>
        if negb (truthy (Some assetId)) then Return g else
        match JsMap.get assetId aim with
        | None => Return g
        | Some inputIdx =>
            let streamPrep :=
              if ClipType_eqb (Clip.type clip) IMAGE then
                cat [ "["; natToString inputIdx;
                      ":v]loop=loop=-1:size=1:start=0,trim=start=0:end=";
                      numToString duration; ",setpts=PTS-STARTPTS" ]%string
              else
                cat [ "["; natToString inputIdx; ":v]trim=";
                      numToString inPoint; ":";
                      numToString (inPoint + duration);
                      ",setpts=PTS-STARTPTS" ]%string in
            let scaleFilter :=
              cat [ "scale=iw*"; numToString (Transform.scale transform);
                    ":ih*"; numToString (Transform.scale transform)
                  ]%string in
            let rotateFilter :=
              cat [ "rotate=";
                    numToString (Transform.rotation transform);
                    "*PI/180:c=none:ow=rotw(";
                    numToString (Transform.rotation transform);
                    "*PI/180):oh=roth(";
                    numToString (Transform.rotation transform);
                    "*PI/180)" ]%string in
            let opacityFilter :=
              cat [ "colorchannelmixer=aa=";
                    numToString (Transform.opacity transform) ]%string in
            let fadeFilter :=
              match Clip.transition clip with
              | Some transition =>
                  let fadeIn :=
                    if Qltb 0 (Transition.inDuration transition) then
                      cat [ ",fade=t=in:st=0:d=";
                            numToString (Transition.inDuration transition);
                            ":alpha=1" ]%string
                    else EmptyString in
                  let fadeOut :=
                    if Qltb 0 (Transition.outDuration transition) then
                      cat [ ",fade=t=out:st=";
                            numToString
                              (duration
                               - Transition.outDuration transition);
                            ":d=";
                            numToString (Transition.outDuration transition);
                            ":alpha=1" ]%string
                    else EmptyString in
                  String.append fadeIn fadeOut
              | None => EmptyString
              end in
            let chain :=
              push (Graph.filterChain g)
                (cat [ streamPrep; ","; scaleFilter; ","; rotateFilter; ",";
                       opacityFilter; fadeFilter; "["; clipLabel; "_v]"
                     ]%string) in
            let x :=
              (Transform.x transform / 100)
              * CanvasSize.width (TimelineState.canvasSize state) in
            let y :=
              (Transform.y transform / 100)
              * CanvasSize.height (TimelineState.canvasSize state) in
            let chain :=
              mapLast
                (replaceFirst "setpts=PTS-STARTPTS"
                   (cat [ "setpts=PTS-STARTPTS+"; numToString timelineStart;
                          "/TB" ]%string))
                chain in
            let chain :=
              push chain
                (cat [ Graph.lastVideoLabel g; "["; clipLabel;
                       "_v]overlay=x="; numToString x; ":y="; numToString y;
                       ":enable='between(t,"; numToString timelineStart;
                       ","; numToString (timelineStart + duration);
                       ")'[tmp_v"; natToString idx; "]" ]%string) in
            Continue
              (Graph.mk chain
                 (cat ["[tmp_v"; natToString idx; "]"]%string)
                 (Graph.audioMixLabels g))
        end
    end
  else Continue g.

(** "TEXT PROCESSING" *)
Definition textStage (state : TimelineState.t) (g : Graph.t)
    (clip : Clip.t) (idx : nat) : Graph.t :=
  let timelineStart := Clip.timelineStart clip in
  let duration := Clip.duration clip in
  match Clip.textData clip with
  | Some textData =>
      if ClipType_eqb (Clip.type clip) TEXT then
        let content := TextData.content textData in
        let fontSize := TextData.fontSize textData in
        let color := TextData.color textData in
        let align := TextData.align textData in
        let textX :=
          (Transform.x (Clip.transform clip) / 100)
          * CanvasSize.width (TimelineState.canvasSize state) in
        let textY :=
          (Transform.y (Clip.transform clip) / 100)
          * CanvasSize.height (TimelineState.canvasSize state) in
        let escapedText :=
          replaceChars (isChar 10) " "
            (replaceChars (isChar 39) EmptyString
               (replaceChars (isChar 58) "\:" content))%string in
        let fontColor := replaceFirst "#" "0x" color in
        let xExpr :=
          match align with
          | align_left => numToString textX
          | align_center => cat [numToString textX; "-(text_w/2)"]%string
          | align_right => cat [numToString textX; "-text_w"]%string
          end in
        let drawTextFilter :=
          cat [ "drawtext=fontfile=font.ttf:text='"; escapedText;
                "':fontcolor="; fontColor; ":fontsize=";
                numToString fontSize; ":x="; xExpr; ":y=";
                numToString textY; ":enable='between(t,";
                numToString timelineStart; ",";
                numToString (timelineStart + duration); ")'" ]%string in
        Graph.mk
          (push (Graph.filterChain g)
             (cat [ Graph.lastVideoLabel g; drawTextFilter; "[tmp_v";
                    natToString idx; "]" ]%string))
          (cat ["[tmp_v"; natToString idx; "]"]%string)
          (Graph.audioMixLabels g)
      else g
  | None => g
  end.

(** [clip.volume !== 0] *)
Definition volumeNonZero (clip : Clip.t) : bool :=
  match Clip.volume clip with
  | Some v => negb (Qeqb v 0)
  | None => true
  end.

(** "AUDIO PROCESSING".  An asset id with an input index is one under
    which [state.assets] found something, so the lookup cannot miss. *)
Definition audioStage (state : TimelineState.t) (aim : JsMap.t)
    (g : Graph.t) (clip : Clip.t) (idx : nat) : Graph.t :=
  let timelineStart := Clip.timelineStart clip in
  let inPoint := Clip.inPoint clip in
  let duration := Clip.duration clip in
  if ClipType_eqb (Clip.type clip) AUDIO
     || (ClipType_eqb (Clip.type clip) VIDEO && volumeNonZero clip) then
    match Clip.assetId clip with
    | None => g
    | Some assetId =>
        if negb (truthy (Some assetId)) then g else
        match JsMap.get assetId aim with
        | None => g
        | Some inputIdx =>
            match findAsset state assetId with
            | None => g
            | Some asset =>
                match Found.isImage asset with
                | true => g
                | false =>
                    let audioLabel :=
                      cat ["[aud"; natToString idx; "]"]%string in
                    let volumeVal :=
                      match Clip.volume clip with
                      | Some v => v
                      | None => 1
                      end in
                    let delayMs := timelineStart * 1000 in
                    let audioFilter :=
                      cat [ "["; natToString inputIdx; ":a]atrim=start=";
                            numToString inPoint; ":end=";
                            numToString (inPoint + duration);
                            ",asetpts=PTS-STARTPTS,volume=";
                            numToString volumeVal; ",adelay=";
                            numToString delayMs; "|"; numToString delayMs;
                            audioLabel ]%string in
                    Graph.mk
                      (push (Graph.filterChain g) audioFilter)
                      (Graph.lastVideoLabel g)
                      (push (Graph.audioMixLabels g) audioLabel)
                end
            end
        end
    end
  else g.

(** The callback of [activeClips.forEach((clip, idx) => ...)]. *)
Definition processClip (state : TimelineState.t) (aim : JsMap.t)
    (g : Graph.t) (clip : Clip.t) (idx : nat) : Graph.t :=
  match visualStage state aim g clip idx with
  | Return g' => g'
  | Continue g' =>
      audioStage state aim (textStage state g' clip idx) clip idx
  end.

Fixpoint forEachClip (state : TimelineState.t) (aim : JsMap.t)
    (cs : list Clip.t) (idx : nat) (g : Graph.t) : Graph.t :=
  match cs with
  | [] => g
  | clip :: cs' =>
      forEachClip state aim cs' (S idx) (processClip state aim g clip idx)
  end.

(** Steps 3 and 4 of [exportVideo]: from the inputs of the asset loop to
    the argument list of [ffmpeg.exec]. *)
Definition buildExecArgs (state : TimelineState.t) (inputArgs : list string)
    (aim : JsMap.t) : list string :=
  let base :=
    Graph.mk
      [ cat [ "color=c=black:s=";
              numToString
                (CanvasSize.width (TimelineState.canvasSize state));
              "x";
              numToString
                (CanvasSize.height (TimelineState.canvasSize state));
              ":d="; numToString (TimelineState.duration state); "[base]"
            ]%string ]
      "[base]" [] in
  let g := forEachClip state aim (activeClips state) 0 base in
  let mapArgs := ["-map"; Graph.lastVideoLabel g]%string in
  let '(filterChain, mapArgs) :=
    if (0 <? List.length (Graph.audioMixLabels g))%nat then
      let amixFilter :=
        cat [ cat (Graph.audioMixLabels g); "amix=inputs=";
              natToString (List.length (Graph.audioMixLabels g));
              ":duration=longest[outa]" ]%string in
      (push (Graph.filterChain g) amixFilter,
       (mapArgs ++ ["-map"; "[outa]"]%string)%list)
    else (Graph.filterChain g, mapArgs) in
  let complexFilter := String.concat ";" filterChain in
  (inputArgs
   ++ ["-filter_complex"; complexFilter]%string
   ++ mapArgs
   ++ [ "-c:v"; "libx264"; "-preset"; "ultrafast"; "-crf"; "25";
        "-shortest"; "output.mp4" ]%string)%list.

End Compiler.

(* ------------------------------------------------------------------ *)
(** ** Export ([FFmpegService.exportVideo]) *)

(** The fields of the service object that [exportVideo] reads. *)
Module Service.
Record t := mk {
  loaded : bool;      (* [this.ffmpeg && this.isLoaded] *)
  fontLoaded : bool
}.
End Service.

(** What lies outside the program: the network behind [fetchFile] ([None]
    when the fetch rejects), what [fetchFile(undefined)] does, and the
    encoder behind [ffmpeg.exec] ([None] when it throws, [Some None] when
    it leaves no [output.mp4]). *)
Module World.
Record t := mk {
  fetchFile : string -> option string;
  fetchUndefined : option string;
  exec : list string -> option (option string)
}.
End World.

(** How the promise settles.  [ThrewTypeError] is [asset.name.replace] on
    an asset without [name]; the [url] of a rejected fetch is [None] when
    it was [undefined]. *)
Inductive Outcome :=
| Threw (message : string)
| ThrewTypeError
| FetchRejected (url : option string)
| Resolved (blob : string).

(** One call of [exportVideo]: how the promise settles, the argument list
    handed to [ffmpeg.exec] if the call got that far, the service
    afterwards, and the files written by [ffmpeg.writeFile], in order. *)
Module Run.
Record t := mk {
  outcome : Outcome;
  execArgs : option (list string);
  service : Service.t;
  written : list (string * string)
}.
End Run.

Definition fontUrl : string :=
  "https://raw.githubusercontent.com/google/fonts/main/ofl/inter/Inter-Bold.ttf".

Section ExportVideo.

Variable numToString : Q -> string.

(** [fetchFile(url)] *)
Definition fetch (w : World.t) (url : option string) : option string :=
  match url with
  | Some url' => World.fetchFile w url'
  | None => World.fetchUndefined w
  end.

(** "Write asset files to VFS": [inl] when the loop is left by an
    exception, with what had been written by then. *)
Fixpoint loadAssets (w : World.t) (state : TimelineState.t)
    (ids : list string) (acc : Inputs.t) : (Outcome * Inputs.t) + Inputs.t :=
  match ids with
  | [] => inr acc
  | assetId :: ids' =>
      match findAsset state assetId with
      | None => loadAssets w state ids' acc
      | Some asset =>
          match Found.name asset with
          | None => inl (ThrewTypeError, acc)
          | Some name =>
              let filename := assetFilenameOf assetId name in
              match fetch w (Found.url asset) with
              | None => inl (FetchRejected (Found.url asset), acc)
              | Some data =>
                  loadAssets w state ids'
                    (Inputs.mk
                       (Inputs.inputArgs acc ++ ["-i"%string; filename])
                       (JsMap.set assetId (Inputs.inputIndex acc)
                          (Inputs.assetInputMap acc))
                       (S (Inputs.inputIndex acc))
                       (push (Inputs.written acc) (filename, data)))
              end
          end
      end
  end.

(** [exportVideo].  The progress callback and the console output leave no
    trace in the result and are left out. *)
Definition exportVideo (svc : Service.t) (w : World.t)
    (state : TimelineState.t) : Run.t :=
  if negb (Service.loaded svc) then
    Run.mk
      (Threw "FFmpeg not loaded. Please ensure shared headers are set.")
      None svc []
  else
    let fontLoaded :=
      if Service.fontLoaded svc then true
      else
        match World.fetchFile w fontUrl with
        | Some _ => true
        | None => false
        end in
    let fontWritten :=
      if Service.fontLoaded svc then []
      else
        match World.fetchFile w fontUrl with
        | Some data => [("font.ttf"%string, data)]
        | None => []
        end in
    let svc' := Service.mk (Service.loaded svc) fontLoaded in
    match loadAssets w state (uniqueAssets state) (Inputs.mk [] [] 0 []) with
    | inl (failure, inputs) =>
        Run.mk failure None svc' (fontWritten ++ Inputs.written inputs)
    | inr inputs =>
        let written := (fontWritten ++ Inputs.written inputs)%list in
        let execArgs :=
          buildExecArgs numToString state (Inputs.inputArgs inputs)
            (Inputs.assetInputMap inputs) in
        match World.exec w execArgs with
        | None =>
            Run.mk (Threw "Export failed during encoding.")
              (Some execArgs) svc' written
        | Some None =>
            Run.mk (Threw "Export succeeded but output file was missing.")
              (Some execArgs) svc' written
        | Some (Some data) =>
            Run.mk (Resolved data) (Some execArgs) svc' written
        end
    end.

End ExportVideo.


(* ------------------------------------------------------------------ *)
(** ** Programmatic insertion ([TimelineProvider]) *)

(** What [addClipToTimeline] dispatches: nothing, an [ADD_CLIP], or,
    [addedStray payload], an [ADD_CLIP] whose payload has the fields of
    [payload] and no number for its [duration]. *)
Inductive Added :=
| notAdded
| added (a : Action)
| addedStray (payload : ClipChanges.t).

(** [addClipToTimeline]; [rnd] is the string drawn for the clip id.  Under
    an [assetId] that is no key of [state.assets] but the name of a
    member of [Object.prototype], [asset] is that member: truthy, without
    [type] and [duration], and with a [name] if it is a function. *)
Definition addClipToTimeline (state : TimelineState.t) (assetId : string)
    (trackId : Q) (time : Q) (rnd : string) : Added :=
  match JsObj.lookup assetId (TimelineState.assets state) with
  | JsObj.undefined => notAdded
  | JsObj.own asset =>
      let clipId := rnd in
      added (ADD_CLIP
        (Clip.mk clipId (Some assetId) trackId
           (match MediaAsset.type asset with
            | asset_video => VIDEO
            | asset_audio => AUDIO
            | asset_image => IMAGE
            end)
           time 0 (MediaAsset.duration asset) DEFAULT_TRANSFORM trackId
           (Some (MediaAsset.name asset)) None
           (Some (Transition.mk 0 0 fade)) (Some 1)))
  | JsObj.inherited member =>
      let clipId := rnd in
      addedStray
        {| ClipChanges.id := Some clipId;
           ClipChanges.assetId := Some (Some assetId);
           ClipChanges.trackId := Some trackId;
           ClipChanges.type := Some IMAGE;
           ClipChanges.timelineStart := Some time;
           ClipChanges.inPoint := Some 0;
           ClipChanges.duration := None;
           ClipChanges.transform := Some DEFAULT_TRANSFORM;
           ClipChanges.zIndex := Some trackId;
           ClipChanges.label :=
             Some (match member with
                   | JsObj.protoFunction name => Some name
                   | JsObj.protoObject => None
                   end);
           ClipChanges.textData := None;
           ClipChanges.transition := Some (Some (Transition.mk 0 0 fade));
           ClipChanges.volume := Some (Some 1) |}
  end.

(** The action of an API call that dispatched a clip with all its
    fields. *)
Definition actionOf (a : Added) : option Action :=
  match a with
  | added a' => Some a'
  | _ => None
  end.

(** [addTextClip]: the action it dispatches. *)
Definition addTextClip (content : string) (rnd : string) : Action :=
  ADD_CLIP_SMART
    (SmartPayload.mk None 3 5 TEXT "Text Layer"
       (Some (TextData.mk content
                (TextData.fontSize DEFAULT_TEXT_DATA)
                (TextData.fontFamily DEFAULT_TEXT_DATA)
                (TextData.color DEFAULT_TEXT_DATA)
                (TextData.backgroundColor DEFAULT_TEXT_DATA)
                (TextData.align DEFAULT_TEXT_DATA))))
    rnd.

(** Dispatching what an API call or a handler produced, if anything. *)
Definition dispatch (state : TimelineState.t) (a : option Action)
    : TimelineState.t :=
  match a with
  | Some a' => timelineReducer state a'
  | None => state
  end.

(* ------------------------------------------------------------------ *)
(** ** Vocabulary of the properties *)

(** No key of the object is an array index. *)
Definition noIndexKeys {V} (o : JsObj.t V) : Prop :=
  forall kv, In kv o -> JsObj.isIndexKey (fst kv) = false.

(** The clips of a state. *)
Definition clipsOf (s : TimelineState.t) : list Clip.t :=
  JsObj.values (TimelineState.clips s).

(** Two clips whose [[timelineStart, timelineStart + duration)] windows
    meet, as every handler of the source tests it. *)
Definition overlapping (a b : Clip.t) : Prop :=
  Clip.timelineStart a < Clip.timelineStart b + Clip.duration b
  /\ Clip.timelineStart b < Clip.timelineStart a + Clip.duration a.

(** The test of [findNextFreeSlot]: a clip of length [d] placed at [s]
    runs into [c]. *)
Definition hits (s d : Q) (c : Clip.t) : Prop :=
  Clip.timelineStart c < s + d
  /\ s < Clip.timelineStart c + Clip.duration c.

(** The window [[s, s + d)] and the window of [c] share an instant. *)
Definition meets (s d : Q) (c : Clip.t) : Prop :=
  exists t, (s <= t /\ t < s + d)
            /\ (Clip.timelineStart c <= t
                /\ t < Clip.timelineStart c + Clip.duration c).

(** The clips of a track. *)
Definition onTrack (clips : JsObj.t Clip.t) (trackId : Q) (c : Clip.t)
    : Prop :=
  In c (JsObj.values clips) /\ Clip.trackId c == trackId.

(** A clip of length [d] placed at [s] on the track meets no clip. *)
Definition freeAt (clips : JsObj.t Clip.t) (trackId : Q) (d s : Q) : Prop :=
  forall c, onTrack clips trackId c -> ~ meets s d c.

(** The clip's [timelineStart], [inPoint] and [duration] once the changes
    of a trim are applied to the values the drag started from. *)
Definition startAfter (init : InitialValues.t) (ch : ClipChanges.t) : Q :=
  ClipChanges.over (InitialValues.start init) (ClipChanges.timelineStart ch).

Definition inPointAfter (init : InitialValues.t) (ch : ClipChanges.t) : Q :=
  ClipChanges.over (InitialValues.inPoint init) (ClipChanges.inPoint ch).

Definition durationAfter (init : InitialValues.t) (ch : ClipChanges.t) : Q :=
  ClipChanges.over (InitialValues.duration init) (ClipChanges.duration ch).

(** No two clips of one track overlap. *)
Definition noOverlap (s : TimelineState.t) : Prop :=
  forall a b, In a (clipsOf s) -> In b (clipsOf s) ->
    Clip.id a <> Clip.id b -> Clip.trackId a == Clip.trackId b ->
    ~ overlapping a b.

(** Every clip ends at least five seconds before the end of the
    timeline. *)
Definition trailingMargin (s : TimelineState.t) : Prop :=
  forall c, In c (clipsOf s) ->
    Clip.timelineStart c + Clip.duration c + 5 <= TimelineState.duration s.

(* ------------------------------------------------------------------ *)
(** ** Scenarios *)

(** A ten-second video asset and the store after its ingestion. *)
Definition introAsset : MediaAsset.t :=
  MediaAsset.mk "a1" "blob:intro" asset_video 10 "intro.mp4".

Definition storeWithAsset : TimelineState.t :=
  timelineReducer (createInitialState 30 None) (ADD_ASSET introAsset).

(** Two clips of the asset on track 0, at 0s and at 12s; the first one is
    then selected. *)
Definition twoClips : TimelineState.t :=
  let s1 := dispatch storeWithAsset
              (actionOf
                 (addClipToTimeline storeWithAsset "a1" 0 0 "k3x9fa")) in
  let s2 := dispatch s1
              (actionOf (addClipToTimeline s1 "a1" 0 12 "p0q7zt")) in
  timelineReducer s2 (SELECT_CLIP (Some "k3x9fa"%string)).


(** A change of [timelineStart] alone. *)
Definition retime (t : Q) : ClipChanges.t :=
  {| ClipChanges.id := None; ClipChanges.assetId := None;
     ClipChanges.trackId := None; ClipChanges.type := None;
     ClipChanges.timelineStart := Some t;
     ClipChanges.inPoint := None; ClipChanges.duration := None;
     ClipChanges.transform := None; ClipChanges.zIndex := None;
     ClipChanges.label := None; ClipChanges.textData := None;
     ClipChanges.transition := None; ClipChanges.volume := None |}.

(** The second clip of [twoClips] once it is moved to 40s. *)
Definition secondClipAt40 : Clip.t :=
  Clip.mk "p0q7zt" (Some "a1"%string) 0 VIDEO 40 0 10 DEFAULT_TRANSFORM 0
    (Some "intro.mp4"%string) None (Some (Transition.mk 0 0 fade)) (Some 1).


(** Two text layers added one after the other; the strings drawn for their
    ids are [81402], then [3906]. *)
Definition firstText : TimelineState.t :=
  timelineReducer (createInitialState 30 None) (addTextClip "first" "81402").

Definition twoTexts : TimelineState.t :=
  timelineReducer firstText (addTextClip "second" "3906").


(** Three clips of the asset on track 0, over [[0, 10)], [[10, 20)] and
    [[30, 40)]. *)
Definition threeClips : TimelineState.t :=
  let s1 := dispatch storeWithAsset
              (actionOf
                 (addClipToTimeline storeWithAsset "a1" 0 0 "k3x9fa")) in
  let s2 := dispatch s1
              (actionOf (addClipToTimeline s1 "a1" 0 10 "p0q7zt")) in
  dispatch s2 (actionOf (addClipToTimeline s2 "a1" 0 30 "m5w2rc")).

Definition clipAt (id : string) (start : Q) : Clip.t :=
  Clip.mk id (Some "a1"%string) 0 VIDEO start 0 10 DEFAULT_TRANSFORM 0
    (Some "intro.mp4"%string) None (Some (Transition.mk 0 0 fade)) (Some 1).

(** The third clip dragged 1500 pixels to the left (30s at the initial
    zoom), outside any timeline rectangle. *)
Definition dragThirdToFront (TRACK_HEIGHT RULER_HEIGHT : Q)
    : option Action :=
  dragEdit TRACK_HEIGHT RULER_HEIGHT threeClips (clipAt "m5w2rc" 30) MOVE
    None 0 (MouseEvent.mk (-1500) 0).


(** A fifty-millisecond video asset and a clip of it on track 0 at 1s. *)
Definition blipAsset : MediaAsset.t :=
  MediaAsset.mk "a2" "blob:blip" asset_video 0.05 "blip.mp4".

Definition blipStore : TimelineState.t :=
  let s1 := timelineReducer (createInitialState 30 None)
              (ADD_ASSET blipAsset) in
  dispatch s1 (actionOf (addClipToTimeline s1 "a2" 0 1 "b8h2kq")).

Definition blipClip : Clip.t :=
  Clip.mk "b8h2kq" (Some "a2"%string) 0 VIDEO 1 0 0.05 DEFAULT_TRANSFORM 0
    (Some "blip.mp4"%string) None (Some (Transition.mk 0 0 fade)) (Some 1).

(** A five-second image asset and its clip, as [addImageClip] makes
    them. *)
Definition stillAsset : MediaAsset.t :=
  MediaAsset.mk "a3" "https://example.com/still.png" asset_image 5
    "Image Clip".

Definition stillStore : TimelineState.t :=
  runActions (createInitialState 30 None)
    [ ADD_ASSET stillAsset;
      ADD_CLIP_SMART (SmartPayload.mk (Some "a3"%string) 2 5 IMAGE
                        "Image Clip" None)
        "s4t1vu" ].

Definition stillClip : Clip.t :=
  Clip.mk "s4t1vu" (Some "a3"%string) 2 IMAGE 0 0 5 DEFAULT_TRANSFORM 2
    (Some "Image Clip"%string) None (Some (Transition.mk 0 0 fade))
    (Some 1).


(** A number printer for the scenarios: integers in decimal, other
    rationals as a fraction in lowest terms. *)
Definition showZ (z : Z) : string := NilZero.string_of_int (Z.to_int z).

Definition showQ (q : Q) : string :=
  let r := Qred q in
  if (Qden r =? 1)%positive then showZ (Qnum r)
  else cat [showZ (Qnum r); "/"; showZ (Zpos (Qden r))]%string.

(** A network that serves every URL and an encoder that succeeds; a
    network that serves everything but the font and an encoder that
    throws. *)
Definition fairWorld : World.t :=
  World.mk (fun url => Some url) (Some EmptyString)
    (fun _ => Some (Some "mp4"%string)).

Definition roughWorld : World.t :=
  World.mk (fun url => if String.eqb url fontUrl then None else Some url)
    (Some EmptyString) (fun _ => None).


(** A store with a video clip of [introAsset] on track 1 over [[2, 12)]
    with a one-second fade-in, the image clip of [stillAsset] and a text
    layer. *)
Definition mixedStore : TimelineState.t :=
  runActions (createInitialState 30 None)
    [ ADD_ASSET introAsset;
      ADD_ASSET stillAsset;
      ADD_CLIP
        (Clip.mk "v7c3ne" (Some "a1"%string) 1 VIDEO 2 0 10
           (Transform.mk 10 20 0.5 0 1) 1 (Some "intro.mp4"%string) None
           (Some (Transition.mk 1 0 fade)) (Some 0.8));
      ADD_CLIP_SMART
        (SmartPayload.mk (Some "a3"%string) 2 5 IMAGE "Image Clip" None)
        "s4t1vu";
      addTextClip "Take 1: it's on" "x2m8pd" ].


(** The filters and the argument list [mixedStore] compiles to. *)
Definition mixedFilters : list string :=
  [ "color=c=black:s=1920x1080:d=30[base]";
    "[0:v]trim=0:10,setpts=PTS-STARTPTS+2/TB,scale=iw*1/2:ih*1/2,rotate=0*PI/180:c=none:ow=rotw(0*PI/180):oh=roth(0*PI/180),colorchannelmixer=aa=1,fade=t=in:st=0:d=1:alpha=1[clip0_v]";
    "[base][clip0_v]overlay=x=192:y=216:enable='between(t,2,12)'[tmp_v0]";
    "[0:a]atrim=start=0:end=10,asetpts=PTS-STARTPTS,volume=4/5,adelay=2000|2000[aud0]";
    "[1:v]loop=loop=-1:size=1:start=0,trim=start=0:end=5,setpts=PTS-STARTPTS+0/TB,scale=iw*1:ih*1,rotate=0*PI/180:c=none:ow=rotw(0*PI/180):oh=roth(0*PI/180),colorchannelmixer=aa=1[clip1_v]";
    "[tmp_v0][clip1_v]overlay=x=0:y=0:enable='between(t,0,5)'[tmp_v1]";
    "[tmp_v1]drawtext=fontfile=font.ttf:text='Take 1\: its on':fontcolor=0xffffff:fontsize=40:x=0-(text_w/2):y=0:enable='between(t,0,5)'[tmp_v2]";
    "[aud0]amix=inputs=1:duration=longest[outa]" ]%string.

Definition mixedArgs : list string :=
  [ "-i"; "asset_a1_intro.mp4"; "-i"; "asset_a3_Image_Clip";
    "-filter_complex"; String.concat ";" mixedFilters;
    "-map"; "[tmp_v2]"; "-map"; "[outa]";
    "-c:v"; "libx264"; "-preset"; "ultrafast"; "-crf"; "25"; "-shortest";
    "output.mp4" ]%string.


(* ------------------------------------------------------------------ *)
(** ** More of the programmatic API ([TimelineProvider]) *)

(** [addVideoClip]: the two actions it dispatches, in order.  [duration]
    is what [getMediaMetadata] resolved for the URL; [rndAsset] and
    [rndClip] are the strings drawn for the asset id and, in the reducer,
    for the clip id. *)
Definition addVideoClip (duration : Q) (url name : string)
    (rndAsset rndClip : string) : list Action :=
  let id := rndAsset in
  let asset := MediaAsset.mk id url asset_video duration name in
  [ ADD_ASSET asset;
    ADD_CLIP_SMART (SmartPayload.mk (Some id) 1 duration VIDEO name None)
      rndClip ].

(** [addImageClip]: the two actions it dispatches, in order. *)
Definition addImageClip (url name : string) (duration : Q)
    (rndAsset rndClip : string) : list Action :=
  let id := rndAsset in
  let asset := MediaAsset.mk id url asset_image duration name in
  [ ADD_ASSET asset;
    ADD_CLIP_SMART (SmartPayload.mk (Some id) 2 duration IMAGE name None)
      rndClip ].

(** The commands that place no clip by themselves: every command but
    [ADD_CLIP] and [UPDATE_CLIP]. *)
Definition keepsPlacement (a : Action) : bool :=
  match a with
  | ADD_CLIP _ | UPDATE_CLIP _ _ => false
  | _ => true
  end.

(** The clip id a command writes to, if it writes to one. *)
Definition targetOf (a : Action) : option string :=
  match a with
  | ADD_CLIP p => Some (Clip.id p)
  | ADD_CLIP_SMART _ rnd => Some rnd
  | UPDATE_CLIP id _ => Some id
  | REMOVE_CLIP id => Some id
  | _ => None
  end.

(** No key occurs twice among the properties of the object. *)
Definition uniqueKeys {V} (o : JsObj.t V) : Prop := NoDup (map fst o).


(* ------------------------------------------------------------------ *)
(** ** More vocabulary for the compiler *)

(** The text between the quotes of [drawtext]'s [text='...']:
    [content.replace(/:/g, '\\:').replace(/'/g, '').replace(/\n/g, ' ')]. *)
Definition escapedText (content : string) : string :=
  replaceChars (isChar 10) " "
    (replaceChars (isChar 39) EmptyString
       (replaceChars (isChar 58) "\:" content))%string.

(** The characters of a string. *)
Definition chars (s : string) : list ascii := list_ascii_of_string s.

(** A network on which the fetch of the intro video rejects. *)
Definition offlineWorld : World.t :=
  World.mk
    (fun url => if String.eqb url "blob:intro" then None else Some url)
    (Some EmptyString)
    (fun _ => Some (Some "mp4"%string)).


(** A text layer whose content holds a colon, a quote and nothing else
    of note. *)
Definition titleClip : Clip.t :=
  Clip.mk "x2m8pd" None 3 TEXT 0 0 5 DEFAULT_TRANSFORM 3
    (Some "Text Layer"%string)
    (Some (TextData.mk "Take 1: it's on" 40 "Inter" "#ffffff" "transparent"
             align_center))
    (Some (Transition.mk 0 0 fade)) (Some 1).

(** A video clip whose asset was never added to the store. *)
Definition orphanClip : Clip.t :=
  Clip.mk "o9r8p7" (Some "gone"%string) 1 VIDEO 0 0 4 DEFAULT_TRANSFORM 1
    (Some "lost.mp4"%string) None (Some (Transition.mk 0 0 fade)) (Some 1).

(** The inputs the asset loop leaves for [mixedStore] when every fetch
    succeeds. *)
Definition mixedInputs : Inputs.t :=
  Inputs.mk
    ["-i"; "asset_a1_intro.mp4"; "-i"; "asset_a3_Image_Clip"]%string
    [("a1"%string, 0%nat); ("a3"%string, 1%nat)]
    2
    [("asset_a1_intro.mp4", "blob:intro");
     ("asset_a3_Image_Clip", "https://example.com/still.png")]%string.

(** What the asset loop keeps true of its inputs: two arguments per
    input, and every id of the map bound to an index below the count, to
    something [state.assets] finds under it that has a [name], and to the
    file written for it with what its fetch returned. *)
Definition inputsSound (w : World.t) (state : TimelineState.t)
    (acc : Inputs.t) : Prop :=
  List.length (Inputs.inputArgs acc) = (2 * Inputs.inputIndex acc)%nat
  /\ forall id idx,
       JsMap.get id (Inputs.assetInputMap acc) = Some idx ->
       (idx < Inputs.inputIndex acc)%nat
       /\ exists asset name data,
            findAsset state id = Some asset
            /\ Found.name asset = Some name
            /\ fetch w (Found.url asset) = Some data
            /\ nth_error (Inputs.inputArgs acc) (2 * idx) = Some "-i"%string
            /\ nth_error (Inputs.inputArgs acc) (2 * idx + 1)
               = Some (assetFilenameOf id name)
            /\ In (assetFilenameOf id name, data) (Inputs.written acc).

(** The asset ids of the clips under which [state.assets] finds nothing
    but a member of [Object.prototype]: none, in a state put together
    through the interface. *)
Definition plainAssetIds (state : TimelineState.t) : Prop :=
  forall a,
    In a (uniqueAssets state) ->
    JsObj.get a (TimelineState.assets state) = None ->
    JsObj.protoMember a = None.

(** A video clip whose asset id is [__proto__], and [mixedStore] with
    that clip. *)
Definition protoClip : Clip.t :=
  Clip.mk "w4e5r6" (Some "__proto__"%string) 1 VIDEO 20 0 4
    DEFAULT_TRANSFORM 1 (Some "odd.mp4"%string) None
    (Some (Transition.mk 0 0 fade)) (Some 1).

Definition oddStore : TimelineState.t :=
  timelineReducer mixedStore (ADD_CLIP protoClip).

(* ------------------------------------------------------------------ *)
(** ** Preview ([components/PreviewPlayer.tsx]) *)

(** One call of [animate]: the action it dispatches, if any, what it
    leaves in [lastTimeRef], and whether it asks for another frame. *)
Module Tick.
Record t := mk {
  dispatched : option Action;
  lastTime : Q;
  again : bool
}.
End Tick.

Definition animate (currentState : TimelineState.t) (lastTimeRef : Q)
    (time : Q) : Tick.t :=
  if negb (TimelineState.isPlaying currentState) then Tick.mk None 0 false
  else
    let dispatched :=
      if negb (Qeqb lastTimeRef 0) then
        let delta := (time - lastTimeRef) / 1000 in
        let safeDelta := Math_min delta 0.1 in
        let newTime := TimelineState.currentTime currentState + safeDelta in
        let newTime :=
          if Qleb (TimelineState.duration currentState) newTime then 0
          else newTime in
        Some (SET_PLAYHEAD newTime)
      else None in
    Tick.mk dispatched time true.

Definition PRELOAD_WINDOW : Q := 2.

(** The clips the preview renders a layer for, bottom layer first. *)
Definition previewClips (state : TimelineState.t) : list Clip.t :=
  Array_sort (fun a b => Clip.zIndex a - Clip.zIndex b)
    (filter
       (fun clip =>
          let clipEnd := Clip.timelineStart clip + Clip.duration clip in
          let windowStart := TimelineState.currentTime state - 1 in
          let windowEnd := TimelineState.currentTime state + PRELOAD_WINDOW in
          Qltb (Clip.timelineStart clip) windowEnd
          && Qltb windowStart clipEnd)
       (JsObj.values (TimelineState.clips state))).

(** [currentTime >= clip.timelineStart &&
     currentTime < clip.timelineStart + clip.duration] *)
Definition visibleAt (clip : Clip.t) (currentTime : Q) : bool :=
  Qleb (Clip.timelineStart clip) currentTime
  && Qltb currentTime (Clip.timelineStart clip + Clip.duration clip).

Definition hasVisibleClip (state : TimelineState.t) : bool :=
  existsb
    (fun clip =>
       negb (ClipType_eqb (Clip.type clip) AUDIO)
       && visibleAt clip (TimelineState.currentTime state))
    (previewClips state).

(** [ClipLayer]: the opacity of the transition ... *)
Definition transitionOpacity (clip : Clip.t) (currentTime : Q)
    (isVisible : bool) : Q :=
  match Clip.transition clip with
  | Some transition =>
      if isVisible then
        let timeIntoClip := currentTime - Clip.timelineStart clip in
        let timeUntilEnd :=
          (Clip.timelineStart clip + Clip.duration clip) - currentTime in
        if Qltb timeIntoClip (Transition.inDuration transition)
        then timeIntoClip / Transition.inDuration transition
        else if Qltb timeUntilEnd (Transition.outDuration transition)
        then timeUntilEnd / Transition.outDuration transition
        else 1
      else 1
  | None => 1
  end.

(** ... and the opacity of the layer. *)
Definition finalOpacity (clip : Clip.t) (currentTime : Q)
    (isVisible : bool) : Q :=
  (if isVisible then Transform.opacity (Clip.transform clip) else 0)
  * transitionOpacity clip currentTime isVisible.

(* ------------------------------------------------------------------ *)
(** ** Timeline ([components/Timeline/Timeline.tsx]) *)

(** What [handleDrop] reads off [scrollContainerRef.current]. *)
Module Container.
Record t := mk {
  left : Q;
  top : Q;
  scrollLeft : Q
}.
End Container.

(** [handleDrop]: what it has [addClipToTimeline] dispatch, if anything.
    [assetId] is what [getData('assetId')] returns, the empty string when
    the drag carries none. *)
Definition handleDrop (TRACK_HEIGHT RULER_HEIGHT : Q)
    (state : TimelineState.t) (assetId : string)
    (container : option Container.t) (e : MouseEvent.t) (rnd : string)
    : Added :=
  if negb (truthy (Some assetId)) then notAdded
  else
    match container with
    | None => notAdded
    | Some box =>
        let x := MouseEvent.clientX e - Container.left box in
        let y := MouseEvent.clientY e - Container.top box in
        let scrollLeft := Container.scrollLeft box in
        let time :=
          Math_max 0 ((x + scrollLeft) / TimelineState.zoom state) in
        let relativeY := y - RULER_HEIGHT in
        let trackIndex := Math_floor (relativeY / TRACK_HEIGHT) in
        let track :=
          if (0 <=? trackIndex)%Z
          then nth_error (TimelineState.tracks state) (Z.to_nat trackIndex)
          else None in
        match track with
        | Some track =>
            addClipToTimeline state assetId (Track.id track) time rnd
        | None => notAdded
        end
    end.

(** [Math.trunc], and the remainder [a % b] of numbers: the sign of the
    dividend, [a - b * trunc(a / b)]. *)
Definition Math_trunc (a : Q) : Z :=
  if Qltb a 0 then Qceiling a else Qfloor a.

Definition jsRem (a b : Q) : Q := a - b * inject_Z (Math_trunc (a / b)).

(** [s.padStart(2, '0')] *)
Definition padStart2 (s : string) : string :=
  match String.length s with
  | O => "00"
  | S O => String.append "0" s
  | _ => s
  end.

(** The three numbers [formatTime] prints. *)
Definition formatTimeParts (seconds : Q) : Z * Z * Z :=
  let min := Math_floor (seconds / 60) in
  let sec := Math_floor (jsRem seconds 60) in
  let ms := Math_floor (jsRem seconds 1 * 100) in
  (min, sec, ms).

(** [formatTime]; the integers are below the 10^21 from which on
    [toString] switches to exponents. *)
Definition formatTime (seconds : Q) : string :=
  let '(min, sec, ms) := formatTimeParts seconds in
  cat [ padStart2 (showZ min); ":"; padStart2 (showZ sec); ".";
        padStart2 (showZ ms) ]%string.


(* ------------------------------------------------------------------ *)
(** ** Initial clips and the properties panel *)

(** One URL of [initialProps.initialClips] with what the world answers
    for it: the duration [getMediaMetadata] resolves and the two strings
    drawn for the asset id and the clip id. *)
Module InitialClip.
Record t := mk {
  url : string;
  duration : Q;
  rndAsset : string;
  rndClip : string
}.
End InitialClip.




(** [const selectedClip = state.selectedClipId ?
      state.clips[state.selectedClipId] : null] *)
Definition selectedClip (state : TimelineState.t) : JsObj.Lookup Clip.t :=
  match TimelineState.selectedClipId state with
  | Some id =>
      if truthy (Some id) then JsObj.lookup id (TimelineState.clips state)
      else JsObj.undefined
  | None => JsObj.undefined
  end.

(** What a control of the panel dispatches: nothing, when the panel shows
    no control; an [UPDATE_CLIP]; or, when the selection names a member
    of [Object.prototype] and not a clip, an [UPDATE_CLIP] that has
    [undefined] for its id. *)
Inductive PanelEdit :=
| noControl
| edits (a : Action)
| editsUndefined.

(** The keys of a transform the panel writes. *)
Inductive TransformKey :=
| key_x | key_y | key_scale | key_rotation | key_opacity.

(** [{ ...transform, [key]: value }] *)
Definition setTransform (t : Transform.t) (key : TransformKey) (value : Q)
    : Transform.t :=
  match key with
  | key_x =>
      Transform.mk value (Transform.y t) (Transform.scale t)
        (Transform.rotation t) (Transform.opacity t)
  | key_y =>
      Transform.mk (Transform.x t) value (Transform.scale t)
        (Transform.rotation t) (Transform.opacity t)
  | key_scale =>
      Transform.mk (Transform.x t) (Transform.y t) value
        (Transform.rotation t) (Transform.opacity t)
  | key_rotation =>
      Transform.mk (Transform.x t) (Transform.y t) (Transform.scale t)
        value (Transform.opacity t)
  | key_opacity =>
      Transform.mk (Transform.x t) (Transform.y t) (Transform.scale t)
        (Transform.rotation t) value
  end.

(** [updateTransform(key, value)] of the properties panel. *)
Definition updateTransform (state : TimelineState.t) (key : TransformKey)
    (value : Q) : PanelEdit :=
  match selectedClip state with
  | JsObj.undefined => noControl
  | JsObj.inherited _ => editsUndefined
  | JsObj.own selected =>
      edits (UPDATE_CLIP (Clip.id selected)
        {| ClipChanges.id := None; ClipChanges.assetId := None;
           ClipChanges.trackId := None; ClipChanges.type := None;
           ClipChanges.timelineStart := None;
           ClipChanges.inPoint := None; ClipChanges.duration := None;
           ClipChanges.transform :=
             Some (setTransform (Clip.transform selected) key value);
           ClipChanges.zIndex := None; ClipChanges.label := None;
           ClipChanges.textData := None; ClipChanges.transition := None;
           ClipChanges.volume := None |})
  end.

(** The volume slider of the panel: [updateClip({ volume })]. *)
Definition updateVolume (state : TimelineState.t) (value : Q)
    : PanelEdit :=
  match selectedClip state with
  | JsObj.undefined => noControl
  | JsObj.inherited _ => editsUndefined
  | JsObj.own selected =>
      edits (UPDATE_CLIP (Clip.id selected)
        {| ClipChanges.id := None; ClipChanges.assetId := None;
           ClipChanges.trackId := None; ClipChanges.type := None;
           ClipChanges.timelineStart := None;
           ClipChanges.inPoint := None; ClipChanges.duration := None;
           ClipChanges.transform := None;
           ClipChanges.zIndex := None; ClipChanges.label := None;
           ClipChanges.textData := None; ClipChanges.transition := None;
           ClipChanges.volume := Some (Some value) |})
  end.

(** The changes that leave the placement of a clip alone. *)
Definition keepsTiming (ch : ClipChanges.t) : Prop :=
  ClipChanges.id ch = None /\ ClipChanges.trackId ch = None
  /\ ClipChanges.timelineStart ch = None /\ ClipChanges.inPoint ch = None
  /\ ClipChanges.duration ch = None.

(** [twoClips] after its selected clip was given the id [toString]: the
    clip keeps its key. *)
Definition renamedStore : TimelineState.t :=
  timelineReducer twoClips
    (UPDATE_CLIP "k3x9fa"
       {| ClipChanges.id := Some "toString"%string;
          ClipChanges.assetId := None;
          ClipChanges.trackId := None; ClipChanges.type := None;
          ClipChanges.timelineStart := None;
          ClipChanges.inPoint := None; ClipChanges.duration := None;
          ClipChanges.transform := None;
          ClipChanges.zIndex := None; ClipChanges.label := None;
          ClipChanges.textData := None; ClipChanges.transition := None;
          ClipChanges.volume := None |}).


(* ================================================================== *)
(** * Properties *)

(* ------------------------------------------------------------------ *)
(** ** Numbers *)

Lemma Qltb_true (a b : Q) : Qltb a b = true <-> a < b.
Proof.
  unfold Qltb. rewrite Qlt_alt. destruct (a ?= b); intuition congruence.
Qed.

Lemma Qltb_false (a b : Q) : Qltb a b = false <-> b <= a.
Proof.
  split; intro H.
  - apply Qnot_lt_le. intro L. apply Qltb_true in L. congruence.
  - destruct (Qltb a b) eqn:E; trivial.
    apply Qltb_true in E. apply Qle_not_lt in H. contradiction.
Qed.

Lemma Qleb_true (a b : Q) : Qleb a b = true <-> a <= b.
Proof.
  unfold Qleb. rewrite negb_true_iff. apply Qltb_false.
Qed.

Lemma Qleb_false (a b : Q) : Qleb a b = false <-> b < a.
Proof.
  unfold Qleb. rewrite negb_false_iff. apply Qltb_true.
Qed.

Lemma Qeqb_true (a b : Q) : Qeqb a b = true <-> a == b.
Proof. apply Qeq_bool_iff. Qed.

(** Turns the boolean tests in the context into (in)equalities. *)
Ltac qprops :=
  repeat match goal with
  | H : Qltb _ _ = true |- _ => apply Qltb_true in H
  | H : Qltb _ _ = false |- _ => apply Qltb_false in H
  | H : Qleb _ _ = true |- _ => apply Qleb_true in H
  | H : Qleb _ _ = false |- _ => apply Qleb_false in H
  | H : Qeqb _ _ = true |- _ => apply Qeqb_true in H
  | H : (_ && _)%bool = true |- _ => apply andb_true_iff in H; destruct H
  end.

(** Splits on an innermost numeric test the goal branches on. *)
Ltac no_test t :=
  lazymatch t with
  | context [Qltb _ _] => fail
  | context [Qleb _ _] => fail
  | _ => idtac
  end.

Ltac qcase :=
  match goal with
  | |- context [Qltb ?a ?b] =>
      no_test a; no_test b; destruct (Qltb a b) eqn:?
  | |- context [Qleb ?a ?b] =>
      no_test a; no_test b; destruct (Qleb a b) eqn:?
  end.

Lemma Math_max_l (a b : Q) : a <= Math_max a b.
Proof. unfold Math_max. qcase; qprops; lra. Qed.

Lemma Math_max_r (a b : Q) : b <= Math_max a b.
Proof. unfold Math_max. qcase; qprops; lra. Qed.

Lemma Math_min_l (a b : Q) : Math_min a b <= a.
Proof. unfold Math_min. qcase; qprops; lra. Qed.

Lemma Math_min_r (a b : Q) : Math_min a b <= b.
Proof. unfold Math_min. qcase; qprops; lra. Qed.

(* ------------------------------------------------------------------ *)
(** ** Arrays *)

Section ArraySortPerm.
Context {A : Type} (cmp : A -> A -> Q).

Lemma insertSorted_perm (x : A) (l : list A) :
  Permutation (insertSorted cmp x l) (x :: l).
Proof.
  induction l as [|y l IH]; simpl; [reflexivity|].
  destruct (Qleb (cmp x y) 0); [reflexivity|].
  rewrite IH. apply perm_swap.
Qed.

Lemma Array_sort_perm (l : list A) : Permutation (Array_sort cmp l) l.
Proof.
  induction l as [|x l IH]; simpl; [reflexivity|].
  rewrite insertSorted_perm. now constructor.
Qed.

Lemma Array_sort_In (l : list A) (x : A) :
  In x (Array_sort cmp l) <-> In x l.
Proof.
  split; apply Permutation_in;
    [apply Array_sort_perm | symmetry; apply Array_sort_perm].
Qed.

(** The first element of a sorted selection is one of the selected. *)
Lemma hd_sort_filter (p : A -> bool) (l : list A) (x : A) :
  hd_error (Array_sort cmp (filter p l)) = Some x ->
  In x l /\ p x = true.
Proof.
  intros H. apply filter_In. apply Array_sort_In.
  destruct (Array_sort cmp (filter p l)); [discriminate|].
  injection H as ->. now left.
Qed.

End ArraySortPerm.

Section ArraySortFacts.
Context {A : Type} (key : A -> Q).

Local Abbreviation cmp := (fun a b : A => key a - key b).

Lemma insertSorted_ascending (x : A) (l : list A) :
  ascending key l -> ascending key (insertSorted cmp x l).
Proof.
  induction 1 as [|y l Hy Hl IH]; simpl.
  - constructor; [intros ? []|constructor].
  - simpl. qcase; qprops.
    + constructor; [|now constructor].
      intros z [<-|Hz]; [lra|]. specialize (Hy z Hz). lra.
    + constructor; [|exact IH].
      intros z Hz.
      apply (Permutation_in _ (insertSorted_perm cmp x l)) in Hz.
      destruct Hz as [<-|Hz]; [lra|auto].
Qed.

Lemma Array_sort_ascending (l : list A) :
  ascending key (Array_sort cmp l).
Proof.
  induction l; simpl; [constructor|now apply insertSorted_ascending].
Qed.

(** Stability: the elements of one key come out in the order they went
    in. *)
Lemma insertSorted_filter_key (z : Q) (x : A) (l : list A) :
  filter (fun a => Qeqb (key a) z) (insertSorted cmp x l)
  = filter (fun a => Qeqb (key a) z) (x :: l).
Proof.
  induction l as [|y l IH]; [reflexivity|].
  simpl. qcase; qprops; [reflexivity|].
  simpl. rewrite IH. simpl.
  destruct (Qeqb (key x) z) eqn:Ex, (Qeqb (key y) z) eqn:Ey; trivial.
  qprops. lra.
Qed.

Lemma Array_sort_stable (z : Q) (l : list A) :
  filter (fun a => Qeqb (key a) z) (Array_sort cmp l)
  = filter (fun a => Qeqb (key a) z) l.
Proof.
  induction l as [|x l IH]; [reflexivity|].
  simpl Array_sort. rewrite insertSorted_filter_key. simpl. now rewrite IH.
Qed.

End ArraySortFacts.

(* ------------------------------------------------------------------ *)
(** ** Objects *)

Section JsObjFacts.
Context {V : Type}.
Implicit Types (o : JsObj.t V) (k : string) (v : V).

Lemma insertByIndex_perm (kv : string * V) (l : JsObj.t V) :
  Permutation (JsObj.insertByIndex kv l) (kv :: l).
Proof.
  induction l as [|kv' l IH]; simpl; [reflexivity|].
  destruct (_ <=? _)%N; [reflexivity|].
  rewrite IH. apply perm_swap.
Qed.

Lemma sortByIndex_perm (l : JsObj.t V) :
  Permutation (JsObj.sortByIndex l) l.
Proof.
  induction l as [|kv l IH]; simpl; [reflexivity|].
  rewrite insertByIndex_perm. now constructor.
Qed.

Lemma filter_split_perm {A} (p : A -> bool) (l : list A) :
  Permutation (filter p l ++ filter (fun a => negb (p a)) l) l.
Proof.
  induction l as [|a l IH]; simpl; [reflexivity|].
  destruct (p a); simpl.
  - now constructor.
  - rewrite <- Permutation_middle. now constructor.
Qed.

(** Enumeration reorders the properties, nothing else. *)
Lemma entries_perm o : Permutation (JsObj.entries o) o.
Proof.
  unfold JsObj.entries. rewrite sortByIndex_perm.
  apply (filter_split_perm (fun kv => JsObj.isIndexKey (fst kv))).
Qed.

Lemma entries_In o (kv : string * V) : In kv (JsObj.entries o) <-> In kv o.
Proof.
  split; apply Permutation_in;
    [apply entries_perm | symmetry; apply entries_perm].
Qed.

Lemma values_In o v :
  In v (JsObj.values o) <-> exists k, In (k, v) o.
Proof.
  unfold JsObj.values. rewrite in_map_iff. split.
  - intros [[k v'] [E H]]. simpl in E. subst. exists k.
    now apply entries_In.
  - intros [k H]. exists (k, v). split; [reflexivity|].
    now apply entries_In.
Qed.

Lemma set_In k v o (kv : string * V) :
  In kv (JsObj.set k v o) -> kv = (k, v) \/ In kv o.
Proof.
  induction o as [|[k' v'] o IH]; simpl.
  - intros [<-|[]]. now left.
  - destruct (String.eqb k' k); simpl.
    + intros [<-|H]; [left; reflexivity|right; right; exact H].
    + intros [<-|H]; [right; left; reflexivity|].
      destruct (IH H) as [E|H']; [left; exact E|right; right; exact H'].
Qed.

Lemma spreadSet_values_In o k v (v' : V) :
  In v' (JsObj.values (JsObj.spreadSet o k v)) ->
  v' = v \/ In v' (JsObj.values o).
Proof.
  rewrite !values_In. unfold JsObj.spreadSet, JsObj.spread.
  intros [k' H]. apply set_In in H. destruct H as [E|H].
  - left. congruence.
  - right. exists k'. apply entries_In. exact H.
Qed.

Lemma delete_In k o (kv : string * V) :
  In kv (JsObj.delete k o) -> In kv o.
Proof. unfold JsObj.delete. rewrite filter_In. tauto. Qed.

Lemma delete_spread_values_In o k (v' : V) :
  In v' (JsObj.values (JsObj.delete k (JsObj.spread o))) ->
  In v' (JsObj.values o).
Proof.
  rewrite !values_In. unfold JsObj.spread. intros [k' H]. exists k'.
  apply delete_In in H. apply entries_In. exact H.
Qed.

Lemma get_In k v o : JsObj.get k o = Some v -> In (k, v) o.
Proof.
  induction o as [|[k' v'] o IH]; simpl; [discriminate|].
  destruct (String.eqb k' k) eqn:E.
  - apply String.eqb_eq in E. intros [= ->]. left. now subst.
  - intros H. right. auto.
Qed.

(** An object without array-index keys enumerates in creation order. *)
Lemma entries_noIndexKeys o : noIndexKeys o -> JsObj.entries o = o.
Proof.
  unfold JsObj.entries. induction o as [|kv o IH]; intros H; [reflexivity|].
  simpl. rewrite (H kv (or_introl eq_refl)). simpl.
  assert (Ho : noIndexKeys o) by (intros kv' Hkv'; apply H; now right).
  specialize (IH Ho).
  assert (E : filter (fun kv0 => JsObj.isIndexKey (fst kv0)) o = []).
  { clear IH. induction o as [|kv' o IHo]; [reflexivity|]. simpl.
    rewrite (Ho kv' (or_introl eq_refl)). apply IHo.
    - intros kv'' [->|Hkv'']; apply H; [now left|right; now right].
    - intros kv'' Hkv''. apply Ho. now right. }
  rewrite E in *. simpl in *. now rewrite IH.
Qed.

End JsObjFacts.

(* ------------------------------------------------------------------ *)
(** ** The store: total duration *)

Lemma reducer_duration_le (s : TimelineState.t) (a : Action) :
  TimelineState.duration s <= TimelineState.duration (timelineReducer s a).
Proof.
  destruct s as [assets tracks clips d ct pl sel zm cs].
  destruct a as [p|p|[aid tid dur ty nm td] rnd|id ch|id|t| |sel'|z|id ch|c];
    simpl; try apply Qle_refl; try apply Math_max_l.
  destruct (JsObj.get id clips); simpl;
    [apply Math_max_l | apply Qle_refl].
Qed.

Lemma runActions_duration_le (acts : list Action) :
  forall s,
    TimelineState.duration s <= TimelineState.duration (runActions s acts).
Proof.
  unfold runActions.
  induction acts as [|a acts IH]; intros s; simpl; [apply Qle_refl|].
  eapply Qle_trans; [apply reducer_duration_le | apply IH].
Qed.

(** On the commands [timelineReducer] covers the total duration never
    decreases: one command leaves it at least as large as it was, so
    does every sequence of commands, and [REMOVE_CLIP] leaves it exactly
    as it was, whichever clip goes. *)
Theorem totalDuration_never_contracts :
  (forall s a,
     TimelineState.duration s
     <= TimelineState.duration (timelineReducer s a))
  /\ (forall s acts,
        TimelineState.duration s
        <= TimelineState.duration (runActions s acts))
  /\ (forall s id,
        TimelineState.duration (timelineReducer s (REMOVE_CLIP id))
        = TimelineState.duration s).
Proof.
  split; [exact reducer_duration_le|].
  split; [intros s acts; apply runActions_duration_le|].
  intros [assets tracks clips d ct pl sel zm cs] id. reflexivity.
Qed.

(** A state of which every clip has all its fields is what
    [timelineReducer] computes. *)
Lemma reduce_sound_inv (s s' : TimelineState.t) (a : Action) :
  reduce s a = sound s' -> s' = timelineReducer s a.
Proof.
  unfold reduce. destruct a; try (now intros [= <-]).
  destruct (JsObj.lookup id (TimelineState.clips s));
    try (now intros [= <-]).
Qed.

(** Where [reduce] and [timelineReducer] agree: on every command but an
    [UPDATE_CLIP] of an id that only [Object.prototype] knows. *)
Lemma reduce_sound (s : TimelineState.t) (a : Action) :
  (forall id ch m,
     a = UPDATE_CLIP id ch ->
     JsObj.lookup id (TimelineState.clips s) <> JsObj.inherited m) ->
  reduce s a = sound (timelineReducer s a).
Proof.
  intros H. destruct a; try reflexivity. unfold reduce.
  destruct (JsObj.lookup id (TimelineState.clips s)) as [v|m|] eqn:L;
    try reflexivity.
  exfalso. exact (H id changes m eq_refl L).
Qed.

(** An [UPDATE_CLIP] of such an id leaves [NaN] for the total duration as
    soon as the changes lack [timelineStart] or [duration]. *)
Lemma reduce_inherited_duration (s : TimelineState.t) (id : string)
    (ch : ClipChanges.t) (m : JsObj.ProtoMember) :
  JsObj.lookup id (TimelineState.clips s) = JsObj.inherited m ->
  ClipChanges.timelineStart ch = None \/ ClipChanges.duration ch = None ->
  reduce s (UPDATE_CLIP id ch) = stray s id ch JsNumber.NaN.
Proof.
  intros L H. unfold reduce. rewrite L.
  destruct H as [H|H]; rewrite H; simpl;
    destruct (ClipChanges.timelineStart ch), (ClipChanges.duration ch);
    reflexivity.
Qed.

(** C10, at the failing input.  No clip of the initial state is called
    [constructor], but [state.clips["constructor"]] finds the function that
    every object inherits: [UPDATE_CLIP] with empty changes stores an empty
    object under that id and leaves [NaN] for the total duration, and
    [NaN >= 30] is false: the duration is not at least what it was. *)
Theorem update_of_inherited_id_loses_duration :
  let s := createInitialState 30 None in
  let a := UPDATE_CLIP "constructor" ClipChanges.none in
  JsObj.get "constructor" (TimelineState.clips s) = None
  /\ reduce s a = stray s "constructor" ClipChanges.none JsNumber.NaN
  /\ JsNumber.geb (durationOf (reduce s a))
       (JsNumber.number (TimelineState.duration s))
     = false.
Proof. repeat split. Qed.

(* ------------------------------------------------------------------ *)
(** ** The store: trailing margin *)

Lemma trailingMargin_grow (clips clips' : JsObj.t Clip.t) (d d' : Q)
    (c : Clip.t) assets tracks ct pl sel sel' zm cs :
  trailingMargin
    (TimelineState.mk assets tracks clips d ct pl sel zm cs) ->
  (forall c', In c' (JsObj.values clips') ->
     c' = c \/ In c' (JsObj.values clips)) ->
  d <= d' ->
  Clip.timelineStart c + Clip.duration c + 5 <= d' ->
  trailingMargin
    (TimelineState.mk assets tracks clips' d' ct pl sel' zm cs).
Proof.
  unfold trailingMargin, clipsOf. simpl. intros M Hin Hd Hc c' Hc'.
  destruct (Hin c' Hc') as [->|Hold]; [exact Hc|].
  specialize (M c' Hold). lra.
Qed.

(** Every command keeps the margin. *)
Lemma reducer_keeps_margin (s : TimelineState.t) (a : Action) :
  trailingMargin s -> trailingMargin (timelineReducer s a).
Proof.
  destruct s as [assets tracks clips d ct pl sel zm cs].
  destruct a as [p|p|[aid tid dur ty nm td] rnd|id ch|id|t| |sel'|z|id ch|c];
    intros M; simpl; try exact M.
  - eapply trailingMargin_grow with (c := p); eauto.
    + intros c'. apply spreadSet_values_In.
    + apply Math_max_l.
    + apply Math_max_r.
  - eapply trailingMargin_grow; eauto.
    + intros c'. apply spreadSet_values_In.
    + apply Math_max_l.
    + simpl. apply Math_max_r.
  - destruct (JsObj.get id clips) as [clip|]; [|exact M].
    eapply trailingMargin_grow; eauto.
    + intros c'. apply spreadSet_values_In.
    + apply Math_max_l.
    + apply Math_max_r.
  - intros c' Hc'. apply (M c'). unfold clipsOf in *. simpl in *.
    now apply delete_spread_values_In in Hc'.
Qed.

Lemma reachable_margin d0 props (s : TimelineState.t) :
  reachable d0 props s -> trailingMargin s.
Proof.
  induction 1 as [|s a _ IH].
  - intros c []. 
  - now apply reducer_keeps_margin.
Qed.

(** In every state the store can reach, after an [ADD_CLIP],
    [ADD_CLIP_SMART] or [UPDATE_CLIP] command that [timelineReducer]
    covers (indeed after any such command) the total duration is at
    least [timelineStart + duration + 5] for every clip of the state. *)
Theorem duration_auto_extend d0 props (s : TimelineState.t) (a : Action)
    (c : Clip.t) :
  reachable d0 props s ->
  In c (clipsOf (timelineReducer s a)) ->
  Clip.timelineStart c + Clip.duration c + 5
  <= TimelineState.duration (timelineReducer s a).
Proof.
  intros R. apply reducer_keeps_margin. eapply reachable_margin, R.
Qed.

(** The extension itself, as the two adding commands and the updating one
    apply it. *)
Lemma add_clip_duration (s : TimelineState.t) (p : Clip.t) :
  TimelineState.duration (timelineReducer s (ADD_CLIP p))
  = Math_max (TimelineState.duration s)
      (Clip.timelineStart p + Clip.duration p + 5).
Proof. destruct s. reflexivity. Qed.

Lemma add_clip_smart_duration (s : TimelineState.t) (p : SmartPayload.t)
    (rnd : string) :
  TimelineState.duration (timelineReducer s (ADD_CLIP_SMART p rnd))
  = Math_max (TimelineState.duration s)
      (findNextFreeSlot (TimelineState.clips s) (SmartPayload.trackId p)
         (SmartPayload.duration p) (TimelineState.currentTime s)
       + SmartPayload.duration p + 5).
Proof. destruct s, p. reflexivity. Qed.

Lemma update_clip_duration (s : TimelineState.t) (id : string)
    (ch : ClipChanges.t) (clip : Clip.t) :
  JsObj.get id (TimelineState.clips s) = Some clip ->
  TimelineState.duration (timelineReducer s (UPDATE_CLIP id ch))
  = Math_max (TimelineState.duration s)
      (Clip.timelineStart (ClipChanges.apply clip ch)
       + Clip.duration (ClipChanges.apply clip ch) + 5).
Proof. destruct s. simpl. intros ->. reflexivity. Qed.

Lemma twoClips_reachable : reachable 30 None twoClips.
Proof. repeat apply reachable_step. apply reachable_init. Qed.

(** Whenever a command leaves a state every clip of which has all its
    fields, the total duration is at least what it was, and in a state
    the store can reach at least [timelineStart + duration + 5] for every
    clip. *)
Lemma sound_steps_keep_margin d0 props (s s' : TimelineState.t)
    (a : Action) :
  reduce s a = sound s' ->
  TimelineState.duration s <= TimelineState.duration s'
  /\ (reachable d0 props s ->
      forall c, In c (clipsOf s') ->
        Clip.timelineStart c + Clip.duration c + 5
        <= TimelineState.duration s').
Proof.
  intros H. apply reduce_sound_inv in H. subst s'.
  split; [apply reducer_duration_le|].
  intros R c. now apply duration_auto_extend with (d0 := d0) (props := props).
Qed.

(** C6, at the failing input.  [twoClips] is a state the store can reach
    and none of its clips is called [toString]; [UPDATE_CLIP] of that id
    with a new [timelineStart] finds the inherited function, stores an
    object without [duration] and leaves [NaN] for the total duration:
    for no clip of the state is the total duration at least
    [timelineStart + duration + 5]. *)
Theorem update_of_inherited_id_breaks_margin :
  let a := UPDATE_CLIP "toString" (retime 7) in
  reachable 30 None twoClips
  /\ JsObj.get "toString" (TimelineState.clips twoClips) = None
  /\ reduce twoClips a = stray twoClips "toString" (retime 7) JsNumber.NaN
  /\ clipsOf twoClips <> []
  /\ forall c,
       In c (clipsOf twoClips) ->
       JsNumber.geb (durationOf (reduce twoClips a))
         (JsNumber.number (Clip.timelineStart c + Clip.duration c + 5))
       = false.
Proof.
  split; [exact twoClips_reachable|].
  repeat split; try reflexivity. discriminate.
Qed.

(* ------------------------------------------------------------------ *)
(** ** The store: unknown targets and selection *)

(** [UPDATE_CLIP] on an id under which [state.clips] finds nothing
    returns the state it was given. *)
Lemma update_clip_unknown (s : TimelineState.t) (id : string)
    (ch : ClipChanges.t) :
  JsObj.lookup id (TimelineState.clips s) = JsObj.undefined ->
  reduce s (UPDATE_CLIP id ch) = sound s.
Proof.
  unfold reduce, JsObj.lookup. destruct s. simpl.
  destruct (JsObj.get id clips) eqn:G; [discriminate|].
  destruct (JsObj.protoMember id); [discriminate|]. reflexivity.
Qed.

Lemma map_unchanged {A} (f : A -> A) (l : list A) :
  (forall a, In a l -> f a = a) -> map f l = l.
Proof.
  induction l as [|a l IH]; intros H; simpl; [reflexivity|].
  rewrite (H a (or_introl eq_refl)), IH; [reflexivity|].
  intros b Hb. apply H. now right.
Qed.

(** [UPDATE_TRACK] on an id that names no track returns a state equal to
    the one it was given. *)
Lemma update_track_unknown (s : TimelineState.t) (id : Q)
    (ch : TrackChanges.t) :
  (forall t, In t (TimelineState.tracks s) -> Qeqb (Track.id t) id = false) ->
  timelineReducer s (UPDATE_TRACK id ch) = s.
Proof.
  destruct s as [assets tracks clips d ct pl sel zm cs]. simpl. intros H.
  rewrite map_unchanged; [reflexivity|].
  intros t Ht. now rewrite (H t Ht).
Qed.

(** [REMOVE_CLIP] touches the clips and the selection only, and the
    selection is cleared whatever the id. *)
Lemma remove_clip_frame (s : TimelineState.t) (id : string) :
  let s' := timelineReducer s (REMOVE_CLIP id) in
  TimelineState.assets s' = TimelineState.assets s
  /\ TimelineState.tracks s' = TimelineState.tracks s
  /\ TimelineState.duration s' = TimelineState.duration s
  /\ TimelineState.currentTime s' = TimelineState.currentTime s
  /\ TimelineState.isPlaying s' = TimelineState.isPlaying s
  /\ TimelineState.zoom s' = TimelineState.zoom s
  /\ TimelineState.canvasSize s' = TimelineState.canvasSize s
  /\ TimelineState.selectedClipId s' = None.
Proof. destruct s. simpl. repeat split. Qed.

(** [REMOVE_CLIP] of the selected clip clears the selection. *)
Lemma remove_selected_clears (s : TimelineState.t) (id : string) :
  TimelineState.selectedClipId s = Some id ->
  TimelineState.selectedClipId (timelineReducer s (REMOVE_CLIP id)) = None.
Proof. destruct s. reflexivity. Qed.

(** C7, at the failing input.  In [twoClips] the clip [k3x9fa] is selected
    and no clip is called [ghost]; [REMOVE_CLIP "ghost"] keeps both clips
    but returns a state without selection: it is not a no-op. *)
Theorem remove_unknown_clip_clears_selection :
  JsObj.get "ghost" (TimelineState.clips twoClips) = None
  /\ TimelineState.selectedClipId twoClips = Some "k3x9fa"%string
  /\ TimelineState.selectedClipId
       (timelineReducer twoClips (REMOVE_CLIP "ghost"))
     = None
  /\ clipsOf (timelineReducer twoClips (REMOVE_CLIP "ghost"))
     = clipsOf twoClips
  /\ timelineReducer twoClips (REMOVE_CLIP "ghost") <> twoClips.
Proof.
  repeat split; try reflexivity.
  intros E. apply (f_equal TimelineState.selectedClipId) in E.
  vm_compute in E. discriminate.
Qed.

(** C8, at the failing input.  In [twoClips] the clip [k3x9fa] is selected;
    removing the other clip, [p0q7zt], leaves [k3x9fa] in the state and
    clears the selection all the same. *)
Theorem remove_other_clip_clears_selection :
  map Clip.id (clipsOf twoClips) = ["k3x9fa"; "p0q7zt"]%string
  /\ TimelineState.selectedClipId twoClips = Some "k3x9fa"%string
  /\ map Clip.id (clipsOf (timelineReducer twoClips (REMOVE_CLIP "p0q7zt")))
     = ["k3x9fa"%string]
  /\ TimelineState.selectedClipId
       (timelineReducer twoClips (REMOVE_CLIP "p0q7zt"))
     = None.
Proof. repeat split. Qed.

(* ------------------------------------------------------------------ *)
(** ** Free-slot search *)

Lemma hits_meets (s d : Q) (c : Clip.t) :
  0 < d -> 0 < Clip.duration c -> (hits s d c <-> meets s d c).
Proof.
  unfold hits, meets. intros Hd Hc. split.
  - intros [H1 H2].
    destruct (Qlt_le_dec s (Clip.timelineStart c)) as [L|L].
    + exists (Clip.timelineStart c). lra.
    + exists s. lra.
  - intros [t H]. lra.
Qed.

Lemma meets_hits (s d : Q) (c : Clip.t) : meets s d c -> hits s d c.
Proof. unfold hits, meets. intros [t H]. lra. Qed.

Lemma slotStep_cases (d p : Q) (x : Clip.t) :
  (hits p d x /\ slotStep d p x = Clip.timelineStart x + Clip.duration x)
  \/ (~ hits p d x /\ slotStep d p x = p).
Proof.
  unfold slotStep, hits.
  destruct (Qltb (Clip.timelineStart x) (p + d)) eqn:E1;
  destruct (Qltb p (Clip.timelineStart x + Clip.duration x)) eqn:E2;
    simpl; qprops; [left; split; [split|]; trivial | right ..];
    (split; [lra|reflexivity]).
Qed.

Section SlotLoop.
Variables (d p0 : Q).

(** The loop of [findNextFreeSlot] over clips in ascending start order.
    [Done] holds of the clips already visited; the proposed start [p] hits
    none of them and every earlier start from [p0] on hits one. *)
Lemma slot_loop (cs : list Clip.t) :
  ascending Clip.timelineStart cs ->
  forall (p : Q) (Done : Clip.t -> Prop),
    p0 <= p ->
    (forall c, Done c -> ~ hits p d c) ->
    (forall s', p0 <= s' -> s' < p -> exists c, Done c /\ hits s' d c) ->
    (forall c c', Done c -> In c' cs ->
       Clip.timelineStart c <= Clip.timelineStart c') ->
    let s := fold_left (slotStep d) cs p in
    p0 <= s
    /\ (forall c, Done c \/ In c cs -> ~ hits s d c)
    /\ (forall s', p0 <= s' -> s' < s ->
          exists c, (Done c \/ In c cs) /\ hits s' d c).
Proof.
  induction 1 as [|x cs Hx Hcs IH]; intros p Done Hp Hfree Hmin Hord; simpl.
  - split; [exact Hp|]. split.
    + intros c [Hc|[]]. auto.
    + intros s' H1 H2. destruct (Hmin s' H1 H2) as [c [Hc Hh]].
      exists c. auto.
  - specialize (IH (slotStep d p x) (fun c => Done c \/ c = x)).
    destruct IH as [I1 [I2 I3]].
    + destruct (slotStep_cases d p x) as [[[H1 H2] ->]|[_ ->]]; lra.
    + intros c Hc.
      destruct (slotStep_cases d p x) as [[[H1 H2] ->]|[Hn ->]].
      * destruct Hc as [Hc| ->]; unfold hits; [|lra].
        pose proof (Hfree c Hc) as F. unfold hits in F.
        pose proof (Hord c x Hc (or_introl eq_refl)). lra.
      * destruct Hc as [Hc| ->]; auto.
    + intros s' H1 H2.
      destruct (Qlt_le_dec s' p) as [L|L].
      * destruct (Hmin s' H1 L) as [c [Hc Hh]]. exists c. auto.
      * destruct (slotStep_cases d p x) as [[[H3 H4] E]|[_ E]];
          rewrite E in H2; [|lra].
        exists x. split; [now right|]. unfold hits. lra.
    + intros c c' [Hc| ->] Hc'.
      * apply Hord; [exact Hc|now right].
      * now apply Hx.
    + split; [exact I1|]. split.
      * intros c [Hc|[E|Hc]]; apply I2;
          [left; left|left; right; symmetry|right]; assumption.
      * intros s' H1 H2. destruct (I3 s' H1 H2) as [c [[[Hc|E]|Hc] Hh]];
          exists c; (split; [|exact Hh]);
          [left|right; left; symmetry|right; right]; assumption.
Qed.

End SlotLoop.

Lemma trackClips_In (clips : JsObj.t Clip.t) (trackId : Q) (c : Clip.t) :
  In c (trackClips clips trackId) <-> onTrack clips trackId c.
Proof.
  unfold trackClips, onTrack.
  rewrite Array_sort_In, filter_In.
  now rewrite Qeqb_true.
Qed.

(** The free-slot search in terms of its own test, for any length and any
    clips: the result is not before the preferred start, hits no clip of
    the track, and every earlier start from the preferred one on hits
    one. *)
Lemma findNextFreeSlot_hits (clips : JsObj.t Clip.t) (trackId d p : Q) :
  let s := findNextFreeSlot clips trackId d p in
  p <= s
  /\ (forall c, onTrack clips trackId c -> ~ hits s d c)
  /\ (forall s', p <= s' -> s' < s ->
        exists c, onTrack clips trackId c /\ hits s' d c).
Proof.
  unfold findNextFreeSlot.
  destruct (slot_loop d p (trackClips clips trackId)
              (Array_sort_ascending Clip.timelineStart _)
              p (fun _ => False)) as [H1 [H2 H3]].
  - apply Qle_refl.
  - intros c [].
  - intros s' A B. lra.
  - intros c c' [].
  - split; [exact H1|]. split.
    + intros c Hc. apply H2. right. now apply trackClips_In.
    + intros s' A B. destruct (H3 s' A B) as [c [[[]|Hc] Hh]].
      exists c. split; [now apply trackClips_In|exact Hh].
Qed.

(** C1. For a clip length [d > 0] and clips of positive duration on the
    track (non-overlapping or not), the start [s] that [findNextFreeSlot]
    returns is at or after the preferred start, the window [[s, s + d)]
    shares no instant with the window of any clip of the track, and no
    earlier start at or after the preferred one has that property. *)
Theorem findNextFreeSlot_earliest_free (clips : JsObj.t Clip.t)
    (trackId d preferredStart : Q) :
  0 < d ->
  (forall c, onTrack clips trackId c -> 0 < Clip.duration c) ->
  let s := findNextFreeSlot clips trackId d preferredStart in
  preferredStart <= s
  /\ freeAt clips trackId d s
  /\ (forall s', preferredStart <= s' -> freeAt clips trackId d s' ->
        s <= s').
Proof.
  intros Hd Hpos s.
  destruct (findNextFreeSlot_hits clips trackId d preferredStart)
    as [H1 [H2 H3]]. fold s in H1, H2, H3.
  split; [exact H1|]. split.
  - intros c Hc M. apply (H2 c Hc). now apply meets_hits.
  - intros s' A F. apply Qnot_lt_le. intros B.
    destruct (H3 s' A B) as [c [Hc Hh]].
    apply (F c Hc). apply hits_meets; auto.
Qed.

(** The search on track 0 of [twoClips], for a five-second clip and the
    preferred start 3s: past both clips, at 22s. *)
Lemma findNextFreeSlot_earliest_free_witness :
  0 < 5
  /\ findNextFreeSlot (TimelineState.clips twoClips) 0 5 3 = 22
  /\ 3 <= findNextFreeSlot (TimelineState.clips twoClips) 0 5 3
  /\ freeAt (TimelineState.clips twoClips) 0 5
       (findNextFreeSlot (TimelineState.clips twoClips) 0 5 3)
  /\ (forall s', 3 <= s' -> freeAt (TimelineState.clips twoClips) 0 5 s' ->
        findNextFreeSlot (TimelineState.clips twoClips) 0 5 3 <= s').
Proof.
  assert (Hd : 0 < 5) by reflexivity.
  assert (Hpos : forall c, onTrack (TimelineState.clips twoClips) 0 c ->
                   0 < Clip.duration c).
  { intros c [H _]. vm_compute in H.
    destruct H as [<-|[<-|[]]]; reflexivity. }
  split; [exact Hd|]. split; [reflexivity|].
  exact (findNextFreeSlot_earliest_free
           (TimelineState.clips twoClips) 0 5 3 Hd Hpos).
Defined.

(** Scenario 2 of the specification: with one clip over [[0, 5)] on the
    track and the playhead at 3s, a five-second clip is placed at 5s. *)
Lemma scenario_push_past_first_clip (c : Clip.t) (k : string) :
  Clip.trackId c == 1 -> Clip.timelineStart c = 0 -> Clip.duration c = 5 ->
  findNextFreeSlot [(k, c)] 1 5 3 = 5.
Proof.
  intros T S D. unfold findNextFreeSlot, trackClips, JsObj.values,
    JsObj.entries. simpl.
  destruct (JsObj.isIndexKey k); simpl;
    (apply Qeqb_true in T; rewrite T; simpl;
     unfold slotStep; rewrite S, D; reflexivity).
Qed.

(* ------------------------------------------------------------------ *)
(** ** Fold order of the compiler *)

(** The sort by [zIndex] keeps the clips of one [zIndex] in the order
    [Object.values] lists them. *)
Lemma activeClips_stable (s : TimelineState.t) (z : Q) :
  filter (fun c => Qeqb (Clip.zIndex c) z) (activeClips s)
  = filter (fun c => Qeqb (Clip.zIndex c) z) (clipsOf s).
Proof. apply (Array_sort_stable Clip.zIndex). Qed.

(** When no clip id is an array index, [Object.values] lists the clips in
    the order their ids entered the object, ... *)
Lemma clipsOf_creation_order (s : TimelineState.t) :
  noIndexKeys (TimelineState.clips s) ->
  clipsOf s = map snd (TimelineState.clips s).
Proof.
  intros H. unfold clipsOf, JsObj.values. now rewrite entries_noIndexKeys.
Qed.

Lemma set_fresh {V} (k : string) (v : V) (o : JsObj.t V) :
  JsObj.get k o = None -> JsObj.set k v o = o ++ [(k, v)].
Proof.
  induction o as [|[k' v'] o IH]; simpl; [reflexivity|].
  destruct (String.eqb k' k); [discriminate|].
  intros H. now rewrite IH.
Qed.

(** ... a clip added under a new id that is not an array index comes last,
    so that the compiler folds clips of equal [zIndex] in insertion
    order. *)
Lemma add_clip_appends (s : TimelineState.t) (p : Clip.t) :
  noIndexKeys (TimelineState.clips s) ->
  JsObj.isIndexKey (Clip.id p) = false ->
  JsObj.get (Clip.id p) (TimelineState.clips s) = None ->
  TimelineState.clips (timelineReducer s (ADD_CLIP p))
  = TimelineState.clips s ++ [(Clip.id p, p)].
Proof.
  destruct s as [assets tracks clips d ct pl sel zm cs]. simpl.
  intros N _ G. unfold JsObj.spreadSet, JsObj.spread.
  rewrite entries_noIndexKeys by exact N. now apply set_fresh.
Qed.

(** C9, at the failing input.  The text layer [81402] is added first, the
    text layer [3906] second; both have [zIndex] 3.  Both ids are array
    indices, so [Object.values] lists [3906] first, and the compiler folds
    the clip inserted second before the clip inserted first. *)
Theorem fold_order_of_numeric_ids :
  map Clip.id (clipsOf firstText) = ["81402"%string]
  /\ map Clip.zIndex (activeClips twoTexts) = [3; 3]
  /\ map Clip.id (activeClips twoTexts) = ["3906"; "81402"]%string.
Proof. repeat split. Qed.

(* ------------------------------------------------------------------ *)
(** ** Move resolution *)

(** Scenario 5 of the specification, for a track with one other clip: a
    clip that started at or after its neighbour and whose proposed window
    overlaps it is placed at the neighbour's end. *)
Lemma move_clamps_to_neighbor_end (state : TimelineState.t)
    (clip neighbor : Clip.t) (init : InitialValues.t)
    (deltaSec newTrackId : Q) :
  otherClipsSorted state clip newTrackId = [neighbor] ->
  Clip.timelineStart neighbor <= InitialValues.start init ->
  let proposedStart := Math_max 0 (InitialValues.start init + deltaSec) in
  proposedStart < Clip.timelineStart neighbor + Clip.duration neighbor ->
  Clip.timelineStart neighbor
  < proposedStart + InitialValues.duration init ->
  ClipChanges.timelineStart
    (moveChanges state clip init deltaSec newTrackId)
  = Some (Clip.timelineStart neighbor + Clip.duration neighbor).
Proof.
  intros E Hs ps H1 H2. unfold moveChanges. simpl. rewrite E. simpl.
  unfold moveStep. fold ps.
  apply Qltb_true in H1, H2. rewrite H1, H2. simpl.
  apply Qltb_false in Hs. rewrite Hs.
  unfold Math_max at 1. now rewrite H1.
Qed.

Ltac pick_clip H :=
  vm_compute in H;
  repeat match type of H with
  | _ \/ _ => destruct H as [H|H]
  | False => destruct H
  end; try subst.

Lemma threeClips_noOverlap : noOverlap threeClips.
Proof.
  intros a b Ha Hb Hid _ [H1 H2].
  pick_clip Ha; pick_clip Hb;
    try (now elim Hid);
    try (vm_compute in H1; discriminate);
    try (vm_compute in H2; discriminate).
Qed.

Lemma threeClips_reachable : reachable 30 None threeClips.
Proof. repeat apply reachable_step. apply reachable_init. Qed.

(** C2, at the failing input.  The store reaches [threeClips], whose clips
    do not overlap.
    Dragging the third one to the front of the track proposes [[0, 10)],
    which overlaps the first clip only; the start is clamped to the end of
    the first clip, 10s, and the clip comes to lie over [[10, 20)], the
    window of the second clip. *)
Theorem move_lands_on_second_neighbor (TRACK_HEIGHT RULER_HEIGHT : Q) :
  reachable 30 None threeClips
  /\ noOverlap threeClips
  /\ dragThirdToFront TRACK_HEIGHT RULER_HEIGHT
     = Some (UPDATE_CLIP "m5w2rc"
               (moveChanges threeClips (clipAt "m5w2rc" 30)
                  (InitialValues.mk 30 10 0 0) (-30) 0))
  /\ clipsOf (dispatch threeClips
                (dragThirdToFront TRACK_HEIGHT RULER_HEIGHT))
     = [clipAt "k3x9fa" 0; clipAt "p0q7zt" 10; clipAt "m5w2rc" 10]
  /\ ~ noOverlap (dispatch threeClips
                    (dragThirdToFront TRACK_HEIGHT RULER_HEIGHT)).
Proof.
  split; [exact threeClips_reachable|].
  split; [exact threeClips_noOverlap|].
  split; [reflexivity|].
  assert (E : clipsOf (dispatch threeClips
                         (dragThirdToFront TRACK_HEIGHT RULER_HEIGHT))
              = [clipAt "k3x9fa" 0; clipAt "p0q7zt" 10; clipAt "m5w2rc" 10])
    by reflexivity.
  split; [exact E|].
  intros N.
  apply (N (clipAt "p0q7zt" 10) (clipAt "m5w2rc" 10)).
  - rewrite E. simpl. auto.
  - rewrite E. simpl. auto.
  - discriminate.
  - reflexivity.
  - split; reflexivity.
Qed.

(* ------------------------------------------------------------------ *)
(** ** Trim resolution *)

(** The ceiling of [TRIM_END]: the asset's duration for every clip whose
    [assetId] is a key of [state.assets], whatever the clip's type, ... *)
Lemma maxDurationOf_asset (state : TimelineState.t) (clip : Clip.t)
    (duration : Q) (assetId : string) (asset : MediaAsset.t) :
  Clip.assetId clip = Some assetId ->
  assetId <> EmptyString ->
  JsObj.get assetId (TimelineState.assets state) = Some asset ->
  maxDurationOf state clip duration = Some (MediaAsset.duration asset).
Proof.
  unfold maxDurationOf, truthy, JsObj.lookup. intros -> N ->.
  destruct (String.eqb assetId EmptyString) eqn:E; [|reflexivity].
  apply String.eqb_eq in E. contradiction.
Qed.

(** ... the duration the drag started from when [state.assets] has no
    member of that name, not even an inherited one, ... *)
Lemma maxDurationOf_missing_asset (state : TimelineState.t) (clip : Clip.t)
    (duration : Q) (assetId : string) :
  Clip.assetId clip = Some assetId ->
  assetId <> EmptyString ->
  JsObj.lookup assetId (TimelineState.assets state) = JsObj.undefined ->
  maxDurationOf state clip duration = Some duration.
Proof.
  unfold maxDurationOf, truthy. intros -> N ->.
  destruct (String.eqb assetId EmptyString) eqn:E; [|reflexivity].
  apply String.eqb_eq in E. contradiction.
Qed.

(** ... 3600s for a clip without [assetId], ... *)
Lemma maxDurationOf_no_asset (state : TimelineState.t) (clip : Clip.t)
    (duration : Q) :
  Clip.assetId clip = None \/ Clip.assetId clip = Some EmptyString ->
  maxDurationOf state clip duration = Some 3600.
Proof. unfold maxDurationOf. intros [->| ->]; reflexivity. Qed.

(** ... and none at all when the [assetId] is the name of a member of
    [Object.prototype] that is no key of [state.assets]: the lookup
    finds the member, and its [duration] is [undefined]. *)
Lemma maxDurationOf_inherited (state : TimelineState.t) (clip : Clip.t)
    (duration : Q) (assetId : string) (m : JsObj.ProtoMember) :
  Clip.assetId clip = Some assetId ->
  JsObj.lookup assetId (TimelineState.assets state) = JsObj.inherited m ->
  maxDurationOf state clip duration = None.
Proof.
  unfold maxDurationOf, truthy. intros -> L.
  destruct (String.eqb assetId EmptyString) eqn:E.
  - apply String.eqb_eq in E. subst. unfold JsObj.lookup in L.
    destruct (JsObj.get _ _); discriminate L.
  - simpl. now rewrite L.
Qed.

(** The clip [TRIM_END] takes for the following one is another clip of the
    track that starts at or after the end the drag started from, and the
    earliest of those. *)
Lemma nextClipOf_spec (state : TimelineState.t) (clip next : Clip.t)
    (start duration : Q) :
  nextClipOf state clip start duration = Some next ->
  In next (otherClips state clip)
  /\ start + duration <= Clip.timelineStart next
  /\ (forall c, In c (otherClips state clip) ->
        start + duration <= Clip.timelineStart c ->
        Clip.timelineStart next <= Clip.timelineStart c).
Proof.
  unfold nextClipOf. intros H.
  pose proof (hd_sort_filter _ _ _ _ H) as [I P]. qprops.
  split; [exact I|]. split; [exact P|].
  intros c Ic Pc.
  pose proof (Array_sort_ascending Clip.timelineStart
    (filter (fun c0 => Qleb (start + duration) (Clip.timelineStart c0))
       (otherClips state clip))) as Asc.
  destruct (Array_sort _ _) as [|x l] eqn:E; [discriminate|].
  injection H as ->. inversion Asc as [|? ? Hx _]; subst.
  assert (Ic' : In c (next :: l)).
  { rewrite <- E. apply Array_sort_In. apply filter_In.
    split; [exact Ic|]. now apply Qleb_true. }
  destruct Ic' as [<-|Ic']; [apply Qle_refl|now apply Hx].
Qed.

(** C4, as amended.  After [TRIM_END] the duration is at most the larger
    of 0.1 and the length the pointer asks for, [duration + deltaSec];
    and whenever that length overshoots the ceiling
    ([inPoint + duration + deltaSec > maxDuration], the test of the
    source) it is at most the larger of 0.1 and [maxDuration - inPoint].
    The ceiling [maxDuration] is the asset's duration for every clip
    whose [assetId] is a key of [state.assets], image clips included; the
    duration the drag started from when [state.assets] has no member of
    that name; and 3600 for a clip without [assetId]. *)
Theorem trim_end_ceiling (state : TimelineState.t) (clip : Clip.t)
    (init : InitialValues.t) (deltaSec : Q) :
  let asked := InitialValues.duration init + deltaSec in
  let r := durationAfter init (trimEndChanges state clip init deltaSec) in
  r <= Math_max 0.1 asked
  /\ (forall maxDuration,
        maxDurationOf state clip (InitialValues.duration init)
        = Some maxDuration ->
        maxDuration < InitialValues.inPoint init + asked ->
        r <= Math_max 0.1 (maxDuration - InitialValues.inPoint init))
  /\ (forall assetId asset,
        Clip.assetId clip = Some assetId ->
        assetId <> EmptyString ->
        JsObj.get assetId (TimelineState.assets state) = Some asset ->
        maxDurationOf state clip (InitialValues.duration init)
        = Some (MediaAsset.duration asset))
  /\ (forall assetId,
        Clip.assetId clip = Some assetId ->
        assetId <> EmptyString ->
        JsObj.lookup assetId (TimelineState.assets state)
        = JsObj.undefined ->
        maxDurationOf state clip (InitialValues.duration init)
        = Some (InitialValues.duration init))
  /\ (Clip.assetId clip = None \/ Clip.assetId clip = Some EmptyString ->
      maxDurationOf state clip (InitialValues.duration init) = Some 3600).
Proof.
  split; [|split; [|split; [|split]]].
  - unfold durationAfter, trimEndChanges, Math_max. simpl.
    destruct (maxDurationOf _ _ _) as [m|];
      destruct (nextClipOf _ _ _ _) as [next|];
      repeat qcase; qprops; lra.
  - intros m M Over.
    unfold durationAfter, trimEndChanges, Math_max. simpl. rewrite M.
    apply Qltb_true in Over. rewrite Over. clear Over.
    destruct (nextClipOf _ _ _ _) as [next|];
      repeat qcase; qprops; lra.
  - intros a asset. apply maxDurationOf_asset.
  - intros a. apply maxDurationOf_missing_asset.
  - apply maxDurationOf_no_asset.
Qed.

(** The ten-second clip of a ten-second asset, its right edge dragged by
    +20s: the asked length of 30s overshoots, and 10s is the ceiling. *)
Lemma trim_end_ceiling_witness :
  maxDurationOf twoClips (clipAt "p0q7zt" 12) 10 = Some 10
  /\ 10 < 0 + (10 + 20)
  /\ durationAfter (InitialValues.ofClip (clipAt "p0q7zt" 12))
       (trimEndChanges twoClips (clipAt "p0q7zt" 12)
          (InitialValues.ofClip (clipAt "p0q7zt" 12)) 20)
     <= Math_max 0.1 (10 - 0).
Proof.
  assert (M : maxDurationOf twoClips (clipAt "p0q7zt" 12) 10 = Some 10)
    by reflexivity.
  assert (O : 10 < 0 + (10 + 20)) by reflexivity.
  split; [exact M|]. split; [exact O|].
  exact (proj1 (proj2
           (trim_end_ceiling twoClips (clipAt "p0q7zt" 12)
              (InitialValues.ofClip (clipAt "p0q7zt" 12)) 20))
           10 M O).
Defined.

(** Scenario 3 of the specification: a ten-second clip of a ten-second
    asset, nothing after it, its right edge dragged by +20s: the duration
    stays 10. *)
Lemma scenario_trim_end_asset_ceiling :
  nextClipOf twoClips (clipAt "p0q7zt" 12) 12 10 = None
  /\ durationAfter (InitialValues.ofClip (clipAt "p0q7zt" 12))
       (trimEndChanges twoClips (clipAt "p0q7zt" 12)
          (InitialValues.ofClip (clipAt "p0q7zt" 12)) 20)
     = 10.
Proof. split; reflexivity. Qed.

(** C4 as stated fails twice.  The clip of the fifty-millisecond asset
    comes out of [TRIM_END] 0.1s long, more than what is left of its
    asset; and the image clip, with nothing after it and its right edge
    dragged by +20s, stays at the five seconds of its asset. *)
Lemma trim_end_ceiling_counterexample :
  (JsObj.get "a2" (TimelineState.assets blipStore) = Some blipAsset
   /\ clipsOf blipStore = [blipClip]
   /\ MediaAsset.duration blipAsset - Clip.inPoint blipClip
      < durationAfter (InitialValues.ofClip blipClip)
          (trimEndChanges blipStore blipClip
             (InitialValues.ofClip blipClip) 0))
  /\ (clipsOf stillStore = [stillClip]
      /\ Clip.type stillClip = IMAGE
      /\ nextClipOf stillStore stillClip 0 5 = None
      /\ durationAfter (InitialValues.ofClip stillClip)
           (trimEndChanges stillStore stillClip
              (InitialValues.ofClip stillClip) 20)
         = 5).
Proof. repeat split. Qed.



(** Whatever the pointer delta, [TRIM_START] on the clip of the
    fifty-millisecond asset proposes a negative [inPoint]. *)
Lemma trim_start_blip_any_delta (deltaSec : Q) :
  inPointAfter (InitialValues.ofClip blipClip)
    (trimStartChanges blipStore blipClip (InitialValues.ofClip blipClip)
       deltaSec)
  < 0.
Proof.
  assert (P : prevClipOf blipStore blipClip 1 = None) by reflexivity.
  unfold inPointAfter, trimStartChanges.
  change (InitialValues.start (InitialValues.ofClip blipClip)) with 1.
  change (InitialValues.inPoint (InitialValues.ofClip blipClip)) with 0.
  change (InitialValues.duration (InitialValues.ofClip blipClip)) with 0.05.
  rewrite P.
  repeat (qcase; cbn [ClipChanges.over ClipChanges.inPoint]);
    qprops; lra.
Qed.

(** C5, at the failing input.  The clip of the fifty-millisecond asset
    lies at 1s with [inPoint] 0 and [duration] 0.05.  A [TRIM_START] drag
    (here one that does not move the pointer, and so for any other delta)
    raises the duration to the floor, 0.1, and takes the difference from
    [inPoint], which becomes negative; the store then holds a clip with a
    negative [inPoint]. *)
Theorem trim_start_of_short_clip (TRACK_HEIGHT RULER_HEIGHT : Q) :
  clipsOf blipStore = [blipClip]
  /\ 0 <= Clip.timelineStart blipClip
  /\ 0 <= Clip.inPoint blipClip
  /\ 0 < Clip.duration blipClip
  /\ dragEdit TRACK_HEIGHT RULER_HEIGHT blipStore blipClip TRIM_START None
       0 (MouseEvent.mk 0 0)
     = Some (UPDATE_CLIP "b8h2kq"
               (trimStartChanges blipStore blipClip
                  (InitialValues.ofClip blipClip) 0))
  /\ inPointAfter (InitialValues.ofClip blipClip)
       (trimStartChanges blipStore blipClip
          (InitialValues.ofClip blipClip) 0)
     == - 0.05
  /\ Forall (fun c => Clip.inPoint c < 0)
       (clipsOf (dispatch blipStore
                   (dragEdit TRACK_HEIGHT RULER_HEIGHT blipStore blipClip
                      TRIM_START None 0 (MouseEvent.mk 0 0))))
  /\ (forall deltaSec,
        inPointAfter (InitialValues.ofClip blipClip)
          (trimStartChanges blipStore blipClip
             (InitialValues.ofClip blipClip) deltaSec)
        < 0).
Proof.
  repeat split; try discriminate; try exact trim_start_blip_any_delta.
  repeat constructor.
Qed.

(* ------------------------------------------------------------------ *)
(** ** Determinism of the compiler *)

(** The asset loop: which fetches succeed and what they return has no
    part in the input arguments and the input map it leaves. *)
Lemma loadAssets_inputs (state : TimelineState.t) (w1 w2 : World.t)
    (ids : list string) :
  forall acc1 acc2 i1 i2,
    Inputs.inputArgs acc1 = Inputs.inputArgs acc2 ->
    Inputs.assetInputMap acc1 = Inputs.assetInputMap acc2 ->
    Inputs.inputIndex acc1 = Inputs.inputIndex acc2 ->
    loadAssets w1 state ids acc1 = inr i1 ->
    loadAssets w2 state ids acc2 = inr i2 ->
    Inputs.inputArgs i1 = Inputs.inputArgs i2
    /\ Inputs.assetInputMap i1 = Inputs.assetInputMap i2.
Proof.
  induction ids as [|assetId ids IH]; intros acc1 acc2 i1 i2 Ha Hm Hi; simpl.
  - intros [= <-] [= <-]. now split.
  - destruct (findAsset state assetId) as [asset|]; [|now apply IH].
    destruct (Found.name asset) as [name|]; [|discriminate].
    destruct (fetch w1 (Found.url asset)); [|discriminate].
    destruct (fetch w2 (Found.url asset)); [|discriminate].
    apply IH; simpl; congruence.
Qed.

(** The argument list handed to the encoder, when a call gets that far,
    is the one the asset loop and the graph construction make of the
    state. *)
Lemma exportVideo_execArgs numToString (svc : Service.t) (w : World.t)
    (state : TimelineState.t) (args : list string) :
  Run.execArgs (exportVideo numToString svc w state) = Some args ->
  exists inputs,
    loadAssets w state (uniqueAssets state) (Inputs.mk [] [] 0 [])
    = inr inputs
    /\ args = buildExecArgs numToString state (Inputs.inputArgs inputs)
                (Inputs.assetInputMap inputs).
Proof.
  unfold exportVideo.
  destruct (negb (Service.loaded svc)); [discriminate|].
  destruct (loadAssets w state (uniqueAssets state) _)
    as [[failure acc]|inputs]; [discriminate|].
  intros H. exists inputs. split; [reflexivity|].
  destruct (World.exec w _) as [[data|]|]; simpl in H; congruence.
Qed.

(** The asset loop runs to its end when every asset id it meets is a key
    of [state.assets] whose fetch succeeds, or one under which
    [state.assets] finds nothing. *)
Lemma loadAssets_succeeds_on (state : TimelineState.t) (w : World.t)
    (ids : list string) :
  (forall a asset, In a ids ->
     JsObj.get a (TimelineState.assets state) = Some asset ->
     World.fetchFile w (MediaAsset.url asset) <> None) ->
  (forall a, In a ids ->
     JsObj.get a (TimelineState.assets state) = None ->
     JsObj.protoMember a = None) ->
  forall acc, exists inputs, loadAssets w state ids acc = inr inputs.
Proof.
  induction ids as [|assetId ids IH]; intros F P acc; simpl.
  - now exists acc.
  - assert (F' : forall a asset, In a ids ->
              JsObj.get a (TimelineState.assets state) = Some asset ->
              World.fetchFile w (MediaAsset.url asset) <> None)
      by (intros a asset Ha; apply F; now right).
    assert (P' : forall a, In a ids ->
              JsObj.get a (TimelineState.assets state) = None ->
              JsObj.protoMember a = None)
      by (intros a Ha; apply P; now right).
    unfold findAsset, JsObj.lookup.
    destruct (JsObj.get assetId (TimelineState.assets state))
      as [asset|] eqn:G.
    + simpl.
      destruct (World.fetchFile w (MediaAsset.url asset)) eqn:E;
        [now apply IH|].
      exfalso. apply (F assetId asset); auto. now left.
    + rewrite (P assetId (or_introl eq_refl) G). now apply IH.
Qed.

(** A loaded service whose fetches all succeed gets as far as the
    encoder, in a state whose clips name no member of
    [Object.prototype] for their asset. *)
Lemma exportVideo_reaches_encoder numToString (svc : Service.t)
    (w : World.t) (state : TimelineState.t) :
  Service.loaded svc = true ->
  (forall url, World.fetchFile w url <> None) ->
  plainAssetIds state ->
  exists args, Run.execArgs (exportVideo numToString svc w state) = Some args.
Proof.
  intros L F P. unfold exportVideo. rewrite L. simpl.
  destruct (loadAssets_succeeds_on state w (uniqueAssets state)
              (fun a asset _ _ => F _) P (Inputs.mk [] [] 0 []))
    as [inputs ->].
  destruct (World.exec w _) as [[data|]|]; eexists; reflexivity.
Qed.

(** C3. Two calls of [exportVideo] on the same state that get as far as
    the encoder hand it the same argument list (input list, filter graph,
    map arguments), string for string, whatever the service and the world
    of each call: whether the font was loaded, what the fetches returned,
    what the encoder does. *)
Theorem compiler_deterministic numToString (state : TimelineState.t)
    (svc1 svc2 : Service.t) (w1 w2 : World.t) (args1 args2 : list string) :
  Run.execArgs (exportVideo numToString svc1 w1 state) = Some args1 ->
  Run.execArgs (exportVideo numToString svc2 w2 state) = Some args2 ->
  args1 = args2.
Proof.
  intros H1 H2.
  apply exportVideo_execArgs in H1. destruct H1 as [i1 [L1 ->]].
  apply exportVideo_execArgs in H2. destruct H2 as [i2 [L2 ->]].
  destruct (loadAssets_inputs state w1 w2 _ _ _ _ _
              eq_refl eq_refl eq_refl L1 L2) as [-> ->].
  reflexivity.
Qed.

(** Two exports of [mixedStore]: one with the font still to load, in a
    world where everything succeeds; one with the font loaded, in a world
    where the encoder throws.  Both hand the encoder [mixedArgs]. *)
Lemma compiler_deterministic_witness :
  Run.execArgs
    (exportVideo showQ (Service.mk true false) fairWorld mixedStore)
  = Some mixedArgs
  /\ Run.execArgs
       (exportVideo showQ (Service.mk true true) roughWorld mixedStore)
     = Some mixedArgs
  /\ mixedArgs = mixedArgs.
Proof.
  assert (H1 : Run.execArgs
                 (exportVideo showQ (Service.mk true false) fairWorld
                    mixedStore)
               = Some mixedArgs) by (vm_compute; reflexivity).
  assert (H2 : Run.execArgs
                 (exportVideo showQ (Service.mk true true) roughWorld
                    mixedStore)
               = Some mixedArgs) by (vm_compute; reflexivity).
  split; [exact H1|]. split; [exact H2|].
  exact (compiler_deterministic showQ mixedStore _ _ _ _ _ _ H1 H2).
Defined.

(** Scenario 1 of the specification: the empty timeline compiles to the
    base canvas alone, mapped as the video output, without audio mix. *)
Lemma scenario_empty_timeline numToString (d : Q) :
  buildExecArgs numToString (createInitialState d None) [] []
  = [ "-filter_complex";
      cat [ "color=c=black:s="; numToString 1920; "x"; numToString 1080;
            ":d="; numToString d; "[base]" ];
      "-map"; "[base]";
      "-c:v"; "libx264"; "-preset"; "ultrafast"; "-crf"; "25"; "-shortest";
      "output.mp4" ]%string.
Proof. reflexivity. Qed.

(* ================================================================== *)
(** * Further properties of the store *)

(* ------------------------------------------------------------------ *)
(** ** Lookup after a write *)

Section JsObjLookup.
Context {V : Type}.
Implicit Types (o : JsObj.t V) (k : string) (v : V).

Lemma get_set_same k v o : JsObj.get k (JsObj.set k v o) = Some v.
Proof.
  induction o as [|[k' v'] o IH]; simpl.
  - now rewrite String.eqb_refl.
  - destruct (String.eqb k' k) eqn:E; simpl.
    + now rewrite String.eqb_refl.
    + now rewrite E.
Qed.

Lemma get_set_other k k' v o :
  k' <> k -> JsObj.get k' (JsObj.set k v o) = JsObj.get k' o.
Proof.
  intros N. induction o as [|[k0 v0] o IH]; simpl.
  - destruct (String.eqb k k') eqn:E; [|reflexivity].
    apply String.eqb_eq in E. congruence.
  - destruct (String.eqb k0 k) eqn:E; simpl.
    + apply String.eqb_eq in E. subst k0.
      destruct (String.eqb k k') eqn:E'; [|reflexivity].
      apply String.eqb_eq in E'. congruence.
    + now rewrite IH.
Qed.

Lemma get_delete_same k o : JsObj.get k (JsObj.delete k o) = None.
Proof.
  unfold JsObj.delete. induction o as [|[k' v'] o IH]; simpl; [reflexivity|].
  destruct (String.eqb k' k) eqn:E; simpl; [exact IH|].
  now rewrite E.
Qed.

Lemma get_delete_other k k' o :
  k' <> k -> JsObj.get k' (JsObj.delete k o) = JsObj.get k' o.
Proof.
  intros N. unfold JsObj.delete.
  induction o as [|[k0 v0] o IH]; simpl; [reflexivity|].
  destruct (String.eqb k0 k) eqn:E; simpl.
  - apply String.eqb_eq in E. subst k0.
    destruct (String.eqb k k') eqn:E'; [|exact IH].
    apply String.eqb_eq in E'. congruence.
  - now rewrite IH.
Qed.

Lemma get_In_unique k v o :
  uniqueKeys o -> In (k, v) o -> JsObj.get k o = Some v.
Proof.
  unfold uniqueKeys.
  induction o as [|[k' v'] o IH]; simpl; intros U H; [destruct H|].
  inversion U as [|? ? Hk Ho]; subst.
  destruct H as [[= -> ->]|H].
  - now rewrite String.eqb_refl.
  - destruct (String.eqb k' k) eqn:E; [|auto].
    apply String.eqb_eq in E. subst k'. exfalso. apply Hk.
    change k with (fst (k, v)). now apply in_map.
Qed.

Lemma uniqueKeys_entries o : uniqueKeys o -> uniqueKeys (JsObj.entries o).
Proof.
  unfold uniqueKeys. intros U.
  eapply Permutation_NoDup; [|exact U].
  apply Permutation_map. symmetry. apply entries_perm.
Qed.

Lemma get_entries k o :
  uniqueKeys o -> JsObj.get k (JsObj.entries o) = JsObj.get k o.
Proof.
  intros U.
  destruct (JsObj.get k o) as [v|] eqn:G.
  - apply get_In_unique; [now apply uniqueKeys_entries|].
    apply entries_In. now apply get_In.
  - destruct (JsObj.get k (JsObj.entries o)) as [v|] eqn:G'; [|reflexivity].
    apply get_In in G'. apply (proj1 (entries_In _ _)) in G'.
    apply (get_In_unique _ _ _ U) in G'. congruence.
Qed.

Lemma set_keys_In k v o (k' : string) :
  In k' (map fst (JsObj.set k v o)) -> k' = k \/ In k' (map fst o).
Proof.
  rewrite !in_map_iff. intros [[k0 v0] [E H]]. simpl in E. subst k0.
  apply set_In in H. destruct H as [[= -> ->]|H]; [now left|].
  right. exists (k', v0). now split.
Qed.

Lemma uniqueKeys_set k v o : uniqueKeys o -> uniqueKeys (JsObj.set k v o).
Proof.
  unfold uniqueKeys.
  induction o as [|[k' v'] o IH]; simpl; intros U.
  - repeat constructor. intros [].
  - inversion U as [|? ? Hk Ho]; subst.
    destruct (String.eqb k' k) eqn:E; simpl.
    + apply String.eqb_eq in E. subst k'. now constructor.
    + constructor; [|now apply IH].
      intros H. apply set_keys_In in H. destruct H as [->|H]; [|auto].
      now rewrite String.eqb_refl in E.
Qed.

Lemma uniqueKeys_delete k o : uniqueKeys o -> uniqueKeys (JsObj.delete k o).
Proof.
  unfold uniqueKeys, JsObj.delete.
  induction o as [|[k' v'] o IH]; simpl; intros U; [constructor|].
  inversion U as [|? ? Hk Ho]; subst.
  destruct (String.eqb k' k); simpl; [now apply IH|].
  constructor; [|now apply IH].
  rewrite in_map_iff. intros [[k0 v0] [E H]]. simpl in E. subst k0.
  apply filter_In in H. destruct H as [H _]. apply Hk.
  change k' with (fst (k', v0)). now apply in_map.
Qed.

Lemma uniqueKeys_spreadSet k v o :
  uniqueKeys o -> uniqueKeys (JsObj.spreadSet o k v).
Proof.
  intros U. apply uniqueKeys_set. now apply uniqueKeys_entries.
Qed.

Lemma get_spreadSet_same k v o :
  JsObj.get k (JsObj.spreadSet o k v) = Some v.
Proof. apply get_set_same. Qed.

Lemma get_spreadSet_other k k' v o :
  uniqueKeys o -> k' <> k ->
  JsObj.get k' (JsObj.spreadSet o k v) = JsObj.get k' o.
Proof.
  intros U N. unfold JsObj.spreadSet, JsObj.spread.
  rewrite get_set_other by exact N. now apply get_entries.
Qed.

End JsObjLookup.

(** In every state the store can reach, no clip id and no asset id is the
    key of two properties. *)
Lemma reachable_uniqueKeys d0 props (s : TimelineState.t) :
  reachable d0 props s ->
  uniqueKeys (TimelineState.clips s) /\ uniqueKeys (TimelineState.assets s).
Proof.
  induction 1 as [|s a _ [IHc IHa]].
  - split; constructor.
  - destruct s as [assets tracks clips d ct pl sel zm cs]. simpl in *.
    destruct a as [p|p|[aid tid dur ty nm td] rnd|id ch|id|t| |sel'|z|id ch|c];
      simpl; try (split; assumption).
    + split; [assumption|now apply uniqueKeys_spreadSet].
    + split; [now apply uniqueKeys_spreadSet|assumption].
    + split; [now apply uniqueKeys_spreadSet|assumption].
    + destruct (JsObj.get id clips); simpl; split; try assumption.
      now apply uniqueKeys_spreadSet.
    + split; [|assumption].
      apply uniqueKeys_delete. now apply uniqueKeys_entries.
Qed.

(** X1. What a command writes is what [state.clips[id]] reads next:
    after [ADD_CLIP] the clip itself, which is also the selected one;
    after [REMOVE_CLIP] no property of [state.clips]; after an
    [UPDATE_CLIP] of an id that is a key of [state.clips], the old clip
    with the changes applied; and an [UPDATE_CLIP] of an id under which
    [state.clips] finds nothing returns the state it was given. *)
Theorem lookup_after_write :
  (forall s p,
     JsObj.lookup (Clip.id p)
       (TimelineState.clips (timelineReducer s (ADD_CLIP p)))
     = JsObj.own p
     /\ TimelineState.selectedClipId (timelineReducer s (ADD_CLIP p))
        = Some (Clip.id p))
  /\ (forall s id v,
        JsObj.lookup id
          (TimelineState.clips (timelineReducer s (REMOVE_CLIP id)))
        <> JsObj.own v)
  /\ (forall s id ch clip,
        JsObj.get id (TimelineState.clips s) = Some clip ->
        exists s',
          reduce s (UPDATE_CLIP id ch) = sound s'
          /\ JsObj.lookup id (TimelineState.clips s')
             = JsObj.own (ClipChanges.apply clip ch))
  /\ (forall s id ch,
        JsObj.lookup id (TimelineState.clips s) = JsObj.undefined ->
        reduce s (UPDATE_CLIP id ch) = sound s).
Proof.
  split; [|split; [|split]].
  - intros [assets tracks clips d ct pl sel zm cs] p. simpl.
    unfold JsObj.lookup. rewrite get_spreadSet_same.
    split; reflexivity.
  - intros [assets tracks clips d ct pl sel zm cs] id v. simpl.
    unfold JsObj.lookup. rewrite get_delete_same.
    destruct (JsObj.protoMember id); discriminate.
  - intros [assets tracks clips d ct pl sel zm cs] id ch clip G.
    unfold reduce, JsObj.lookup. simpl in *. rewrite G.
    eexists. split; [reflexivity|]. simpl.
    now rewrite get_spreadSet_same.
  - intros s id ch. apply update_clip_unknown.
Qed.

(** [twoClips]: its second clip moved to 40s, and an update of a clip
    that is not there. *)
Lemma lookup_after_write_witness :
  (exists s',
     reduce twoClips (UPDATE_CLIP "p0q7zt" (retime 40)) = sound s'
     /\ JsObj.lookup "p0q7zt" (TimelineState.clips s')
        = JsObj.own secondClipAt40)
  /\ reduce twoClips (UPDATE_CLIP "ghost" (retime 40)) = sound twoClips.
Proof.
  split.
  - exact (proj1 (proj2 (proj2 lookup_after_write))
             twoClips "p0q7zt"%string (retime 40) (clipAt "p0q7zt" 12)
             eq_refl).
  - exact (proj2 (proj2 (proj2 lookup_after_write))
             twoClips "ghost"%string (retime 40) eq_refl).
Defined.

(** X2. In every state the store can reach, a command leaves the clip
    found under any id other than the one it writes to as it was. *)
Theorem lookup_of_other_ids d0 props (s : TimelineState.t) (a : Action)
    (k : string) :
  reachable d0 props s ->
  targetOf a <> Some k ->
  JsObj.get k (TimelineState.clips (timelineReducer s a))
  = JsObj.get k (TimelineState.clips s).
Proof.
  intros R N. destruct (reachable_uniqueKeys _ _ _ R) as [U _].
  destruct s as [assets tracks clips d ct pl sel zm cs]. simpl in U.
  destruct a as [p|p|[aid tid dur ty nm td] rnd|id ch|id|t| |sel'|z|id ch|c];
    simpl in *; try reflexivity.
  - apply get_spreadSet_other; [exact U|]. congruence.
  - apply get_spreadSet_other; [exact U|]. congruence.
  - destruct (JsObj.get id clips); simpl; [|reflexivity].
    apply get_spreadSet_other; [exact U|]. congruence.
  - unfold JsObj.spread. rewrite get_delete_other by congruence.
    now apply get_entries.
Qed.

(** [twoClips] keeps its first clip when the second one is removed. *)
Lemma lookup_of_other_ids_witness :
  reachable 30 None twoClips
  /\ targetOf (REMOVE_CLIP "p0q7zt") <> Some "k3x9fa"%string
  /\ JsObj.get "k3x9fa"
       (TimelineState.clips (timelineReducer twoClips (REMOVE_CLIP "p0q7zt")))
     = JsObj.get "k3x9fa" (TimelineState.clips twoClips).
Proof.
  assert (R : reachable 30 None twoClips) by exact twoClips_reachable.
  assert (N : targetOf (REMOVE_CLIP "p0q7zt") <> Some "k3x9fa"%string)
    by discriminate.
  split; [exact R|]. split; [exact N|].
  exact (lookup_of_other_ids 30 None twoClips _ _ R N).
Defined.

(* ------------------------------------------------------------------ *)
(** ** Automatic placement *)

Lemma values_unchanged_noOverlap assets tracks clips clips' d d' ct ct' pl
    pl' sel sel' zm zm' cs cs' assets' tracks' :
  (forall c, In c (JsObj.values clips') -> In c (JsObj.values clips)) ->
  noOverlap (TimelineState.mk assets tracks clips d ct pl sel zm cs) ->
  noOverlap
    (TimelineState.mk assets' tracks' clips' d' ct' pl' sel' zm' cs').
Proof.
  unfold noOverlap, clipsOf. simpl. intros Sub N a b Ha Hb.
  apply N; auto.
Qed.

(** A command other than [ADD_CLIP] and [UPDATE_CLIP] keeps the clips of
    every track free of overlap. *)
Lemma reducer_keepsPlacement (s : TimelineState.t) (a : Action) :
  keepsPlacement a = true ->
  noOverlap s -> noOverlap (timelineReducer s a).
Proof.
  destruct s as [assets tracks clips d ct pl sel zm cs].
  destruct a as [p|p|[aid tid dur ty nm td] rnd|id ch|id|t| |sel'|z|id ch|c];
    simpl; intros K N; try discriminate;
    try (eapply values_unchanged_noOverlap; [|exact N]; auto; fail).
  - (* ADD_CLIP_SMART *)
    destruct (findNextFreeSlot_hits clips tid dur ct) as [_ [Free _]].
    set (slot := findNextFreeSlot clips tid dur ct) in *.
    intros a b Ha Hb Hid Htr [O1 O2].
    unfold clipsOf in Ha, Hb. simpl in Ha, Hb.
    apply spreadSet_values_In in Ha. apply spreadSet_values_In in Hb.
    destruct Ha as [->|Ha]; destruct Hb as [->|Hb]; simpl in *.
    + now apply Hid.
    + apply (Free b); [split; [exact Hb|]|unfold hits; split; lra].
      symmetry. exact Htr.
    + apply (Free a); [split; [exact Ha|exact Htr]|unfold hits; split; lra].
    + apply (N a b); auto. now split.
  - (* REMOVE_CLIP *)
    eapply values_unchanged_noOverlap; [|exact N].
    intros c. apply delete_spread_values_In.
Qed.

(** X3. Starting from clips without overlap, a sequence of commands that
    holds no [ADD_CLIP] and no [UPDATE_CLIP] (assets, automatically placed
    clips, removals, playhead, zoom, tracks, canvas) never leaves two
    clips of one track overlapping. *)
Theorem auto_placement_keeps_noOverlap (acts : list Action)
    (s : TimelineState.t) :
  forallb keepsPlacement acts = true ->
  noOverlap s ->
  noOverlap (runActions s acts).
Proof.
  unfold runActions. revert s.
  induction acts as [|a acts IH]; intros s K N; simpl; [exact N|].
  simpl in K. apply andb_true_iff in K. destruct K as [Ka K].
  apply IH; [exact K|]. now apply reducer_keepsPlacement.
Qed.

(** Two videos and an image inserted through the API into the empty
    store, the first video removed again. *)
Lemma auto_placement_keeps_noOverlap_witness :
  noOverlap
    (runActions (createInitialState 30 None)
       (addVideoClip 10 "https://example.com/a.mp4" "Clip 1" "q1w2e3" "r4t5y6"
        ++ addVideoClip 4 "https://example.com/b.mp4" "Clip 2" "u7i8o9"
             "p1a2s3"
        ++ addImageClip "https://example.com/c.png" "Image Clip" 5 "d4f5g6"
             "h7j8k9"
        ++ [REMOVE_CLIP "r4t5y6"])).
Proof.
  apply auto_placement_keeps_noOverlap.
  - reflexivity.
  - intros a b Ha. vm_compute in Ha. destruct Ha.
Defined.

(* ------------------------------------------------------------------ *)
(** ** Playhead and zoom *)

Lemma reachable_playhead_nonneg d0 props (s : TimelineState.t) :
  reachable d0 props s -> 0 <= TimelineState.currentTime s.
Proof.
  induction 1 as [|s a _ IH]; [apply Qle_refl|].
  destruct s as [assets tracks clips d ct pl sel zm cs]. simpl in IH.
  destruct a as [p|p|[aid tid dur ty nm td] rnd|id ch|id|t| |sel'|z|id ch|c];
    simpl; try exact IH.
  - destruct (JsObj.get id clips); exact IH.
  - apply Math_max_l.
Qed.

(** X4. In every state the store can reach, the playhead is at or after
    0 and the zoom lies between 10 and 200. *)
Theorem playhead_and_zoom_bounds d0 props (s : TimelineState.t) :
  reachable d0 props s ->
  0 <= TimelineState.currentTime s
  /\ 10 <= TimelineState.zoom s
  /\ TimelineState.zoom s <= 200.
Proof.
  intros R. split; [now apply (reachable_playhead_nonneg d0 props)|].
  induction R as [|s a _ IH]; [split; discriminate|].
  destruct s as [assets tracks clips d ct pl sel zm cs]. simpl in IH.
  destruct a as [p|p|[aid tid dur ty nm td] rnd|id ch|id|t| |sel'|z|id ch|c];
    simpl; try exact IH.
  - destruct (JsObj.get id clips); exact IH.
  - unfold Math_max, Math_min. repeat qcase; qprops; split; lra.
Qed.

(** [twoClips] after a zoom request of 500 and a seek to -3s. *)
Lemma playhead_and_zoom_bounds_witness :
  reachable 30 None
    (timelineReducer (timelineReducer twoClips (SET_ZOOM 500))
       (SET_PLAYHEAD (-3)))
  /\ 0 <= TimelineState.currentTime
            (timelineReducer (timelineReducer twoClips (SET_ZOOM 500))
               (SET_PLAYHEAD (-3)))
  /\ 10 <= TimelineState.zoom
             (timelineReducer (timelineReducer twoClips (SET_ZOOM 500))
                (SET_PLAYHEAD (-3)))
  /\ TimelineState.zoom
       (timelineReducer (timelineReducer twoClips (SET_ZOOM 500))
          (SET_PLAYHEAD (-3)))
     <= 200.
Proof.
  assert (R : reachable 30 None
                (timelineReducer (timelineReducer twoClips (SET_ZOOM 500))
                   (SET_PLAYHEAD (-3))))
    by (repeat apply reachable_step; apply reachable_init).
  split; [exact R|].
  exact (playhead_and_zoom_bounds 30 None _ R).
Defined.

(** X5. In every state the store can reach, [ADD_CLIP_SMART] stores under
    the drawn id a clip on the requested track, of the requested length,
    untrimmed, that starts at or after the playhead and so never before
    0.  *)
Theorem auto_placed_clip d0 props (s : TimelineState.t)
    (p : SmartPayload.t) (rnd : string) :
  reachable d0 props s ->
  exists c,
    JsObj.get rnd
      (TimelineState.clips (timelineReducer s (ADD_CLIP_SMART p rnd)))
    = Some c
    /\ Clip.trackId c = SmartPayload.trackId p
    /\ Clip.zIndex c = SmartPayload.trackId p
    /\ Clip.duration c = SmartPayload.duration p
    /\ Clip.inPoint c = 0
    /\ TimelineState.currentTime s <= Clip.timelineStart c
    /\ 0 <= Clip.timelineStart c.
Proof.
  intros R. pose proof (reachable_playhead_nonneg _ _ _ R) as P.
  destruct s as [assets tracks clips d ct pl sel zm cs].
  destruct p as [aid tid dur ty nm td]. simpl in *.
  eexists. split; [apply get_spreadSet_same|]. simpl.
  destruct (findNextFreeSlot_hits clips tid dur ct) as [L _].
  repeat split; trivial. lra.
Qed.

(** A text layer added to [twoClips]. *)
Lemma auto_placed_clip_witness :
  reachable 30 None twoClips
  /\ exists c,
       JsObj.get "x2m8pd"
         (TimelineState.clips
            (timelineReducer twoClips (addTextClip "Title" "x2m8pd")))
       = Some c
       /\ Clip.trackId c = 3
       /\ Clip.zIndex c = 3
       /\ Clip.duration c = 5
       /\ Clip.inPoint c = 0
       /\ TimelineState.currentTime twoClips <= Clip.timelineStart c
       /\ 0 <= Clip.timelineStart c.
Proof.
  assert (R : reachable 30 None twoClips) by exact twoClips_reachable.
  split; [exact R|].
  exact (auto_placed_clip 30 None twoClips _ "x2m8pd" R).
Defined.

(** X6. After [addVideoClip] and after [addImageClip] the asset is found
    under its id, the new clip is found under its own, is the selected
    one, names the asset, lies on track 1 (video) or 2 (image) and plays
    the asset from 0 to its full duration. *)
Theorem api_insertion (s : TimelineState.t) (duration : Q)
    (url name rndAsset rndClip : string) :
  (let s' := runActions s (addVideoClip duration url name rndAsset rndClip) in
   TimelineState.selectedClipId s' = Some rndClip
   /\ JsObj.get rndAsset (TimelineState.assets s')
      = Some (MediaAsset.mk rndAsset url asset_video duration name)
   /\ exists c,
        JsObj.get rndClip (TimelineState.clips s') = Some c
        /\ Clip.assetId c = Some rndAsset /\ Clip.type c = VIDEO
        /\ Clip.trackId c = 1 /\ Clip.inPoint c = 0
        /\ Clip.duration c = duration)
  /\ (let s' :=
        runActions s (addImageClip url name duration rndAsset rndClip) in
      TimelineState.selectedClipId s' = Some rndClip
      /\ JsObj.get rndAsset (TimelineState.assets s')
         = Some (MediaAsset.mk rndAsset url asset_image duration name)
      /\ exists c,
           JsObj.get rndClip (TimelineState.clips s') = Some c
           /\ Clip.assetId c = Some rndAsset /\ Clip.type c = IMAGE
           /\ Clip.trackId c = 2 /\ Clip.inPoint c = 0
           /\ Clip.duration c = duration).
Proof.
  destruct s as [assets tracks clips d ct pl sel zm cs].
  split; simpl; (split; [reflexivity|]);
    (split; [apply get_spreadSet_same|]);
    (eexists; split; [apply get_spreadSet_same|]); repeat split.
Qed.

(* ================================================================== *)
(** * Further properties of the resolver *)

(* ------------------------------------------------------------------ *)
(** ** The track of a move *)

(** X8. The track a [MOVE] assigns is the track the drag started from or
    the id of one of the tracks of the state: a pointer above the first
    row or below the last one never yields another track. *)
Theorem move_target_is_a_track (TRACK_HEIGHT RULER_HEIGHT : Q)
    (state : TimelineState.t) (timelineRectTop : option Q)
    (clientY trackId : Q) :
  let t := targetTrackId TRACK_HEIGHT RULER_HEIGHT state timelineRectTop
             clientY trackId in
  t = trackId
  \/ exists track, In track (TimelineState.tracks state) /\ Track.id track = t.
Proof.
  unfold targetTrackId. destruct timelineRectTop as [top|]; [|now left].
  destruct (_ && _)%bool; [|now left].
  destruct (nth_error _ _) as [track|] eqn:N; [|now left].
  right. exists track. split; [|reflexivity].
  eapply nth_error_In, N.
Qed.

(* ------------------------------------------------------------------ *)
(** ** Trimming the left edge *)







(** X15. In a store without overlap whose clips have non-negative
    durations, a [MOVE] that keeps a clip with [timelineStart >= 0] on
    its track never proposes a negative start. *)
Theorem move_same_track_nonneg (s : TimelineState.t) (clip : Clip.t)
    (deltaSec newTrackId : Q) :
  noOverlap s ->
  In clip (clipsOf s) ->
  newTrackId == Clip.trackId clip ->
  0 <= Clip.timelineStart clip ->
  (forall c, In c (clipsOf s) -> 0 <= Clip.duration c) ->
  0 <= startAfter (InitialValues.ofClip clip)
         (moveChanges s clip (InitialValues.ofClip clip) deltaSec newTrackId).
Proof.
  intros N Ic T S0 Pos. unfold startAfter, moveChanges. simpl.
  set (ps := Math_max 0 (Clip.timelineStart clip + deltaSec)).
  assert (P0 : 0 <= ps) by apply Math_max_l.
  assert (Others : forall o, In o (otherClipsSorted s clip newTrackId) ->
            Clip.timelineStart clip < Clip.timelineStart o ->
            0 <= Clip.timelineStart o - Clip.duration clip).
  { intros o Ho L. unfold otherClipsSorted in Ho.
    apply Array_sort_In, filter_In in Ho. destruct Ho as [Io Ho].
    apply andb_true_iff in Ho. destruct Ho as [To Ido].
    apply Qeqb_true in To. apply negb_true_iff in Ido.
    pose proof (Pos o Io) as Do.
    assert (NO : ~ overlapping clip o).
    { apply (N clip o Ic Io).
      - intros E. rewrite E, String.eqb_refl in Ido. discriminate.
      - rewrite To, T. reflexivity. }
    unfold overlapping in NO.
    destruct (Qlt_le_dec (Clip.timelineStart o)
                (Clip.timelineStart clip + Clip.duration clip)); [|lra].
    exfalso. apply NO. split; lra. }
  assert (Fold : forall l v,
            0 <= v ->
            (forall o, In o l ->
               Clip.timelineStart clip < Clip.timelineStart o ->
               0 <= Clip.timelineStart o - Clip.duration clip) ->
            0 <= fold_left
                   (moveStep (Clip.timelineStart clip) (Clip.duration clip)
                      ps (ps + Clip.duration clip)) l v).
  { induction l as [|o l IH]; intros v V Hl; simpl; [exact V|].
    apply IH; [|intros o' Ho'; apply Hl; now right].
    unfold moveStep, Math_min, Math_max.
    pose proof (Hl o (or_introl eq_refl)) as Oo.
    repeat (qcase; simpl); qprops; try lra. }
  apply Fold; assumption.
Qed.

(** The third clip of [threeClips] dragged 30s to the left. *)
Lemma move_same_track_nonneg_witness :
  noOverlap threeClips
  /\ In (clipAt "m5w2rc" 30) (clipsOf threeClips)
  /\ 0 == Clip.trackId (clipAt "m5w2rc" 30)
  /\ 0 <= Clip.timelineStart (clipAt "m5w2rc" 30)
  /\ 0 <= startAfter (InitialValues.ofClip (clipAt "m5w2rc" 30))
            (moveChanges threeClips (clipAt "m5w2rc" 30)
               (InitialValues.ofClip (clipAt "m5w2rc" 30)) (-30) 0).
Proof.
  assert (N : noOverlap threeClips) by exact threeClips_noOverlap.
  assert (Ic : In (clipAt "m5w2rc" 30) (clipsOf threeClips))
    by (vm_compute; right; right; left; reflexivity).
  assert (T : 0 == Clip.trackId (clipAt "m5w2rc" 30)) by reflexivity.
  assert (S0 : 0 <= Clip.timelineStart (clipAt "m5w2rc" 30))
    by discriminate.
  assert (Pos : forall c, In c (clipsOf threeClips) -> 0 <= Clip.duration c).
  { intros c H. pick_clip H; discriminate. }
  repeat (split; [assumption|]).
  exact (move_same_track_nonneg threeClips _ (-30) 0 N Ic T S0 Pos).
Defined.

(* ================================================================== *)
(** * Further properties of the compiler *)

(* ------------------------------------------------------------------ *)
(** ** Text escaping and file names *)

Lemma chars_append (a b : string) :
  chars (String.append a b) = (chars a ++ chars b)%list.
Proof.
  unfold chars. induction a as [|c a IH]; simpl; [reflexivity|].
  now rewrite IH.
Qed.

Lemma replaceChars_chars (p : ascii -> bool) (rep s : string) (c : ascii) :
  In c (chars (replaceChars p rep s)) ->
  In c (chars rep) \/ (In c (chars s) /\ p c = false).
Proof.
  induction s as [|c' s IH]; simpl; [intros []|].
  destruct (p c') eqn:E.
  - rewrite chars_append, in_app_iff.
    intros [H|H]; [now left|].
    destruct (IH H) as [H'|[H' P]]; [now left|right; split; auto].
  - unfold chars in *. simpl. intros [<-|H]; [right; split; auto|].
    destruct (IH H) as [H'|[H' P]]; [now left|right; split; auto].
Qed.

(** X16. A text layer is drawn with [text='E'] where [E] is the content
    with every colon escaped, every single quote dropped and every line
    break turned into a space: [E] holds no single quote and no line
    break, so the content cannot close the quotes of the filter. *)
Theorem drawtext_quotes_hold numToString (state : TimelineState.t)
    (g : Graph.t) (clip : Clip.t) (idx : nat) (textData : TextData.t) :
  Clip.type clip = TEXT ->
  Clip.textData clip = Some textData ->
  (exists tail1 tail2,
     Graph.filterChain (textStage numToString state g clip idx)
     = push (Graph.filterChain g)
         (cat [ Graph.lastVideoLabel g;
                String.append "drawtext=fontfile=font.ttf:text='"
                  (String.append (escapedText (TextData.content textData))
                     (String.append "':fontcolor=" tail1));
                tail2 ]))
  /\ (forall c, In c (chars (escapedText (TextData.content textData))) ->
        nat_of_ascii c <> 39%nat /\ nat_of_ascii c <> 10%nat).
Proof.
  intros T D. split.
  - unfold textStage. rewrite D, T.
    eexists. eexists. cbn [ClipType_eqb]. unfold cat at 1 4.
    cbn [String.concat String.append]. reflexivity.
  - intros c H. unfold escapedText in H.
    apply replaceChars_chars in H. destruct H as [H|[H P10]].
    { simpl in H. destruct H as [<-|[]]. split; discriminate. }
    apply replaceChars_chars in H. destruct H as [[]|[H P39]].
    unfold isChar in *. apply Nat.eqb_neq in P10, P39. now split.
Qed.

(** The title of [titleClip]. *)
Lemma drawtext_quotes_hold_witness :
  Clip.type titleClip = TEXT
  /\ Clip.textData titleClip
     = Some (TextData.mk "Take 1: it's on" 40 "Inter" "#ffffff"
               "transparent" align_center)
  /\ forall c,
       In c (chars (escapedText "Take 1: it's on")) ->
       nat_of_ascii c <> 39%nat /\ nat_of_ascii c <> 10%nat.
Proof.
  assert (T : Clip.type titleClip = TEXT) by reflexivity.
  assert (D : Clip.textData titleClip
              = Some (TextData.mk "Take 1: it's on" 40 "Inter" "#ffffff"
                        "transparent" align_center)) by reflexivity.
  split; [exact T|]. split; [exact D|].
  exact (proj2 (drawtext_quotes_hold showQ mixedStore
                  (Graph.mk [] "[base]" []) titleClip 0 _ T D)).
Defined.

Lemma replaceChars_one_length (p : ascii -> bool) (r : ascii) (s : string) :
  String.length (replaceChars p (String r EmptyString) s) = String.length s.
Proof.
  induction s as [|c s IH]; simpl; [reflexivity|].
  destruct (p c); simpl; now rewrite IH.
Qed.

(** X17. The name an asset is written under is [asset_], the asset id,
    [_] and the asset's name with every character other than a letter, a
    digit or a dot replaced by [_]: that last part is as long as the name
    and holds letters, digits, dots and underscores only. *)
Theorem asset_filename_is_safe (assetId : string) (asset : MediaAsset.t) :
  exists safe,
    assetFilename assetId asset
    = String.append "asset_"
        (String.append assetId (String.append "_" safe))
    /\ String.length safe = String.length (MediaAsset.name asset)
    /\ forall c, In c (chars safe) ->
         isAlnumOrDot c = true \/ nat_of_ascii c = 95%nat.
Proof.
  exists (replaceChars (fun c => negb (isAlnumOrDot c)) "_"
            (MediaAsset.name asset)).
  split; [reflexivity|]. split; [apply replaceChars_one_length|].
  intros c H. apply replaceChars_chars in H. destruct H as [H|[_ H]].
  - simpl in H. destruct H as [<-|[]]. now right.
  - left. now apply negb_false_iff in H.
Qed.

(* ------------------------------------------------------------------ *)
(** ** The assets of an export *)

Lemma newSet_In (l seen : list string) (x : string) :
  In x (newSet seen l) <-> In x l /\ ~ In x seen.
Proof.
  revert seen. induction l as [|y l IH]; intros seen; simpl; [tauto|].
  destruct (existsb (String.eqb y) seen) eqn:E.
  - apply existsb_exists in E. destruct E as [z [Hz Ez]].
    apply String.eqb_eq in Ez. subst z. rewrite IH. split.
    + intros [H1 H2]. auto.
    + intros [[->|H1] H2]; [contradiction|auto].
  - assert (Ny : ~ In y seen).
    { intros H. apply Bool.not_true_iff_false in E. apply E.
      apply existsb_exists. exists y. split; [exact H|].
      apply String.eqb_refl. }
    simpl. rewrite IH. simpl. split.
    + intros [<-|[H1 H2]]; [auto|]. split; [auto|]. intros H. apply H2. auto.
    + intros [[<-|H1] H2]; [now left|].
      destruct (string_dec y x) as [->|D]; [now left|].
      right. split; [exact H1|]. intros [H|H]; auto.
Qed.

Lemma newSet_NoDup (l seen : list string) : NoDup (newSet seen l).
Proof.
  revert seen. induction l as [|y l IH]; intros seen; simpl; [constructor|].
  destruct (existsb (String.eqb y) seen); [apply IH|].
  constructor; [|apply IH].
  rewrite newSet_In. intros [_ H]. apply H. now left.
Qed.

Lemma truthyAssetIds_In (cs : list Clip.t) (a : string) :
  In a (truthyAssetIds cs)
  <-> a <> EmptyString /\ exists c, In c cs /\ Clip.assetId c = Some a.
Proof.
  induction cs as [|c cs IH]; simpl.
  - split; [intros []|intros [_ [c [[] _]]]].
  - destruct (Clip.assetId c) as [a'|] eqn:E.
    + destruct (String.eqb a' EmptyString) eqn:Ea; simpl.
      * apply String.eqb_eq in Ea. subst a'. rewrite IH. split.
        -- intros [N [c' [H1 H2]]]. split; [exact N|]. exists c'. auto.
        -- intros [N [c' [[<-|H1] H2]]]; [congruence|].
           split; [exact N|]. exists c'. auto.
      * apply String.eqb_neq in Ea. rewrite IH. split.
        -- intros [<-|[N [c' [H1 H2]]]].
           ++ split; [exact Ea|]. exists c. auto.
           ++ split; [exact N|]. exists c'. auto.
        -- intros [N [c' [[<-|H1] H2]]].
           ++ left. congruence.
           ++ right. split; [exact N|]. exists c'. auto.
    + rewrite IH. split.
      * intros [N [c' [H1 H2]]]. split; [exact N|]. exists c'. auto.
      * intros [N [c' [[<-|H1] H2]]]; [congruence|].
        split; [exact N|]. exists c'. auto.
Qed.

(** X18. The assets an export fetches are the non-empty asset ids of the
    clips of the state, each of them once. *)
Theorem unique_assets_once (state : TimelineState.t) :
  NoDup (uniqueAssets state)
  /\ forall a,
       In a (uniqueAssets state)
       <-> a <> EmptyString
           /\ exists c, In c (clipsOf state) /\ Clip.assetId c = Some a.
Proof.
  unfold uniqueAssets. split; [apply newSet_NoDup|].
  intros a. rewrite newSet_In, truthyAssetIds_In. unfold activeClips.
  split.
  - intros [[N [c [H1 H2]]] _]. split; [exact N|]. exists c.
    split; [|exact H2]. now apply Array_sort_In in H1.
  - intros [N [c [H1 H2]]]. split; [|intros []]. split; [exact N|].
    exists c. split; [|exact H2]. now apply Array_sort_In.
Qed.

(* ------------------------------------------------------------------ *)
(** ** Inputs of the encoder *)

Lemma JsMap_get_set_same (k : string) (v : nat) (m : JsMap.t) :
  JsMap.get k (JsMap.set k v m) = Some v.
Proof.
  induction m as [|[k' v'] m IH]; simpl.
  - now rewrite String.eqb_refl.
  - destruct (String.eqb k' k) eqn:E; simpl.
    + now rewrite String.eqb_refl.
    + now rewrite E.
Qed.

Lemma JsMap_get_set_other (k k' : string) (v : nat) (m : JsMap.t) :
  k' <> k -> JsMap.get k' (JsMap.set k v m) = JsMap.get k' m.
Proof.
  intros N. induction m as [|[k0 v0] m IH]; simpl.
  - destruct (String.eqb k k') eqn:E; [|reflexivity].
    apply String.eqb_eq in E. congruence.
  - destruct (String.eqb k0 k) eqn:E; simpl.
    + apply String.eqb_eq in E. subst k0.
      destruct (String.eqb k k') eqn:E'; [|reflexivity].
      apply String.eqb_eq in E'. congruence.
    + now rewrite IH.
Qed.

Lemma loadAssets_sound (w : World.t) (state : TimelineState.t)
    (ids : list string) :
  forall acc inputs,
    inputsSound w state acc ->
    loadAssets w state ids acc = inr inputs ->
    inputsSound w state inputs.
Proof.
  induction ids as [|assetId ids IH]; intros acc inputs Inv; simpl.
  - now intros [= <-].
  - destruct (findAsset state assetId) as [asset|] eqn:G; [|now apply IH].
    destruct (Found.name asset) as [name|] eqn:Nm; [|discriminate].
    destruct (fetch w (Found.url asset)) as [data|] eqn:F; [|discriminate].
    apply IH. destruct Inv as [Len Map].
    split; cbn [Inputs.inputArgs Inputs.assetInputMap Inputs.inputIndex
                Inputs.written].
    + rewrite length_app, Len. simpl. lia.
    + intros id idx H.
      destruct (string_dec id assetId) as [->|D].
      * rewrite JsMap_get_set_same in H. injection H as <-.
        split; [lia|]. exists asset, name, data.
        split; [exact G|]. split; [exact Nm|]. split; [exact F|].
        split; [|split].
        -- rewrite nth_error_app2 by lia.
           rewrite Len, Nat.sub_diag. reflexivity.
        -- rewrite nth_error_app2 by lia.
           rewrite Len, Nat.add_comm, Nat.add_sub. reflexivity.
        -- unfold push. apply in_or_app. right. now left.
      * rewrite JsMap_get_set_other in H by exact D.
        destruct (Map id idx H)
          as [Lt [asset' [name' [data' [G' [Nm' [F' [N0 [N1 W]]]]]]]]].
        split; [lia|]. exists asset', name', data'.
        split; [exact G'|]. split; [exact Nm'|]. split; [exact F'|].
        split; [|split].
        -- rewrite nth_error_app1 by lia. exact N0.
        -- rewrite nth_error_app1 by lia. exact N1.
        -- unfold push. apply in_or_app. now left.
Qed.

Lemma inputsSound_empty (w : World.t) (state : TimelineState.t) :
  inputsSound w state (Inputs.mk [] [] 0 []).
Proof. split; [reflexivity|]. intros id idx H. discriminate H. Qed.

(** The files of a call that got as far as the encoder: those of the
    asset loop are among them. *)
Lemma exportVideo_written numToString (svc : Service.t) (w : World.t)
    (state : TimelineState.t) (args : list string) (inputs : Inputs.t)
    (file : string * string) :
  Run.execArgs (exportVideo numToString svc w state) = Some args ->
  loadAssets w state (uniqueAssets state) (Inputs.mk [] [] 0 [])
  = inr inputs ->
  In file (Inputs.written inputs) ->
  In file (Run.written (exportVideo numToString svc w state)).
Proof.
  unfold exportVideo.
  destruct (negb (Service.loaded svc)); [discriminate|].
  intros _ -> I.
  destruct (World.exec w _) as [[data|]|]; simpl;
    apply in_or_app; now right.
Qed.

(** X19. Whenever an export gets as far as the encoder, the argument list
    is the one built from the inputs of its asset loop, two arguments per
    input; every asset id of the input map is bound to an index below the
    number of inputs, the arguments at that index are [-i] and the file
    name made of the id and a name, and a file was written under that
    file name.  The id is a key of [state.assets], the name is that
    asset's and the file holds the bytes fetched from that asset's URL;
    or the id is the name of a function of [Object.prototype], the name
    is that function's and the file holds what [fetchFile(undefined)]
    returned. *)
Theorem encoder_inputs_resolve numToString (svc : Service.t) (w : World.t)
    (state : TimelineState.t) (args : list string) :
  Run.execArgs (exportVideo numToString svc w state) = Some args ->
  exists inputs,
    loadAssets w state (uniqueAssets state) (Inputs.mk [] [] 0 [])
    = inr inputs
    /\ args = buildExecArgs numToString state (Inputs.inputArgs inputs)
                (Inputs.assetInputMap inputs)
    /\ List.length (Inputs.inputArgs inputs)
       = (2 * Inputs.inputIndex inputs)%nat
    /\ forall id idx,
         JsMap.get id (Inputs.assetInputMap inputs) = Some idx ->
         (idx < Inputs.inputIndex inputs)%nat
         /\ nth_error (Inputs.inputArgs inputs) (2 * idx)
            = Some "-i"%string
         /\ exists name data,
              nth_error (Inputs.inputArgs inputs) (2 * idx + 1)
              = Some (assetFilenameOf id name)
              /\ In (assetFilenameOf id name, data)
                   (Run.written (exportVideo numToString svc w state))
              /\ match JsObj.lookup id (TimelineState.assets state) with
                 | JsObj.own asset =>
                     name = MediaAsset.name asset
                     /\ World.fetchFile w (MediaAsset.url asset) = Some data
                 | JsObj.inherited m =>
                     m = JsObj.protoFunction name
                     /\ World.fetchUndefined w = Some data
                 | JsObj.undefined => False
                 end.
Proof.
  intros H. pose proof H as H'.
  apply exportVideo_execArgs in H'. destruct H' as [inputs [L E]].
  exists inputs. split; [exact L|]. split; [exact E|].
  destruct (loadAssets_sound w state _ _ _ (inputsSound_empty w state) L)
    as [Len Map].
  split; [exact Len|].
  intros id idx G.
  destruct (Map id idx G)
    as [Lt [asset [name [data [Fa [Nm [Fe [N0 [N1 W]]]]]]]]].
  split; [exact Lt|]. split; [exact N0|].
  exists name, data. split; [exact N1|].
  split; [exact (exportVideo_written _ _ _ _ _ _ _ H L W)|].
  unfold findAsset in Fa.
  destruct (JsObj.lookup id (TimelineState.assets state)) as [a|[n|]|];
    try discriminate; injection Fa as <-; simpl in *.
  - split; congruence.
  - split; congruence.
  - discriminate.
Qed.

(** The export of [mixedStore] in a world where everything succeeds. *)
Lemma encoder_inputs_resolve_witness :
  Run.execArgs
    (exportVideo showQ (Service.mk true false) fairWorld mixedStore)
  = Some mixedArgs
  /\ exists inputs,
       loadAssets fairWorld mixedStore (uniqueAssets mixedStore)
         (Inputs.mk [] [] 0 [])
       = inr inputs
       /\ mixedArgs = buildExecArgs showQ mixedStore (Inputs.inputArgs inputs)
                        (Inputs.assetInputMap inputs)
       /\ List.length (Inputs.inputArgs inputs)
          = (2 * Inputs.inputIndex inputs)%nat
       /\ forall id idx,
            JsMap.get id (Inputs.assetInputMap inputs) = Some idx ->
            (idx < Inputs.inputIndex inputs)%nat
            /\ nth_error (Inputs.inputArgs inputs) (2 * idx)
               = Some "-i"%string
            /\ exists name data,
                 nth_error (Inputs.inputArgs inputs) (2 * idx + 1)
                 = Some (assetFilenameOf id name)
                 /\ In (assetFilenameOf id name, data)
                      (Run.written
                         (exportVideo showQ (Service.mk true false)
                            fairWorld mixedStore))
                 /\ match JsObj.lookup id (TimelineState.assets mixedStore)
                    with
                    | JsObj.own asset =>
                        name = MediaAsset.name asset
                        /\ World.fetchFile fairWorld (MediaAsset.url asset)
                           = Some data
                    | JsObj.inherited m =>
                        m = JsObj.protoFunction name
                        /\ World.fetchUndefined fairWorld = Some data
                    | JsObj.undefined => False
                    end.
Proof.
  assert (H : Run.execArgs
                (exportVideo showQ (Service.mk true false) fairWorld
                   mixedStore)
              = Some mixedArgs) by (vm_compute; reflexivity).
  split; [exact H|].
  exact (encoder_inputs_resolve showQ _ fairWorld mixedStore mixedArgs H).
Defined.

(** X20. Once the assets are loaded, a video, image or audio clip that
    has no asset id, or under whose asset id [state.assets] finds
    nothing (no asset and no member of [Object.prototype]), leaves the
    graph as it found it: no filter, no label, no audio chain. *)
Theorem unresolved_asset_is_skipped numToString (w : World.t)
    (state : TimelineState.t) (inputs : Inputs.t) (g : Graph.t)
    (clip : Clip.t) (idx : nat) :
  loadAssets w state (uniqueAssets state) (Inputs.mk [] [] 0 [])
  = inr inputs ->
  Clip.type clip <> TEXT ->
  (forall a, Clip.assetId clip = Some a ->
     JsObj.lookup a (TimelineState.assets state) = JsObj.undefined) ->
  processClip numToString state (Inputs.assetInputMap inputs) g clip idx = g.
Proof.
  intros L T Missing.
  pose proof (loadAssets_sound w state _ _ _ (inputsSound_empty w state) L)
    as [_ Sound].
  assert (M : forall a, Clip.assetId clip = Some a ->
                JsMap.get a (Inputs.assetInputMap inputs) = None).
  { intros a A. destruct (JsMap.get a _) as [i|] eqn:G; [|reflexivity].
    destruct (Sound a i G) as [_ [asset [name [data [G' _]]]]].
    unfold findAsset in G'. rewrite (Missing a A) in G'. discriminate. }
  unfold processClip, visualStage, audioStage, textStage.
  destruct (Clip.assetId clip) as [a|] eqn:A.
  - rewrite (M a eq_refl).
    destruct (Clip.type clip); try contradiction; simpl;
      repeat match goal with
      | |- context [String.eqb ?x ?y] => destruct (String.eqb x y); simpl
      | |- context [volumeNonZero ?c] => destruct (volumeNonZero c); simpl
      | |- context [Clip.textData ?c] => destruct (Clip.textData c); simpl
      end; reflexivity.
  - destruct (Clip.type clip); try contradiction; simpl;
      repeat match goal with
      | |- context [volumeNonZero ?c] => destruct (volumeNonZero c); simpl
      | |- context [Clip.textData ?c] => destruct (Clip.textData c); simpl
      end; reflexivity.
Qed.

(** [orphanClip] in the export of [mixedStore]. *)
Lemma unresolved_asset_is_skipped_witness :
  loadAssets fairWorld mixedStore (uniqueAssets mixedStore)
    (Inputs.mk [] [] 0 [])
  = inr mixedInputs
  /\ Clip.type orphanClip <> TEXT
  /\ processClip showQ mixedStore (Inputs.assetInputMap mixedInputs)
       (Graph.mk [] "[base]" []) orphanClip 7
     = Graph.mk [] "[base]" [].
Proof.
  assert (L : loadAssets fairWorld mixedStore (uniqueAssets mixedStore)
                (Inputs.mk [] [] 0 [])
              = inr mixedInputs) by (vm_compute; reflexivity).
  assert (T : Clip.type orphanClip <> TEXT) by discriminate.
  assert (Missing : forall a, Clip.assetId orphanClip = Some a ->
            JsObj.lookup a (TimelineState.assets mixedStore)
            = JsObj.undefined).
  { intros a [= <-]. reflexivity. }
  split; [exact L|]. split; [exact T|].
  exact (unresolved_asset_is_skipped showQ fairWorld mixedStore mixedInputs
           (Graph.mk [] "[base]" []) orphanClip 7 L T Missing).
Defined.

(* ------------------------------------------------------------------ *)
(** ** Audio chains *)

Lemma visualStage_audio numToString (state : TimelineState.t)
    (aim : JsMap.t) (g : Graph.t) (clip : Clip.t) (idx : nat) :
  match visualStage numToString state aim g clip idx with
  | Return g' => g' = g
  | Continue g' => Graph.audioMixLabels g' = Graph.audioMixLabels g
  end.
Proof.
  unfold visualStage.
  destruct (_ || _)%bool; [|reflexivity].
  destruct (Clip.assetId clip) as [a|]; [|reflexivity].
  destruct (negb (truthy (Some a))); [reflexivity|].
  destruct (JsMap.get a aim); reflexivity.
Qed.

Lemma textStage_audio numToString (state : TimelineState.t) (g : Graph.t)
    (clip : Clip.t) (idx : nat) :
  Graph.audioMixLabels (textStage numToString state g clip idx)
  = Graph.audioMixLabels g.
Proof.
  unfold textStage. destruct (Clip.textData clip); [|reflexivity].
  destruct (ClipType_eqb (Clip.type clip) TEXT); reflexivity.
Qed.

(** X21. An image clip, a text clip, a video clip whose volume is 0 and
    any clip whose asset is an image add no audio chain to the mix. *)
Theorem silent_clips_add_no_audio numToString (state : TimelineState.t)
    (aim : JsMap.t) (g : Graph.t) (clip : Clip.t) (idx : nat) :
  Clip.type clip = IMAGE
  \/ Clip.type clip = TEXT
  \/ (Clip.type clip = VIDEO /\ volumeNonZero clip = false)
  \/ (exists a asset,
        Clip.assetId clip = Some a
        /\ JsObj.get a (TimelineState.assets state) = Some asset
        /\ MediaAsset.type asset = asset_image) ->
  Graph.audioMixLabels (processClip numToString state aim g clip idx)
  = Graph.audioMixLabels g.
Proof.
  intros H. unfold processClip.
  pose proof (visualStage_audio numToString state aim g clip idx) as V.
  destruct (visualStage numToString state aim g clip idx) as [g'|g'];
    [now subst|].
  rewrite <- V, <- (textStage_audio numToString state g' clip idx).
  generalize (textStage numToString state g' clip idx). intros g''.
  unfold audioStage.
  destruct H as [T|[T|[[T Z]|[a [asset [A [G I]]]]]]].
  - rewrite T. reflexivity.
  - rewrite T. reflexivity.
  - rewrite T, Z. reflexivity.
  - rewrite A. unfold findAsset, JsObj.lookup. rewrite G, I.
    destruct (_ || _)%bool; [|reflexivity].
    destruct (negb (truthy (Some a))); [reflexivity|].
    destruct (JsMap.get a aim); reflexivity.
Qed.

(** The image clip of [mixedStore] among its inputs. *)
Lemma silent_clips_add_no_audio_witness :
  Clip.type stillClip = IMAGE
  /\ Graph.audioMixLabels
       (processClip showQ mixedStore (Inputs.assetInputMap mixedInputs)
          (Graph.mk [] "[base]" ["[aud0]"%string]) stillClip 1)
     = ["[aud0]"%string].
Proof.
  assert (T : Clip.type stillClip = IMAGE) by reflexivity.
  split; [exact T|].
  exact (silent_clips_add_no_audio showQ mixedStore
           (Inputs.assetInputMap mixedInputs)
           (Graph.mk [] "[base]" ["[aud0]"%string]) stillClip 1
           (or_introl T)).
Defined.

(* ------------------------------------------------------------------ *)
(** ** Failures of an export *)

(** X22. A loaded service reaches the encoder as soon as every asset id
    that a clip names is a key of [state.assets] whose fetch succeeds, or
    one under which [state.assets] finds nothing, not even a member of
    [Object.prototype]: the font does not matter.  The service remembers
    the font as loaded exactly when it was loaded before or its fetch
    succeeded now. *)
Theorem font_failure_is_not_fatal numToString (svc : Service.t)
    (w : World.t) (state : TimelineState.t) :
  Service.loaded svc = true ->
  (forall a asset, In a (uniqueAssets state) ->
     JsObj.get a (TimelineState.assets state) = Some asset ->
     World.fetchFile w (MediaAsset.url asset) <> None) ->
  plainAssetIds state ->
  (exists args,
     Run.execArgs (exportVideo numToString svc w state) = Some args)
  /\ Service.fontLoaded (Run.service (exportVideo numToString svc w state))
     = (Service.fontLoaded svc
        || match World.fetchFile w fontUrl with
           | Some _ => true
           | None => false
           end)%bool.
Proof.
  intros L F P. unfold exportVideo. rewrite L. simpl.
  destruct (loadAssets_succeeds_on state w (uniqueAssets state) F P
              (Inputs.mk [] [] 0 [])) as [inputs ->].
  destruct (World.exec w _) as [[data|]|]; simpl;
    (split; [eexists; reflexivity|]);
    destruct (Service.fontLoaded svc); reflexivity.
Qed.

(** The export of [mixedStore] in a world without the font. *)
Lemma font_failure_is_not_fatal_witness :
  World.fetchFile roughWorld fontUrl = None
  /\ plainAssetIds mixedStore
  /\ (exists args,
        Run.execArgs
          (exportVideo showQ (Service.mk true false) roughWorld mixedStore)
        = Some args)
  /\ Service.fontLoaded
       (Run.service
          (exportVideo showQ (Service.mk true false) roughWorld mixedStore))
     = false.
Proof.
  assert (F : forall a asset, In a (uniqueAssets mixedStore) ->
            JsObj.get a (TimelineState.assets mixedStore) = Some asset ->
            World.fetchFile roughWorld (MediaAsset.url asset) <> None).
  { intros a asset H. vm_compute in H.
    destruct H as [<-|[<-|[]]]; intros [= <-]; discriminate. }
  assert (P : plainAssetIds mixedStore).
  { intros a H. vm_compute in H.
    destruct H as [<-|[<-|[]]]; intros G; discriminate G. }
  split; [reflexivity|]. split; [exact P|].
  exact (font_failure_is_not_fatal showQ (Service.mk true false) roughWorld
           mixedStore eq_refl F P).
Defined.

(** A clip whose asset id is [__proto__] stops the export before the
    encoder although every fetch succeeds: [state.assets] finds
    [Object.prototype] under that id, and that has no [name] to call
    [replace] on. *)
Lemma proto_asset_id_throws :
  In protoClip (clipsOf oddStore)
  /\ Run.outcome (exportVideo showQ (Service.mk true true) fairWorld oddStore)
     = ThrewTypeError
  /\ Run.execArgs (exportVideo showQ (Service.mk true true) fairWorld oddStore)
     = None.
Proof.
  split; [vm_compute; tauto|]. split; vm_compute; reflexivity.
Qed.

Lemma loadAssets_fails_on (state : TimelineState.t) (w : World.t)
    (ids : list string) (a : string) (asset : MediaAsset.t) :
  In a ids ->
  JsObj.get a (TimelineState.assets state) = Some asset ->
  World.fetchFile w (MediaAsset.url asset) = None ->
  forall acc, exists failure acc',
    loadAssets w state ids acc = inl (failure, acc')
    /\ (failure = ThrewTypeError
        \/ exists url, failure = FetchRejected url /\ fetch w url = None).
Proof.
  intros I G E. induction ids as [|assetId ids IH]; intros acc; simpl;
    [destruct I|].
  destruct (string_dec assetId a) as [->|D].
  - unfold findAsset, JsObj.lookup. rewrite G. simpl. rewrite E.
    eexists. eexists. split; [reflexivity|].
    right. eexists. split; [reflexivity|exact E].
  - destruct I as [->|I]; [contradiction|].
    destruct (findAsset state assetId) as [asset'|]; [|now apply IH].
    destruct (Found.name asset') as [name|].
    + destruct (fetch w (Found.url asset')) eqn:E'; [now apply IH|].
      eexists. eexists. split; [reflexivity|].
      right. eexists. split; [reflexivity|exact E'].
    + eexists. eexists. split; [reflexivity|]. now left.
Qed.

(** X23. When the fetch of an asset that a clip names and the state holds
    rejects, the export of a loaded service never calls the encoder: it
    rejects with the failure of a fetch that did reject, or with the
    [TypeError] of an asset id met before it under which [state.assets]
    found [Object.prototype]. *)
Theorem fetch_failure_aborts numToString (svc : Service.t) (w : World.t)
    (state : TimelineState.t) (c : Clip.t) (a : string)
    (asset : MediaAsset.t) :
  Service.loaded svc = true ->
  In c (clipsOf state) ->
  Clip.assetId c = Some a ->
  a <> EmptyString ->
  JsObj.get a (TimelineState.assets state) = Some asset ->
  World.fetchFile w (MediaAsset.url asset) = None ->
  Run.execArgs (exportVideo numToString svc w state) = None
  /\ (Run.outcome (exportVideo numToString svc w state) = ThrewTypeError
      \/ exists url,
           Run.outcome (exportVideo numToString svc w state)
           = FetchRejected url
           /\ fetch w url = None).
Proof.
  intros L Ic A N G E.
  assert (I : In a (uniqueAssets state)).
  { unfold uniqueAssets. apply newSet_In. split; [|intros []].
    apply truthyAssetIds_In. split; [exact N|]. exists c.
    split; [|exact A]. unfold activeClips. now apply Array_sort_In. }
  unfold exportVideo. rewrite L. simpl.
  destruct (loadAssets_fails_on state w _ a asset I G E
              (Inputs.mk [] [] 0 [])) as [failure [acc' [-> F]]].
  split; [reflexivity|]. exact F.
Qed.

(** The export of [mixedStore] in a world where the intro video cannot
    be fetched. *)
Lemma fetch_failure_aborts_witness :
  World.fetchFile offlineWorld (MediaAsset.url introAsset) = None
  /\ Run.execArgs
       (exportVideo showQ (Service.mk true true) offlineWorld mixedStore)
     = None
  /\ (Run.outcome
        (exportVideo showQ (Service.mk true true) offlineWorld mixedStore)
      = ThrewTypeError
      \/ exists url,
           Run.outcome
             (exportVideo showQ (Service.mk true true) offlineWorld
                mixedStore)
           = FetchRejected url
           /\ fetch offlineWorld url = None).
Proof.
  assert (Ic : In (Clip.mk "v7c3ne" (Some "a1"%string) 1 VIDEO 2 0 10
                     (Transform.mk 10 20 0.5 0 1) 1
                     (Some "intro.mp4"%string) None
                     (Some (Transition.mk 1 0 fade)) (Some 0.8))
                 (clipsOf mixedStore))
    by (vm_compute; left; reflexivity).
  assert (N : "a1"%string <> EmptyString) by discriminate.
  assert (E : World.fetchFile offlineWorld (MediaAsset.url introAsset)
              = None) by reflexivity.
  split; [exact E|].
  exact (fetch_failure_aborts showQ (Service.mk true true) offlineWorld
           mixedStore _ "a1" introAsset eq_refl Ic eq_refl N eq_refl E).
Defined.

(* ================================================================== *)
(** * Properties of the preview and of the timeline view *)

(* ------------------------------------------------------------------ *)
(** ** The playback clock *)

(** X24. A call of [animate] on a store whose playhead is at or after 0
    and whose duration is positive leaves the playhead at or after 0 and
    at most 0.1s further than it was; a playhead that was before the end
    of the timeline is still before it. *)
Theorem animate_keeps_playhead_in_range (s : TimelineState.t)
    (lastTimeRef time : Q) :
  0 <= TimelineState.currentTime s ->
  0 < TimelineState.duration s ->
  let s' := dispatch s (Tick.dispatched (animate s lastTimeRef time)) in
  0 <= TimelineState.currentTime s'
  /\ TimelineState.currentTime s' <= TimelineState.currentTime s + 0.1
  /\ (TimelineState.currentTime s < TimelineState.duration s ->
      TimelineState.currentTime s' < TimelineState.duration s')
  /\ TimelineState.duration s' = TimelineState.duration s.
Proof.
  destruct s as [assets tracks clips d ct pl sel zm cs]. simpl.
  intros C D. unfold animate. simpl.
  destruct pl; simpl; [|repeat split; trivial; lra].
  destruct (negb (Qeqb lastTimeRef 0)); simpl; [|repeat split; trivial; lra].
  unfold Math_max, Math_min.
  repeat (qcase; simpl); qprops; repeat split; trivial; lra.
Qed.

(** [twoClips] playing, a frame 5s after the last one. *)
Lemma animate_keeps_playhead_in_range_witness :
  0 <= TimelineState.currentTime (timelineReducer twoClips TOGGLE_PLAYBACK)
  /\ 0 < TimelineState.duration (timelineReducer twoClips TOGGLE_PLAYBACK)
  /\ TimelineState.currentTime
       (dispatch (timelineReducer twoClips TOGGLE_PLAYBACK)
          (Tick.dispatched
             (animate (timelineReducer twoClips TOGGLE_PLAYBACK) 1000 6000)))
     <= TimelineState.currentTime (timelineReducer twoClips TOGGLE_PLAYBACK)
        + 0.1.
Proof.
  assert (C : 0 <= TimelineState.currentTime
                     (timelineReducer twoClips TOGGLE_PLAYBACK))
    by discriminate.
  assert (D : 0 < TimelineState.duration
                    (timelineReducer twoClips TOGGLE_PLAYBACK))
    by reflexivity.
  split; [exact C|]. split; [exact D|].
  exact (proj1 (proj2 (animate_keeps_playhead_in_range
                         (timelineReducer twoClips TOGGLE_PLAYBACK)
                         1000 6000 C D))).
Defined.

(* ------------------------------------------------------------------ *)
(** ** The layers of the preview *)

Lemma visibleAt_spec (clip : Clip.t) (t : Q) :
  visibleAt clip t = true
  <-> Clip.timelineStart clip <= t
      /\ t < Clip.timelineStart clip + Clip.duration clip.
Proof.
  unfold visibleAt. rewrite andb_true_iff, Qleb_true, Qltb_true. tauto.
Qed.

Lemma previewClips_In (state : TimelineState.t) (c : Clip.t) :
  In c (previewClips state)
  <-> In c (clipsOf state)
      /\ Clip.timelineStart c < TimelineState.currentTime state + 2
      /\ TimelineState.currentTime state - 1
         < Clip.timelineStart c + Clip.duration c.
Proof.
  unfold previewClips, clipsOf, PRELOAD_WINDOW.
  rewrite Array_sort_In, filter_In, andb_true_iff, !Qltb_true. tauto.
Qed.

(** X25. The preview shows its placeholder exactly when no clip of the
    store other than an audio clip covers the playhead: the window by
    which the layers are chosen drops no clip that is visible. *)
Theorem hasVisibleClip_spec (state : TimelineState.t) :
  hasVisibleClip state = true
  <-> exists c,
        In c (clipsOf state)
        /\ Clip.type c <> AUDIO
        /\ Clip.timelineStart c <= TimelineState.currentTime state
        /\ TimelineState.currentTime state
           < Clip.timelineStart c + Clip.duration c.
Proof.
  unfold hasVisibleClip. rewrite existsb_exists. split.
  - intros [c [I H]]. apply andb_true_iff in H. destruct H as [T V].
    apply previewClips_In in I. destruct I as [I _].
    apply visibleAt_spec in V. exists c. split; [exact I|].
    split; [|exact V]. intros E. rewrite E in T. discriminate.
  - intros [c [I [T [V1 V2]]]]. exists c. split.
    + apply previewClips_In. split; [exact I|]. split; lra.
    + apply andb_true_iff. split.
      * destruct (Clip.type c); try reflexivity. contradiction.
      * apply visibleAt_spec. now split.
Qed.

(** X26. The opacity of a transition lies between 0 and 1 at every
    playhead position, whatever the fade durations; and the opacity of a
    layer whose own opacity is at least 0 lies between 0 and that
    opacity. *)
Theorem layer_opacity_in_range (clip : Clip.t) (currentTime : Q) :
  (0 <= transitionOpacity clip currentTime (visibleAt clip currentTime)
   /\ transitionOpacity clip currentTime (visibleAt clip currentTime) <= 1)
  /\ (0 <= Transform.opacity (Clip.transform clip) ->
      0 <= finalOpacity clip currentTime (visibleAt clip currentTime)
      /\ finalOpacity clip currentTime (visibleAt clip currentTime)
         <= Transform.opacity (Clip.transform clip)).
Proof.
  assert (T : 0 <= transitionOpacity clip currentTime
                     (visibleAt clip currentTime)
              /\ transitionOpacity clip currentTime
                   (visibleAt clip currentTime) <= 1).
  { unfold transitionOpacity.
    destruct (Clip.transition clip) as [tr|]; [|split; discriminate].
    destruct (visibleAt clip currentTime) eqn:V; [|split; discriminate].
    apply visibleAt_spec in V. destruct V as [V1 V2].
    destruct (Qltb _ (Transition.inDuration tr)) eqn:E1.
    - qprops. split.
      + apply Qle_shift_div_l; lra.
      + apply Qle_shift_div_r; lra.
    - destruct (Qltb _ (Transition.outDuration tr)) eqn:E2;
        [|split; discriminate].
      qprops. split.
      + apply Qle_shift_div_l; lra.
      + apply Qle_shift_div_r; lra. }
  split; [exact T|].
  intros O. destruct T as [T0 T1]. unfold finalOpacity.
  destruct (visibleAt clip currentTime); split; nra.
Qed.

(** [stillClip] half a second after its start, at full opacity. *)
Lemma layer_opacity_in_range_witness :
  0 <= Transform.opacity (Clip.transform stillClip)
  /\ 0 <= finalOpacity stillClip 0.5 (visibleAt stillClip 0.5)
  /\ finalOpacity stillClip 0.5 (visibleAt stillClip 0.5)
     <= Transform.opacity (Clip.transform stillClip).
Proof.
  assert (O : 0 <= Transform.opacity (Clip.transform stillClip))
    by discriminate.
  split; [exact O|].
  exact (proj2 (layer_opacity_in_range stillClip 0.5) O).
Defined.

(* ------------------------------------------------------------------ *)
(** ** Dropping an asset on the timeline *)

(** X27. For a track height other than 0 and a positive zoom: when
    [handleDrop] adds a clip with all its fields, the asset id is a key
    of [state.assets], and the clip lies on one of the tracks of the
    store, starts at or after 0, is untrimmed and as long as the asset;
    and when it adds a clip without a duration instead, the asset id is
    no key of [state.assets] but the name of a member of
    [Object.prototype]. *)
Theorem drop_places_on_a_track (TRACK_HEIGHT RULER_HEIGHT : Q)
    (state : TimelineState.t) (assetId : string)
    (container : option Container.t) (e : MouseEvent.t) (rnd : string) :
  ~ TRACK_HEIGHT == 0 ->
  0 < TimelineState.zoom state ->
  (forall a,
     handleDrop TRACK_HEIGHT RULER_HEIGHT state assetId container e rnd
     = added a ->
     exists p asset track,
       a = ADD_CLIP p
       /\ JsObj.get assetId (TimelineState.assets state) = Some asset
       /\ In track (TimelineState.tracks state)
       /\ Clip.id p = rnd
       /\ Clip.assetId p = Some assetId
       /\ Clip.trackId p = Track.id track
       /\ 0 <= Clip.timelineStart p
       /\ Clip.inPoint p = 0
       /\ Clip.duration p = MediaAsset.duration asset)
  /\ (forall payload,
        handleDrop TRACK_HEIGHT RULER_HEIGHT state assetId container e rnd
        = addedStray payload ->
        JsObj.get assetId (TimelineState.assets state) = None
        /\ JsObj.protoMember assetId <> None
        /\ ClipChanges.duration payload = None).
Proof.
  intros _ _. unfold handleDrop.
  destruct (negb (truthy (Some assetId))); [split; discriminate|].
  destruct container as [box|]; [|split; discriminate].
  destruct (0 <=? _)%Z; [|split; discriminate].
  destruct (nth_error _ _) as [track|] eqn:N; [|split; discriminate].
  unfold addClipToTimeline, JsObj.lookup.
  destruct (JsObj.get assetId (TimelineState.assets state)) as [asset|].
  - split; [|discriminate].
    intros a [= <-]. eexists. exists asset, track.
    split; [reflexivity|]. split; [reflexivity|].
    split; [eapply nth_error_In, N|].
    simpl. repeat split. apply Math_max_l.
  - destruct (JsObj.protoMember assetId) as [m|];
      [|split; discriminate].
    split; [discriminate|].
    intros payload [= <-]. repeat split. discriminate.
Qed.

(** The intro video dropped on the fourth row of [storeWithAsset], left of
    the container. *)
Lemma drop_places_on_a_track_witness :
  exists a,
    handleDrop 64 30 storeWithAsset "a1" (Some (Container.mk 200 400 0))
      (MouseEvent.mk 100 (400 + 30 + 3 * 64 + 10)) "k3x9fa"
    = added a
    /\ exists p asset track,
         a = ADD_CLIP p
         /\ JsObj.get "a1" (TimelineState.assets storeWithAsset) = Some asset
         /\ In track (TimelineState.tracks storeWithAsset)
         /\ Clip.id p = "k3x9fa"%string
         /\ Clip.assetId p = Some "a1"%string
         /\ Clip.trackId p = Track.id track
         /\ 0 <= Clip.timelineStart p
         /\ Clip.inPoint p = 0
         /\ Clip.duration p = MediaAsset.duration asset.
Proof.
  eexists.
  assert (H : handleDrop 64 30 storeWithAsset "a1"
                (Some (Container.mk 200 400 0))
                (MouseEvent.mk 100 (400 + 30 + 3 * 64 + 10)) "k3x9fa"
              = added (ADD_CLIP
                        (Clip.mk "k3x9fa" (Some "a1"%string) 0 VIDEO 0 0 10
                           DEFAULT_TRANSFORM 0 (Some "intro.mp4"%string)
                           None (Some (Transition.mk 0 0 fade)) (Some 1))))
    by (vm_compute; reflexivity).
  assert (TH : ~ 64 == 0) by discriminate.
  assert (Z : 0 < TimelineState.zoom storeWithAsset) by reflexivity.
  split; [exact H|].
  exact (proj1 (drop_places_on_a_track 64 30 storeWithAsset "a1" _ _
                  "k3x9fa" TH Z) _ H).
Defined.

(* ------------------------------------------------------------------ *)
(** ** The time display *)

Lemma Qfloor_range (x : Q) (lo hi : Z) :
  inject_Z lo <= x -> x < inject_Z hi -> (lo <= Qfloor x < hi)%Z.
Proof.
  intros L U. split.
  - rewrite <- (Qfloor_Z lo). now apply Qfloor_resp_le.
  - rewrite Zlt_Qlt. eapply Qle_lt_trans; [apply Qfloor_le|exact U].
Qed.

Lemma Math_trunc_nonneg (a : Q) : 0 <= a -> Math_trunc a = Qfloor a.
Proof.
  intros H. unfold Math_trunc. apply Qltb_false in H. now rewrite H.
Qed.

(** A number from 0 to 99 is printed with two characters. *)
Lemma two_digits (z : Z) :
  (0 <= z <= 99)%Z -> String.length (padStart2 (showZ z)) = 2%nat.
Proof.
  intros H.
  assert (A : forallb
                (fun n => Nat.eqb
                            (String.length (padStart2 (showZ (Z.of_nat n))))
                            2)
                (seq 0 100) = true) by (vm_compute; reflexivity).
  rewrite forallb_forall in A. specialize (A (Z.to_nat z)).
  rewrite Z2Nat.id in A by lia. apply Nat.eqb_eq, A. apply in_seq. lia.
Qed.

(** X28. For a time of [seconds >= 0] the minutes [formatTime] prints are
    not negative, the seconds lie between 0 and 59, the hundredths
    between 0 and 99, and seconds and hundredths are printed with two
    characters each. *)
Theorem formatTime_parts (seconds : Q) :
  0 <= seconds ->
  let '(min, sec, ms) := formatTimeParts seconds in
  (0 <= min)%Z /\ (0 <= sec <= 59)%Z /\ (0 <= ms <= 99)%Z
  /\ String.length (padStart2 (showZ sec)) = 2%nat
  /\ String.length (padStart2 (showZ ms)) = 2%nat.
Proof.
  intros S. unfold formatTimeParts, jsRem, Math_floor.
  assert (S60 : 0 <= seconds / 60)
    by (unfold Qdiv; change (/ 60) with (1 # 60); lra).
  assert (S1 : seconds / 1 == seconds)
    by (unfold Qdiv; change (/ 1) with 1; lra).
  rewrite (Math_trunc_nonneg _ S60).
  assert (T1 : Math_trunc (seconds / 1) = Qfloor seconds).
  { rewrite Math_trunc_nonneg by (rewrite S1; exact S).
    now apply Qfloor_comp. }
  rewrite T1.
  set (m := Qfloor (seconds / 60)).
  pose proof (Qfloor_le (seconds / 60)) as M1.
  pose proof (Qlt_floor (seconds / 60)) as M2.
  fold m in M1, M2. rewrite inject_Z_plus in M2.
  unfold Qdiv in M1, M2. change (/ 60) with (1 # 60) in M1, M2.
  change (inject_Z 1) with 1 in M2.
  set (r := seconds - 60 * inject_Z m).
  assert (R0 : 0 <= r) by (unfold r; lra).
  assert (R60 : r < 60) by (unfold r; lra).
  set (h := (seconds - 1 * inject_Z (Qfloor seconds)) * 100).
  pose proof (Qfloor_le seconds) as F1. pose proof (Qlt_floor seconds) as F2.
  rewrite inject_Z_plus in F2. change (inject_Z 1) with 1 in F2.
  assert (H0 : 0 <= h) by (unfold h; lra).
  assert (H100 : h < 100) by (unfold h; lra).
  assert (Sec : (0 <= Qfloor r <= 59)%Z).
  { assert (0 <= Qfloor r < 60)%Z by (apply Qfloor_range; assumption).
    lia. }
  assert (Ms : (0 <= Qfloor h <= 99)%Z).
  { assert (0 <= Qfloor h < 100)%Z by (apply Qfloor_range; assumption).
    lia. }
  split; [|split; [exact Sec|split; [exact Ms|split]]].
  - rewrite <- (Qfloor_Z 0). apply Qfloor_resp_le. exact S60.
  - apply two_digits. lia.
  - apply two_digits. lia.
Qed.

(** The display of 83.456s. *)
Lemma formatTime_parts_witness :
  0 <= 83.456
  /\ formatTime 83.456 = "01:23.45"%string
  /\ let '(min, sec, ms) := formatTimeParts 83.456 in
     (0 <= min)%Z /\ (0 <= sec <= 59)%Z /\ (0 <= ms <= 99)%Z
     /\ String.length (padStart2 (showZ sec)) = 2%nat
     /\ String.length (padStart2 (showZ ms)) = 2%nat.
Proof.
  assert (S : 0 <= 83.456) by discriminate.
  split; [exact S|]. split; [reflexivity|].
  exact (formatTime_parts 83.456 S).
Defined.

(* ------------------------------------------------------------------ *)
(** ** Initial clips *)













(* ------------------------------------------------------------------ *)
(** ** Properties panel *)

(** A state whose clips are those of another one up to fields other than
    id, track, start and length is as free of overlap. *)
Lemma same_timing_noOverlap (s s' : TimelineState.t) :
  (forall c', In c' (clipsOf s') ->
     exists c, In c (clipsOf s)
       /\ Clip.id c' = Clip.id c /\ Clip.trackId c' = Clip.trackId c
       /\ Clip.timelineStart c' = Clip.timelineStart c
       /\ Clip.duration c' = Clip.duration c) ->
  noOverlap s -> noOverlap s'.
Proof.
  intros Same N a b Ha Hb Hid Htr [O1 O2].
  destruct (Same a Ha) as [a0 [Ia [A1 [A2 [A3 A4]]]]].
  destruct (Same b Hb) as [b0 [Ib [B1 [B2 [B3 B4]]]]].
  apply (N a0 b0 Ia Ib).
  - congruence.
  - rewrite <- A2, <- B2. exact Htr.
  - unfold overlapping. rewrite <- A3, <- A4, <- B3, <- B4. now split.
Qed.

(** An update that names none of id, track, start, in-point and length
    leaves every clip where it is and the timeline as long as it is. *)
Lemma update_keepsTiming (s : TimelineState.t) (id : string)
    (ch : ClipChanges.t) :
  trailingMargin s -> keepsTiming ch ->
  let s' := timelineReducer s (UPDATE_CLIP id ch) in
  TimelineState.duration s' = TimelineState.duration s
  /\ forall c', In c' (clipsOf s') ->
       exists c, In c (clipsOf s)
         /\ Clip.id c' = Clip.id c /\ Clip.trackId c' = Clip.trackId c
         /\ Clip.timelineStart c' = Clip.timelineStart c
         /\ Clip.inPoint c' = Clip.inPoint c
         /\ Clip.duration c' = Clip.duration c.
Proof.
  intros M [K1 [K2 [K3 [K4 K5]]]].
  destruct s as [assets tracks clips d ct pl sel zm cs].
  unfold trailingMargin, clipsOf in *. simpl in *.
  destruct (JsObj.get id clips) as [clip|] eqn:G; simpl.
  - assert (I : In clip (JsObj.values clips))
      by (apply values_In; exists id; now apply get_In).
    pose proof (M clip I) as Mc.
    destruct ch as [cid ca ctr cty cst cin cdu ctf cz cl ctd ctn cv].
    simpl in *. subst. simpl. split.
    + unfold Math_max.
      destruct (Qltb d (Clip.timelineStart clip + Clip.duration clip + 5))
        eqn:Q; [|reflexivity].
      qprops. lra.
    + intros c' Hc'. apply spreadSet_values_In in Hc'.
      destruct Hc' as [->|Hc'].
      * exists clip. simpl. repeat split; trivial.
      * exists c'. repeat split; trivial.
  - split; [reflexivity|]. intros c' Hc'. exists c'. repeat split; trivial.
Qed.

(** X30. In every state the store can reach, a transform edit and a
    volume edit of the properties panel that leave a state every clip of
    which has all its fields change neither the length of the timeline
    nor the id, track, start, in-point and length of any clip, and they
    leave a timeline that is free of overlap free of it. *)
Theorem panel_edits_keep_timing d0 props (s s' : TimelineState.t)
    (key : TransformKey) (value : Q) (a : Action) :
  reachable d0 props s ->
  updateTransform s key value = edits a \/ updateVolume s value = edits a ->
  reduce s a = sound s' ->
  TimelineState.duration s' = TimelineState.duration s
  /\ (noOverlap s -> noOverlap s')
  /\ forall c', In c' (clipsOf s') ->
       exists c, In c (clipsOf s)
         /\ Clip.id c' = Clip.id c /\ Clip.trackId c' = Clip.trackId c
         /\ Clip.timelineStart c' = Clip.timelineStart c
         /\ Clip.inPoint c' = Clip.inPoint c
         /\ Clip.duration c' = Clip.duration c.
Proof.
  intros R Ha Hs. pose proof (reachable_margin _ _ _ R) as M.
  apply reduce_sound_inv in Hs. subst s'.
  assert (exists id ch, a = UPDATE_CLIP id ch /\ keepsTiming ch)
    as [id [ch [-> K]]].
  { unfold updateTransform, updateVolume in Ha.
    destruct (selectedClip s) as [sc|m|]; try (destruct Ha; discriminate).
    destruct Ha as [[= <-]|[= <-]]; eexists; eexists;
      (split; [reflexivity|]); unfold keepsTiming; simpl; tauto. }
  destruct (update_keepsTiming s id ch M K) as [D Same].
  split; [exact D|]. split; [|exact Same].
  apply same_timing_noOverlap. intros c' Hc'.
  destruct (Same c' Hc') as [c [I [A [B [C [_ E]]]]]].
  exists c. tauto.
Qed.

(** Fading the selected clip of [twoClips] to half. *)
Lemma panel_edits_keep_timing_witness :
  reachable 30 None twoClips
  /\ exists a s',
       updateTransform twoClips key_opacity 0.5 = edits a
       /\ reduce twoClips a = sound s'
       /\ TimelineState.duration s' = TimelineState.duration twoClips.
Proof.
  assert (R : reachable 30 None twoClips) by exact twoClips_reachable.
  split; [exact R|].
  destruct (updateTransform twoClips key_opacity 0.5) as [|a|] eqn:E;
    try discriminate.
  destruct (reduce twoClips a) as [s'|s0 id f d] eqn:Hs;
    [|vm_compute in E; injection E as <-; vm_compute in Hs; discriminate].
  exists a, s'. split; [reflexivity|]. split; [exact Hs|].
  exact (proj1 (panel_edits_keep_timing 30 None twoClips s' key_opacity 0.5
                  a R (or_introl E) Hs)).
Defined.

(** A panel edit that leaves no such state.  In [renamedStore], a state
    the store can reach, the selected clip sits under the key [k3x9fa]
    and has [toString] for its id: the panel dispatches an [UPDATE_CLIP]
    of [toString], under which [state.clips] finds the inherited
    function, and the total duration comes out as [NaN]. *)
Lemma panel_edit_of_renamed_clip :
  reachable 30 None renamedStore
  /\ exists ch,
       updateVolume renamedStore 0.5 = edits (UPDATE_CLIP "toString" ch)
       /\ reduce renamedStore (UPDATE_CLIP "toString" ch)
          = stray renamedStore "toString" ch JsNumber.NaN.
Proof.
  split.
  - unfold renamedStore. apply reachable_step. exact twoClips_reachable.
  - eexists. split; reflexivity.
Qed.
